(** * Session state machine of the rhythm game (src/rhythm.js)

    A shallow embedding of the session logic of [rhythm.js]: the
    randomised session parameters, the playback-tick handler, track
    sequencing, the completion guard and the start-up sequence.

    Modelling conventions.
    - JavaScript numbers are modelled as exact numbers: millisecond
      positions, durations and clock readings as [Z], the randomised
      quantities (session length, ratios, thresholds) as [Q].
    - [Math.random()] reads the next cell of a tape [rng : nat -> Q] that
      lives in the world; a draw of the real function lies in [0,1).
    - The global [gameState] object is the record [GameState]; the parts of
      the browser the code talks to (interval timers, pending [setTimeout]
      callbacks, the telemetry sink, the Web API, the DOM nodes it writes)
      are the remaining fields of [World].
    - A function of the source is a computation in the monad [M], which
      threads the world and may throw; a mutation made before a throw
      stays, as in JavaScript.
    - An awaited network call is given its outcome as an argument and
      completes before the next event is delivered.  The suspension of
      [unlockCompletion] at its first [await] is modelled explicitly. *)

From Stdlib Require Import ZArith QArith Qround Lqa String Ascii List Lia DecimalString
  Permutation.
From stdpp Require Import base gmap strings list.
Import ListNotations.

Local Open Scope string_scope.
Local Open Scope Z_scope.

(** ** Strings *)

Module Str.

(** [s.startsWith(p)] *)
Definition startsWith (s p : string) : bool := String.prefix p s.

(** [s.split(sep)] for a one-character separator. *)
Fixpoint split (sep : ascii) (s : string) : list string :=
  match s with
  | EmptyString => [EmptyString]
  | String c s' =>
      if Ascii.eqb c sep then EmptyString :: split sep s'
      else match split sep s' with
           | [] => [String c EmptyString]
           | w :: ws => String c w :: ws
           end
  end.

(** [c] occurs in [s] *)
Fixpoint contains (c : ascii) (s : string) : bool :=
  match s with
  | EmptyString => false
  | String d s' => Ascii.eqb d c || contains c s'
  end.

(** [s.charAt(i)]: the empty string when [i] is out of range. *)
Definition charAt (s : string) (i : Z) : string :=
  if i <? 0 then EmptyString
  else match String.get (Z.to_nat i) s with
       | Some c => String c EmptyString
       | None => EmptyString
       end.

(** [s.toUpperCase()] on the ASCII letters. *)
Definition upper_ascii (c : ascii) : ascii :=
  let n := nat_of_ascii c in
  if ((97 <=? n) && (n <=? 122))%nat then ascii_of_nat (n - 32) else c.

Fixpoint toUpperCase (s : string) : string :=
  match s with
  | EmptyString => EmptyString
  | String c s' => String (upper_ascii c) (toUpperCase s')
  end.

(** A JavaScript string is falsy exactly when it is empty. *)
Definition truthy (s : string) : bool :=
  match s with EmptyString => false | _ => true end.

End Str.

(** An array read [a[i]]: [None] stands for [undefined]. *)
Definition index {A} (a : list A) (i : Z) : option A :=
  if i <? 0 then None else a !! Z.to_nat i.

Definition TRACK_PREFIX : string := "spotify:track:".

Definition normalizeTrackUri (trackIdOrUri : string) : string :=
  if Str.startsWith trackIdOrUri TRACK_PREFIX then trackIdOrUri
  else TRACK_PREFIX ++ trackIdOrUri.

(** [trackIdOrUri.split(':')[2]] is [undefined] when the string has fewer
    than three fields; with the prefix present it never is. *)
Definition extractTrackId (trackIdOrUri : string) : option string :=
  if Str.startsWith trackIdOrUri TRACK_PREFIX
  then index (Str.split ":" trackIdOrUri) 2
  else Some trackIdOrUri.

(** ** Numbers *)

Definition Qleb (x y : Q) : bool := Qle_bool x y.
Definition Qltb (x y : Q) : bool := negb (Qle_bool y x).
Definition Qmax (x y : Q) : Q := if Qleb x y then y else x.

(** [Math.floor] and [Math.round] (halves round up). *)
Definition Math_floor (x : Q) : Z := Qfloor x.
Definition Math_round (x : Q) : Z := Qfloor (x + (1 # 2)).

(** [n.toString()] for an integer. *)
Definition toString (n : Z) : string := NilEmpty.string_of_int (Z.to_int n).

(** [s.padStart(2, '0')] *)
Definition padStart2 (s : string) : string :=
  match String.length s with
  | O => "00"
  | S O => "0" ++ s
  | _ => s
  end.

(** ** Configuration constants *)

Definition ANCHOR_TRACK : string := "spotify:track:5FMyXeZ0reYloRTiCkPprT".
Definition YOUR_TRACK : string := "spotify:track:0YWmeJtd7Fp1tH3978qUIH".
Definition FILLER_POOL : list string :=
  [ "spotify:track:2FDTHlrBguDzQkp7PVj16Q";
    "spotify:track:21jGcNKet2qwijlDFuPiPb";
    "spotify:track:7qiZfU4dY1lWllzX7mPBI3";
    "spotify:track:0VjIjW4GlULA7vLyAoIf2Y";
    "spotify:track:6WrI0LAC5M1Rw2MnX2ZvEg" ].

Module REQUIRED_MS_VARIANT.
Definition baseMin : Q := inject_Z (11 * 60 * 1000).
Definition baseMax : Q := inject_Z (14 * 60 * 1000).
End REQUIRED_MS_VARIANT.

Module MIN_TRACK_RATIO_DIST.
Definition lowBandProb : Q := 0.15.
Definition midBandProb : Q := 0.65.
Definition hiBandProb : Q := 0.20.
End MIN_TRACK_RATIO_DIST.

Module EARLY_FINISH_WINDOW.
Definition min : Q := 0.80.
Definition max : Q := 0.90.
End EARLY_FINISH_WINDOW.

Definition USE_PUBLIC_PLAYLIST_PROB : Q := 0.40.

Module ORDER_VARIANCE.
Definition defaultProb : Q := 0.75.
Definition swap12 : Q := 0.13.
Definition swap23 : Q := 0.12.
End ORDER_VARIANCE.

Module INTER_TRACK_GAP.
Definition min : Q := 1000.
Definition max : Q := 9000.
Definition immediateProb : Q := 0.15.
End INTER_TRACK_GAP.

Module NOISE_OPTIONS.
Definition enable : bool := true.
Definition pauseProb : Q := 0.4.
Definition volDipProb : Q := 0.4.
Definition volDipSize : Q * Q := (0.05, 0.10)%Q.
End NOISE_OPTIONS.

Definition ADJECTIVES : list string :=
  ["Cosmic"; "Electric"; "Urban"; "Neon"; "Midnight"; "Golden"; "Fresh"; "Vibe";
   "Pulse"; "Echo"; "Shadow"; "Bliss"; "Fury"; "Dream"; "Wild"; "Silent"; "Bright";
   "Dark"; "Rapid"; "Slow"; "Hot"; "Cool"; "Deep"; "High"; "Low"; "New"; "Old";
   "Lost"; "Found"].
Definition NOUNS : list string :=
  ["Waves"; "Beats"; "Mix"; "Session"; "Flow"; "Rhythm"; "Sound"; "Track"; "Vibe";
   "Pulse"; "Echo"; "Night"; "Day"; "City"; "Road"; "Air"; "Fire"; "Water"; "Earth";
   "Space"; "Time"; "Dream"; "Reality"; "Shadow"; "Light"; "Beat"; "Drop"; "Rise";
   "Fall"].
Definition SUFFIXES : list string :=
  ["Mix"; "Session"; "Vibes"; "Beats"; "Flow"; "Radar"; "Room"; "Pulse"; "Blend";
   "Tapes"; "Motion"; "Cuts"; "Drive"; "Heat"; "Waves"].
(** The six decorations appended to a playlist title; only their number
    matters here. *)
Definition EMOJIS : list string := ["(note)"; "(fire)"; "(wave)"; "(star)"; "(sparkles)"; "(headphones)"].
Definition TITLE_FLAVOR_GEO : bool := true.
Definition SHOW_SAVE_PROMPT_PROB : Q := 0.35.
Definition N8N_TELEMETRY_URL : string := EmptyString.
Definition N8N_COMPLETED_URL : string := EmptyString.
Definition CODE_CHARS : string := "0123456789ABCDEFGHIJKLMNOPQRSTUVWXYZ".

(** ** The game state and its surroundings *)

Record GameState := mkGameState {
  user : option string;            (* gameState.user.id, null before the profile is fetched *)
  deviceId : option string;
  currentTrack : Z;
  trackOrder : list string;
  playlist : option (string * string);   (* id and external url of the created playlist *)
  startedAt : option Z;
  sessionDuration : Q;
  minTrackRatio : Q;
  earlyFinishThreshold : Q;
  tracksCompleted : gset Z;
  isPlaying : bool;
  currentPosition : Z;
  currentDuration : Z;
  sessionTimer : option positive;
  unlockTimer : option positive;
  completionCode : option string;
  noiseApplied : bool;
  showSaveButton : bool;
  countryHint : option string
}.

(** The object literal that initialises [gameState]. *)
Definition gameState0 : GameState :=
  {| user := None; deviceId := None; currentTrack := 0; trackOrder := [];
     playlist := None; startedAt := None; sessionDuration := 0; minTrackRatio := 0;
     earlyFinishThreshold := 0; tracksCompleted := ∅; isPlaying := false;
     currentPosition := 0; currentDuration := 0; sessionTimer := None;
     unlockTimer := None; completionCode := None; noiseApplied := false;
     showSaveButton := false; countryHint := None |}.

Definition set_user v (g : GameState) : GameState :=
  {| user := v; deviceId := deviceId g; currentTrack := currentTrack g; trackOrder :=
     trackOrder g; playlist := playlist g; startedAt := startedAt g; sessionDuration :=
     sessionDuration g; minTrackRatio := minTrackRatio g; earlyFinishThreshold :=
     earlyFinishThreshold g; tracksCompleted := tracksCompleted g; isPlaying :=
     isPlaying g; currentPosition := currentPosition g; currentDuration :=
     currentDuration g; sessionTimer := sessionTimer g; unlockTimer := unlockTimer g;
     completionCode := completionCode g; noiseApplied := noiseApplied g; showSaveButton
     := showSaveButton g; countryHint := countryHint g |}.
Definition set_deviceId v (g : GameState) : GameState :=
  {| user := user g; deviceId := v; currentTrack := currentTrack g; trackOrder :=
     trackOrder g; playlist := playlist g; startedAt := startedAt g; sessionDuration :=
     sessionDuration g; minTrackRatio := minTrackRatio g; earlyFinishThreshold :=
     earlyFinishThreshold g; tracksCompleted := tracksCompleted g; isPlaying :=
     isPlaying g; currentPosition := currentPosition g; currentDuration :=
     currentDuration g; sessionTimer := sessionTimer g; unlockTimer := unlockTimer g;
     completionCode := completionCode g; noiseApplied := noiseApplied g; showSaveButton
     := showSaveButton g; countryHint := countryHint g |}.
Definition set_currentTrack v (g : GameState) : GameState :=
  {| user := user g; deviceId := deviceId g; currentTrack := v; trackOrder := trackOrder
     g; playlist := playlist g; startedAt := startedAt g; sessionDuration :=
     sessionDuration g; minTrackRatio := minTrackRatio g; earlyFinishThreshold :=
     earlyFinishThreshold g; tracksCompleted := tracksCompleted g; isPlaying :=
     isPlaying g; currentPosition := currentPosition g; currentDuration :=
     currentDuration g; sessionTimer := sessionTimer g; unlockTimer := unlockTimer g;
     completionCode := completionCode g; noiseApplied := noiseApplied g; showSaveButton
     := showSaveButton g; countryHint := countryHint g |}.
Definition set_trackOrder v (g : GameState) : GameState :=
  {| user := user g; deviceId := deviceId g; currentTrack := currentTrack g; trackOrder
     := v; playlist := playlist g; startedAt := startedAt g; sessionDuration :=
     sessionDuration g; minTrackRatio := minTrackRatio g; earlyFinishThreshold :=
     earlyFinishThreshold g; tracksCompleted := tracksCompleted g; isPlaying :=
     isPlaying g; currentPosition := currentPosition g; currentDuration :=
     currentDuration g; sessionTimer := sessionTimer g; unlockTimer := unlockTimer g;
     completionCode := completionCode g; noiseApplied := noiseApplied g; showSaveButton
     := showSaveButton g; countryHint := countryHint g |}.
Definition set_playlist v (g : GameState) : GameState :=
  {| user := user g; deviceId := deviceId g; currentTrack := currentTrack g; trackOrder
     := trackOrder g; playlist := v; startedAt := startedAt g; sessionDuration :=
     sessionDuration g; minTrackRatio := minTrackRatio g; earlyFinishThreshold :=
     earlyFinishThreshold g; tracksCompleted := tracksCompleted g; isPlaying :=
     isPlaying g; currentPosition := currentPosition g; currentDuration :=
     currentDuration g; sessionTimer := sessionTimer g; unlockTimer := unlockTimer g;
     completionCode := completionCode g; noiseApplied := noiseApplied g; showSaveButton
     := showSaveButton g; countryHint := countryHint g |}.
Definition set_startedAt v (g : GameState) : GameState :=
  {| user := user g; deviceId := deviceId g; currentTrack := currentTrack g; trackOrder
     := trackOrder g; playlist := playlist g; startedAt := v; sessionDuration :=
     sessionDuration g; minTrackRatio := minTrackRatio g; earlyFinishThreshold :=
     earlyFinishThreshold g; tracksCompleted := tracksCompleted g; isPlaying :=
     isPlaying g; currentPosition := currentPosition g; currentDuration :=
     currentDuration g; sessionTimer := sessionTimer g; unlockTimer := unlockTimer g;
     completionCode := completionCode g; noiseApplied := noiseApplied g; showSaveButton
     := showSaveButton g; countryHint := countryHint g |}.
Definition set_sessionDuration v (g : GameState) : GameState :=
  {| user := user g; deviceId := deviceId g; currentTrack := currentTrack g; trackOrder
     := trackOrder g; playlist := playlist g; startedAt := startedAt g; sessionDuration
     := v; minTrackRatio := minTrackRatio g; earlyFinishThreshold :=
     earlyFinishThreshold g; tracksCompleted := tracksCompleted g; isPlaying :=
     isPlaying g; currentPosition := currentPosition g; currentDuration :=
     currentDuration g; sessionTimer := sessionTimer g; unlockTimer := unlockTimer g;
     completionCode := completionCode g; noiseApplied := noiseApplied g; showSaveButton
     := showSaveButton g; countryHint := countryHint g |}.
Definition set_minTrackRatio v (g : GameState) : GameState :=
  {| user := user g; deviceId := deviceId g; currentTrack := currentTrack g; trackOrder
     := trackOrder g; playlist := playlist g; startedAt := startedAt g; sessionDuration
     := sessionDuration g; minTrackRatio := v; earlyFinishThreshold :=
     earlyFinishThreshold g; tracksCompleted := tracksCompleted g; isPlaying :=
     isPlaying g; currentPosition := currentPosition g; currentDuration :=
     currentDuration g; sessionTimer := sessionTimer g; unlockTimer := unlockTimer g;
     completionCode := completionCode g; noiseApplied := noiseApplied g; showSaveButton
     := showSaveButton g; countryHint := countryHint g |}.
Definition set_earlyFinishThreshold v (g : GameState) : GameState :=
  {| user := user g; deviceId := deviceId g; currentTrack := currentTrack g; trackOrder
     := trackOrder g; playlist := playlist g; startedAt := startedAt g; sessionDuration
     := sessionDuration g; minTrackRatio := minTrackRatio g; earlyFinishThreshold := v;
     tracksCompleted := tracksCompleted g; isPlaying := isPlaying g; currentPosition :=
     currentPosition g; currentDuration := currentDuration g; sessionTimer :=
     sessionTimer g; unlockTimer := unlockTimer g; completionCode := completionCode g;
     noiseApplied := noiseApplied g; showSaveButton := showSaveButton g; countryHint :=
     countryHint g |}.
Definition set_tracksCompleted v (g : GameState) : GameState :=
  {| user := user g; deviceId := deviceId g; currentTrack := currentTrack g; trackOrder
     := trackOrder g; playlist := playlist g; startedAt := startedAt g; sessionDuration
     := sessionDuration g; minTrackRatio := minTrackRatio g; earlyFinishThreshold :=
     earlyFinishThreshold g; tracksCompleted := v; isPlaying := isPlaying g;
     currentPosition := currentPosition g; currentDuration := currentDuration g;
     sessionTimer := sessionTimer g; unlockTimer := unlockTimer g; completionCode :=
     completionCode g; noiseApplied := noiseApplied g; showSaveButton := showSaveButton
     g; countryHint := countryHint g |}.
Definition set_isPlaying v (g : GameState) : GameState :=
  {| user := user g; deviceId := deviceId g; currentTrack := currentTrack g; trackOrder
     := trackOrder g; playlist := playlist g; startedAt := startedAt g; sessionDuration
     := sessionDuration g; minTrackRatio := minTrackRatio g; earlyFinishThreshold :=
     earlyFinishThreshold g; tracksCompleted := tracksCompleted g; isPlaying := v;
     currentPosition := currentPosition g; currentDuration := currentDuration g;
     sessionTimer := sessionTimer g; unlockTimer := unlockTimer g; completionCode :=
     completionCode g; noiseApplied := noiseApplied g; showSaveButton := showSaveButton
     g; countryHint := countryHint g |}.
Definition set_currentPosition v (g : GameState) : GameState :=
  {| user := user g; deviceId := deviceId g; currentTrack := currentTrack g; trackOrder
     := trackOrder g; playlist := playlist g; startedAt := startedAt g; sessionDuration
     := sessionDuration g; minTrackRatio := minTrackRatio g; earlyFinishThreshold :=
     earlyFinishThreshold g; tracksCompleted := tracksCompleted g; isPlaying :=
     isPlaying g; currentPosition := v; currentDuration := currentDuration g;
     sessionTimer := sessionTimer g; unlockTimer := unlockTimer g; completionCode :=
     completionCode g; noiseApplied := noiseApplied g; showSaveButton := showSaveButton
     g; countryHint := countryHint g |}.
Definition set_currentDuration v (g : GameState) : GameState :=
  {| user := user g; deviceId := deviceId g; currentTrack := currentTrack g; trackOrder
     := trackOrder g; playlist := playlist g; startedAt := startedAt g; sessionDuration
     := sessionDuration g; minTrackRatio := minTrackRatio g; earlyFinishThreshold :=
     earlyFinishThreshold g; tracksCompleted := tracksCompleted g; isPlaying :=
     isPlaying g; currentPosition := currentPosition g; currentDuration := v;
     sessionTimer := sessionTimer g; unlockTimer := unlockTimer g; completionCode :=
     completionCode g; noiseApplied := noiseApplied g; showSaveButton := showSaveButton
     g; countryHint := countryHint g |}.
Definition set_sessionTimer v (g : GameState) : GameState :=
  {| user := user g; deviceId := deviceId g; currentTrack := currentTrack g; trackOrder
     := trackOrder g; playlist := playlist g; startedAt := startedAt g; sessionDuration
     := sessionDuration g; minTrackRatio := minTrackRatio g; earlyFinishThreshold :=
     earlyFinishThreshold g; tracksCompleted := tracksCompleted g; isPlaying :=
     isPlaying g; currentPosition := currentPosition g; currentDuration :=
     currentDuration g; sessionTimer := v; unlockTimer := unlockTimer g; completionCode
     := completionCode g; noiseApplied := noiseApplied g; showSaveButton :=
     showSaveButton g; countryHint := countryHint g |}.
Definition set_unlockTimer v (g : GameState) : GameState :=
  {| user := user g; deviceId := deviceId g; currentTrack := currentTrack g; trackOrder
     := trackOrder g; playlist := playlist g; startedAt := startedAt g; sessionDuration
     := sessionDuration g; minTrackRatio := minTrackRatio g; earlyFinishThreshold :=
     earlyFinishThreshold g; tracksCompleted := tracksCompleted g; isPlaying :=
     isPlaying g; currentPosition := currentPosition g; currentDuration :=
     currentDuration g; sessionTimer := sessionTimer g; unlockTimer := v; completionCode
     := completionCode g; noiseApplied := noiseApplied g; showSaveButton :=
     showSaveButton g; countryHint := countryHint g |}.
Definition set_completionCode v (g : GameState) : GameState :=
  {| user := user g; deviceId := deviceId g; currentTrack := currentTrack g; trackOrder
     := trackOrder g; playlist := playlist g; startedAt := startedAt g; sessionDuration
     := sessionDuration g; minTrackRatio := minTrackRatio g; earlyFinishThreshold :=
     earlyFinishThreshold g; tracksCompleted := tracksCompleted g; isPlaying :=
     isPlaying g; currentPosition := currentPosition g; currentDuration :=
     currentDuration g; sessionTimer := sessionTimer g; unlockTimer := unlockTimer g;
     completionCode := v; noiseApplied := noiseApplied g; showSaveButton :=
     showSaveButton g; countryHint := countryHint g |}.
Definition set_noiseApplied v (g : GameState) : GameState :=
  {| user := user g; deviceId := deviceId g; currentTrack := currentTrack g; trackOrder
     := trackOrder g; playlist := playlist g; startedAt := startedAt g; sessionDuration
     := sessionDuration g; minTrackRatio := minTrackRatio g; earlyFinishThreshold :=
     earlyFinishThreshold g; tracksCompleted := tracksCompleted g; isPlaying :=
     isPlaying g; currentPosition := currentPosition g; currentDuration :=
     currentDuration g; sessionTimer := sessionTimer g; unlockTimer := unlockTimer g;
     completionCode := completionCode g; noiseApplied := v; showSaveButton :=
     showSaveButton g; countryHint := countryHint g |}.
Definition set_showSaveButton v (g : GameState) : GameState :=
  {| user := user g; deviceId := deviceId g; currentTrack := currentTrack g; trackOrder
     := trackOrder g; playlist := playlist g; startedAt := startedAt g; sessionDuration
     := sessionDuration g; minTrackRatio := minTrackRatio g; earlyFinishThreshold :=
     earlyFinishThreshold g; tracksCompleted := tracksCompleted g; isPlaying :=
     isPlaying g; currentPosition := currentPosition g; currentDuration :=
     currentDuration g; sessionTimer := sessionTimer g; unlockTimer := unlockTimer g;
     completionCode := completionCode g; noiseApplied := noiseApplied g; showSaveButton
     := v; countryHint := countryHint g |}.
Definition set_countryHint v (g : GameState) : GameState :=
  {| user := user g; deviceId := deviceId g; currentTrack := currentTrack g; trackOrder
     := trackOrder g; playlist := playlist g; startedAt := startedAt g; sessionDuration
     := sessionDuration g; minTrackRatio := minTrackRatio g; earlyFinishThreshold :=
     earlyFinishThreshold g; tracksCompleted := tracksCompleted g; isPlaying :=
     isPlaying g; currentPosition := currentPosition g; currentDuration :=
     currentDuration g; sessionTimer := sessionTimer g; unlockTimer := unlockTimer g;
     completionCode := completionCode g; noiseApplied := noiseApplied g; showSaveButton
     := showSaveButton g; countryHint := v |}.

(** The DOM nodes the session code reads and writes.  The page itself is
    not part of the sources, so the initial values are left open. *)
Record UI := mkUI {
  statusMessages : list (string * string);   (* showMessage(text, type), newest first *)
  mainButtonText : string;
  mainButtonEnabled : bool;
  mainButtonDisplay : string;
  finishButtonDisplay : string;              (* finish-button style.display *)
  finishButtonOnclick : bool;                (* finishBtn.onclick is unlockCompletion *)
  saveButtonDisplay : string;
  completionCodeText : string;
  completionAreaDisplay : string;
  trackTitle : string;
  trackArtist : string;
  progressElements : list Z;                 (* i such that track{i}-progress and track{i}-percent exist *)
  progressShown : list (Z * Z);              (* (track, percentage) written, newest first *)
  trackProgressDisplay : string;
  sessionTimerText : string
}.

Definition set_statusMessages v (u : UI) : UI :=
  {| statusMessages := v; mainButtonText := mainButtonText u; mainButtonEnabled :=
     mainButtonEnabled u; mainButtonDisplay := mainButtonDisplay u; finishButtonDisplay
     := finishButtonDisplay u; finishButtonOnclick := finishButtonOnclick u;
     saveButtonDisplay := saveButtonDisplay u; completionCodeText := completionCodeText
     u; completionAreaDisplay := completionAreaDisplay u; trackTitle := trackTitle u;
     trackArtist := trackArtist u; progressElements := progressElements u; progressShown
     := progressShown u; trackProgressDisplay := trackProgressDisplay u;
     sessionTimerText := sessionTimerText u |}.
Definition set_mainButtonText v (u : UI) : UI :=
  {| statusMessages := statusMessages u; mainButtonText := v; mainButtonEnabled :=
     mainButtonEnabled u; mainButtonDisplay := mainButtonDisplay u; finishButtonDisplay
     := finishButtonDisplay u; finishButtonOnclick := finishButtonOnclick u;
     saveButtonDisplay := saveButtonDisplay u; completionCodeText := completionCodeText
     u; completionAreaDisplay := completionAreaDisplay u; trackTitle := trackTitle u;
     trackArtist := trackArtist u; progressElements := progressElements u; progressShown
     := progressShown u; trackProgressDisplay := trackProgressDisplay u;
     sessionTimerText := sessionTimerText u |}.
Definition set_mainButtonEnabled v (u : UI) : UI :=
  {| statusMessages := statusMessages u; mainButtonText := mainButtonText u;
     mainButtonEnabled := v; mainButtonDisplay := mainButtonDisplay u;
     finishButtonDisplay := finishButtonDisplay u; finishButtonOnclick :=
     finishButtonOnclick u; saveButtonDisplay := saveButtonDisplay u; completionCodeText
     := completionCodeText u; completionAreaDisplay := completionAreaDisplay u;
     trackTitle := trackTitle u; trackArtist := trackArtist u; progressElements :=
     progressElements u; progressShown := progressShown u; trackProgressDisplay :=
     trackProgressDisplay u; sessionTimerText := sessionTimerText u |}.
Definition set_mainButtonDisplay v (u : UI) : UI :=
  {| statusMessages := statusMessages u; mainButtonText := mainButtonText u;
     mainButtonEnabled := mainButtonEnabled u; mainButtonDisplay := v;
     finishButtonDisplay := finishButtonDisplay u; finishButtonOnclick :=
     finishButtonOnclick u; saveButtonDisplay := saveButtonDisplay u; completionCodeText
     := completionCodeText u; completionAreaDisplay := completionAreaDisplay u;
     trackTitle := trackTitle u; trackArtist := trackArtist u; progressElements :=
     progressElements u; progressShown := progressShown u; trackProgressDisplay :=
     trackProgressDisplay u; sessionTimerText := sessionTimerText u |}.
Definition set_finishButtonDisplay v (u : UI) : UI :=
  {| statusMessages := statusMessages u; mainButtonText := mainButtonText u;
     mainButtonEnabled := mainButtonEnabled u; mainButtonDisplay := mainButtonDisplay u;
     finishButtonDisplay := v; finishButtonOnclick := finishButtonOnclick u;
     saveButtonDisplay := saveButtonDisplay u; completionCodeText := completionCodeText
     u; completionAreaDisplay := completionAreaDisplay u; trackTitle := trackTitle u;
     trackArtist := trackArtist u; progressElements := progressElements u; progressShown
     := progressShown u; trackProgressDisplay := trackProgressDisplay u;
     sessionTimerText := sessionTimerText u |}.
Definition set_finishButtonOnclick v (u : UI) : UI :=
  {| statusMessages := statusMessages u; mainButtonText := mainButtonText u;
     mainButtonEnabled := mainButtonEnabled u; mainButtonDisplay := mainButtonDisplay u;
     finishButtonDisplay := finishButtonDisplay u; finishButtonOnclick := v;
     saveButtonDisplay := saveButtonDisplay u; completionCodeText := completionCodeText
     u; completionAreaDisplay := completionAreaDisplay u; trackTitle := trackTitle u;
     trackArtist := trackArtist u; progressElements := progressElements u; progressShown
     := progressShown u; trackProgressDisplay := trackProgressDisplay u;
     sessionTimerText := sessionTimerText u |}.
Definition set_saveButtonDisplay v (u : UI) : UI :=
  {| statusMessages := statusMessages u; mainButtonText := mainButtonText u;
     mainButtonEnabled := mainButtonEnabled u; mainButtonDisplay := mainButtonDisplay u;
     finishButtonDisplay := finishButtonDisplay u; finishButtonOnclick :=
     finishButtonOnclick u; saveButtonDisplay := v; completionCodeText :=
     completionCodeText u; completionAreaDisplay := completionAreaDisplay u; trackTitle
     := trackTitle u; trackArtist := trackArtist u; progressElements := progressElements
     u; progressShown := progressShown u; trackProgressDisplay := trackProgressDisplay
     u; sessionTimerText := sessionTimerText u |}.
Definition set_completionCodeText v (u : UI) : UI :=
  {| statusMessages := statusMessages u; mainButtonText := mainButtonText u;
     mainButtonEnabled := mainButtonEnabled u; mainButtonDisplay := mainButtonDisplay u;
     finishButtonDisplay := finishButtonDisplay u; finishButtonOnclick :=
     finishButtonOnclick u; saveButtonDisplay := saveButtonDisplay u; completionCodeText
     := v; completionAreaDisplay := completionAreaDisplay u; trackTitle := trackTitle u;
     trackArtist := trackArtist u; progressElements := progressElements u; progressShown
     := progressShown u; trackProgressDisplay := trackProgressDisplay u;
     sessionTimerText := sessionTimerText u |}.
Definition set_completionAreaDisplay v (u : UI) : UI :=
  {| statusMessages := statusMessages u; mainButtonText := mainButtonText u;
     mainButtonEnabled := mainButtonEnabled u; mainButtonDisplay := mainButtonDisplay u;
     finishButtonDisplay := finishButtonDisplay u; finishButtonOnclick :=
     finishButtonOnclick u; saveButtonDisplay := saveButtonDisplay u; completionCodeText
     := completionCodeText u; completionAreaDisplay := v; trackTitle := trackTitle u;
     trackArtist := trackArtist u; progressElements := progressElements u; progressShown
     := progressShown u; trackProgressDisplay := trackProgressDisplay u;
     sessionTimerText := sessionTimerText u |}.
Definition set_trackTitle v (u : UI) : UI :=
  {| statusMessages := statusMessages u; mainButtonText := mainButtonText u;
     mainButtonEnabled := mainButtonEnabled u; mainButtonDisplay := mainButtonDisplay u;
     finishButtonDisplay := finishButtonDisplay u; finishButtonOnclick :=
     finishButtonOnclick u; saveButtonDisplay := saveButtonDisplay u; completionCodeText
     := completionCodeText u; completionAreaDisplay := completionAreaDisplay u;
     trackTitle := v; trackArtist := trackArtist u; progressElements := progressElements
     u; progressShown := progressShown u; trackProgressDisplay := trackProgressDisplay
     u; sessionTimerText := sessionTimerText u |}.
Definition set_trackArtist v (u : UI) : UI :=
  {| statusMessages := statusMessages u; mainButtonText := mainButtonText u;
     mainButtonEnabled := mainButtonEnabled u; mainButtonDisplay := mainButtonDisplay u;
     finishButtonDisplay := finishButtonDisplay u; finishButtonOnclick :=
     finishButtonOnclick u; saveButtonDisplay := saveButtonDisplay u; completionCodeText
     := completionCodeText u; completionAreaDisplay := completionAreaDisplay u;
     trackTitle := trackTitle u; trackArtist := v; progressElements := progressElements
     u; progressShown := progressShown u; trackProgressDisplay := trackProgressDisplay
     u; sessionTimerText := sessionTimerText u |}.
Definition set_progressElements v (u : UI) : UI :=
  {| statusMessages := statusMessages u; mainButtonText := mainButtonText u;
     mainButtonEnabled := mainButtonEnabled u; mainButtonDisplay := mainButtonDisplay u;
     finishButtonDisplay := finishButtonDisplay u; finishButtonOnclick :=
     finishButtonOnclick u; saveButtonDisplay := saveButtonDisplay u; completionCodeText
     := completionCodeText u; completionAreaDisplay := completionAreaDisplay u;
     trackTitle := trackTitle u; trackArtist := trackArtist u; progressElements := v;
     progressShown := progressShown u; trackProgressDisplay := trackProgressDisplay u;
     sessionTimerText := sessionTimerText u |}.
Definition set_progressShown v (u : UI) : UI :=
  {| statusMessages := statusMessages u; mainButtonText := mainButtonText u;
     mainButtonEnabled := mainButtonEnabled u; mainButtonDisplay := mainButtonDisplay u;
     finishButtonDisplay := finishButtonDisplay u; finishButtonOnclick :=
     finishButtonOnclick u; saveButtonDisplay := saveButtonDisplay u; completionCodeText
     := completionCodeText u; completionAreaDisplay := completionAreaDisplay u;
     trackTitle := trackTitle u; trackArtist := trackArtist u; progressElements :=
     progressElements u; progressShown := v; trackProgressDisplay :=
     trackProgressDisplay u; sessionTimerText := sessionTimerText u |}.
Definition set_trackProgressDisplay v (u : UI) : UI :=
  {| statusMessages := statusMessages u; mainButtonText := mainButtonText u;
     mainButtonEnabled := mainButtonEnabled u; mainButtonDisplay := mainButtonDisplay u;
     finishButtonDisplay := finishButtonDisplay u; finishButtonOnclick :=
     finishButtonOnclick u; saveButtonDisplay := saveButtonDisplay u; completionCodeText
     := completionCodeText u; completionAreaDisplay := completionAreaDisplay u;
     trackTitle := trackTitle u; trackArtist := trackArtist u; progressElements :=
     progressElements u; progressShown := progressShown u; trackProgressDisplay := v;
     sessionTimerText := sessionTimerText u |}.
Definition set_sessionTimerText v (u : UI) : UI :=
  {| statusMessages := statusMessages u; mainButtonText := mainButtonText u;
     mainButtonEnabled := mainButtonEnabled u; mainButtonDisplay := mainButtonDisplay u;
     finishButtonDisplay := finishButtonDisplay u; finishButtonOnclick :=
     finishButtonOnclick u; saveButtonDisplay := saveButtonDisplay u; completionCodeText
     := completionCodeText u; completionAreaDisplay := completionAreaDisplay u;
     trackTitle := trackTitle u; trackArtist := trackArtist u; progressElements :=
     progressElements u; progressShown := progressShown u; trackProgressDisplay :=
     trackProgressDisplay u; sessionTimerText := v |}.

(** Telemetry payloads handed to [sendTelemetry].  [user_hash] keeps the
    user id that is hashed. *)
Inductive TelemetryData :=
| playlist_created (user_hash playlist_id : string) (country : option string)
    (order : list string) (title : string) (is_public : bool)
| track_started (track_id : option string) (track_number : Z)
| track_ended (track_id : option string) (track_number position_ms duration_ms : Z)
| session_completed (user_hash : string) (playlist_id : option string)
    (track_uris : list string) (order_chosen : list (option string))
    (per_track_ratios : list Q) (elapsed_ms : Z) (country : option string)
    (completion_code : option string) (tracks_completed : nat).

(** Requests sent through [spotifyApi]. *)
Inductive ApiCall :=
| POST_playlists (userId name : string) (public : bool)
| POST_playlist_tracks (playlistId : string) (uris : list string)
| GET_me
| GET_devices
| PUT_player (device : option string)
| PUT_play (device : option string) (uri : option string).

Inductive PlayerCmd := pause | resume | getVolume | setVolume (v : Q).

(** Callbacks waiting in the event loop: [setTimeout] callbacks and the
    continuation of [unlockCompletion] after its first [await]. *)
Inductive Task :=
| TPlayNextTrack                     (* () => playNextTrack() *)
| TPlayCurrentTrack                  (* () => { playCurrentTrack(); } *)
| TNoise                             (* the callback of scheduleNoiseInteraction *)
| TResume                            (* player.resume() after a noise pause *)
| TRestoreVolume (originalVol : Q)   (* player.setVolume(originalVol) *)
| TCompletionTelemetry (elapsed : Z) (userId : string).

(** Callbacks registered with [setInterval]. *)
Inductive Interval := IUpdateTimer | IMaybeUnlockCompletion.

Record World := mkWorld {
  gs : GameState;
  ui : UI;
  rng : nat -> Q;                        (* the values Math.random() returns *)
  rngPos : nat;                          (* how many have been consumed *)
  intervals : gmap positive Interval;    (* the live interval timers *)
  nextTimer : positive;                  (* the next timer handle *)
  pending : list (Q * Task);             (* delay and callback, oldest first *)
  telemetry : list TelemetryData;        (* calls of sendTelemetry, newest first *)
  posted : list (string * TelemetryData);(* webhook requests made, newest first *)
  apiCalls : list ApiCall;               (* Web API requests, newest first *)
  playerCmds : list PlayerCmd;           (* commands to the playback SDK, newest first *)
  rejections : list string               (* errors that escaped an async function *)
}.

Definition set_gs v (w : World) : World :=
  {| gs := v; ui := ui w; rng := rng w; rngPos := rngPos w; intervals := intervals w;
     nextTimer := nextTimer w; pending := pending w; telemetry := telemetry w; posted :=
     posted w; apiCalls := apiCalls w; playerCmds := playerCmds w; rejections :=
     rejections w |}.
Definition set_ui v (w : World) : World :=
  {| gs := gs w; ui := v; rng := rng w; rngPos := rngPos w; intervals := intervals w;
     nextTimer := nextTimer w; pending := pending w; telemetry := telemetry w; posted :=
     posted w; apiCalls := apiCalls w; playerCmds := playerCmds w; rejections :=
     rejections w |}.
Definition set_rng v (w : World) : World :=
  {| gs := gs w; ui := ui w; rng := v; rngPos := rngPos w; intervals := intervals w;
     nextTimer := nextTimer w; pending := pending w; telemetry := telemetry w; posted :=
     posted w; apiCalls := apiCalls w; playerCmds := playerCmds w; rejections :=
     rejections w |}.
Definition set_rngPos v (w : World) : World :=
  {| gs := gs w; ui := ui w; rng := rng w; rngPos := v; intervals := intervals w;
     nextTimer := nextTimer w; pending := pending w; telemetry := telemetry w; posted :=
     posted w; apiCalls := apiCalls w; playerCmds := playerCmds w; rejections :=
     rejections w |}.
Definition set_intervals v (w : World) : World :=
  {| gs := gs w; ui := ui w; rng := rng w; rngPos := rngPos w; intervals := v; nextTimer
     := nextTimer w; pending := pending w; telemetry := telemetry w; posted := posted w;
     apiCalls := apiCalls w; playerCmds := playerCmds w; rejections := rejections w |}.
Definition set_nextTimer v (w : World) : World :=
  {| gs := gs w; ui := ui w; rng := rng w; rngPos := rngPos w; intervals := intervals w;
     nextTimer := v; pending := pending w; telemetry := telemetry w; posted := posted w;
     apiCalls := apiCalls w; playerCmds := playerCmds w; rejections := rejections w |}.
Definition set_pending v (w : World) : World :=
  {| gs := gs w; ui := ui w; rng := rng w; rngPos := rngPos w; intervals := intervals w;
     nextTimer := nextTimer w; pending := v; telemetry := telemetry w; posted := posted
     w; apiCalls := apiCalls w; playerCmds := playerCmds w; rejections := rejections w
     |}.
Definition set_telemetry v (w : World) : World :=
  {| gs := gs w; ui := ui w; rng := rng w; rngPos := rngPos w; intervals := intervals w;
     nextTimer := nextTimer w; pending := pending w; telemetry := v; posted := posted w;
     apiCalls := apiCalls w; playerCmds := playerCmds w; rejections := rejections w |}.
Definition set_posted v (w : World) : World :=
  {| gs := gs w; ui := ui w; rng := rng w; rngPos := rngPos w; intervals := intervals w;
     nextTimer := nextTimer w; pending := pending w; telemetry := telemetry w; posted :=
     v; apiCalls := apiCalls w; playerCmds := playerCmds w; rejections := rejections w
     |}.
Definition set_apiCalls v (w : World) : World :=
  {| gs := gs w; ui := ui w; rng := rng w; rngPos := rngPos w; intervals := intervals w;
     nextTimer := nextTimer w; pending := pending w; telemetry := telemetry w; posted :=
     posted w; apiCalls := v; playerCmds := playerCmds w; rejections := rejections w |}.
Definition set_playerCmds v (w : World) : World :=
  {| gs := gs w; ui := ui w; rng := rng w; rngPos := rngPos w; intervals := intervals w;
     nextTimer := nextTimer w; pending := pending w; telemetry := telemetry w; posted :=
     posted w; apiCalls := apiCalls w; playerCmds := v; rejections := rejections w |}.
Definition set_rejections v (w : World) : World :=
  {| gs := gs w; ui := ui w; rng := rng w; rngPos := rngPos w; intervals := intervals w;
     nextTimer := nextTimer w; pending := pending w; telemetry := telemetry w; posted :=
     posted w; apiCalls := apiCalls w; playerCmds := playerCmds w; rejections := v |}.

Definition world0 (page : UI) (tape : nat -> Q) : World :=
  {| gs := gameState0; ui := page; rng := tape; rngPos := 0; intervals := ∅;
     nextTimer := 1%positive; pending := []; telemetry := []; posted := [];
     apiCalls := []; playerCmds := []; rejections := [] |}.

(** ** The monad of the session code *)

Inductive Res (A : Type) : Type :=
| Ok (a : A)
| Throw (e : string).
Arguments Ok {A} a.
Arguments Throw {A} e.

Definition M (A : Type) : Type := World -> Res A * World.

Definition ret {A} (a : A) : M A := fun w => (Ok a, w).

Definition bind {A B} (m : M A) (k : A -> M B) : M B :=
  fun w => match m w with
           | (Ok a, w') => k a w'
           | (Throw e, w') => (Throw e, w')
           end.

Definition throw {A} (e : string) : M A := fun w => (Throw e, w).

(** [try { m } catch (e) { handler(e) }] *)
Definition try_catch {A} (m : M A) (handler : string -> M A) : M A :=
  fun w => match m w with
           | (Ok a, w') => (Ok a, w')
           | (Throw e, w') => handler e w'
           end.

Definition gets {A} (f : World -> A) : M A := fun w => (Ok (f w), w).
Definition modify (f : World -> World) : M unit := fun w => (Ok tt, f w).
Definition when (b : bool) (m : M unit) : M unit := if b then m else ret tt.

Notation "x <- m ;; k" := (bind m (fun x => k))
  (at level 100, m at next level, right associativity).
Notation "m ;; k" := (bind m (fun _ => k))
  (at level 100, right associativity).

(** Reading and writing [gameState], writing the DOM. *)
Definition read {A} (f : GameState -> A) : M A := gets (fun w => f (gs w)).
Definition assign (f : GameState -> GameState) : M unit :=
  modify (fun w => set_gs (f (gs w)) w).
Definition render (f : UI -> UI) : M unit :=
  modify (fun w => set_ui (f (ui w)) w).

(** A call of an [async] function as its caller sees it: an exception
    inside becomes a rejected promise, which nobody handles here. *)
Definition async (m : M unit) : M unit :=
  try_catch m (fun e => modify (fun w => set_rejections (e :: rejections w) w)).

(** ** Browser services *)

Definition Math_random : M Q :=
  fun w => (Ok (rng w (rngPos w)), set_rngPos (S (rngPos w)) w).

Definition setTimeout (callback : Task) (delay : Q) : M unit :=
  modify (fun w => set_pending (pending w ++ [(delay, callback)]) w).

(** [await] on a promise that settles later: the rest of the function
    waits in the event loop. *)
Definition suspend (continuation : Task) : M unit :=
  modify (fun w => set_pending (pending w ++ [(0%Q, continuation)]) w).

Definition setInterval (callback : Interval) : M positive :=
  fun w => let id := nextTimer w in
           (Ok id, set_nextTimer (Pos.succ id)
                     (set_intervals (<[id := callback]> (intervals w)) w)).

Definition clearInterval (id : positive) : M unit :=
  modify (fun w => set_intervals (delete id (intervals w)) w).

Definition player (c : PlayerCmd) : M unit :=
  modify (fun w => set_playerCmds (c :: playerCmds w) w).

(** The outcome of an awaited request. *)
Inductive ApiOutcome (A : Type) : Type :=
| Resolved (a : A)
| Rejected (message : string).
Arguments Resolved {A} a.
Arguments Rejected {A} message.

(** [spotifyApi(endpoint, options)]: the client is an outside
    collaborator; it returns the parsed response or throws. *)
Definition spotifyApi {A} (call : ApiCall) (outcome : ApiOutcome A) : M A :=
  modify (fun w => set_apiCalls (call :: apiCalls w) w) ;;
  match outcome with
  | Resolved a => ret a
  | Rejected message => throw message
  end.

(** What the outside answers while one event is handled. *)
Record Answers := mkAnswers {
  createResp : ApiOutcome (string * string);
  addTracksResp : ApiOutcome unit;
  devicesResp : ApiOutcome (list string);
  transferResp : ApiOutcome unit;
  playResp : ApiOutcome unit;
  volume : Q
}.

(** The payload of [player_state_changed]; [current_track] carries the
    track name and the name of its first artist. *)
Record PlayerState := mkPlayerState {
  position : Z;
  duration : Z;
  paused : bool;
  current_track : option (string * option string)
}.

(** ** Utility functions *)

Definition truthyNum (n : option Z) : bool :=
  match n with Some z => negb (z =? 0) | None => false end.

Definition truthyStr (s : option string) : bool :=
  match s with Some s => Str.truthy s | None => false end.

Definition randomBetween (min max : Q) : M Q :=
  r <- Math_random ;; ret (r * (max - min) + min)%Q.

Definition randomChoice {A} (array : list A) : M (option A) :=
  r <- Math_random ;;
  ret (index array (Math_floor (r * inject_Z (Z.of_nat (length array))))).

Definition formatTime (ms : Z) : string :=
  let minutes := ms / 60000 in
  let seconds := Z.rem ms 60000 / 1000 in
  padStart2 (toString minutes) ++ ":" ++ padStart2 (toString seconds).

(** The later hiding of an info or success message is not modelled. *)
Definition showMessage (text type : string) : M unit :=
  render (fun u => set_statusMessages ((text, type) :: statusMessages u) u).

Definition updateButton (text : string) (enabled : bool) : M unit :=
  render (fun u => set_mainButtonEnabled enabled (set_mainButtonText text u)).

Definition updateTimer (now : Z) : M unit :=
  g <- gets gs ;;
  if negb (truthyNum (startedAt g)) then ret tt
  else
    let elapsed := now - default 0 (startedAt g) in
    render (set_sessionTimerText (formatTime elapsed)).

Definition updateTrackProgress : M unit :=
  g <- gets gs ;;
  when ((0 <? currentTrack g) && (currentTrack g <=? 3))
    (let trackIndex := currentTrack g in
     let progressRatio :=
       if 0 <? currentDuration g
       then (inject_Z (currentPosition g) / inject_Z (currentDuration g))%Q
       else 0%Q in
     let percentage := Math_round (progressRatio * 100) in
     u <- gets ui ;;
     when (bool_decide (trackIndex ∈ progressElements u))
       (render (fun u => set_progressShown ((trackIndex, percentage) :: progressShown u) u))).

(** ** Telemetry *)

Definition sendTelemetry (data : TelemetryData) (customUrl : option string) : M unit :=
  let url := if truthyStr customUrl then default EmptyString customUrl else N8N_TELEMETRY_URL in
  modify (fun w => set_telemetry (data :: telemetry w) w) ;;
  when (Str.truthy url)
    (modify (fun w => set_posted ((url, data) :: posted w) w)).

(** ** Session parameters *)

(** [[order[i], order[j]] = [order[j], order[i]]] *)
Definition swap {A} (i j : nat) (order : list A) : list A :=
  match order !! i, order !! j with
  | Some x, Some y => <[i := y]> (<[j := x]> order)
  | _, _ => order
  end.

(** [order.map(normalizeTrackUri)]; an [undefined] element makes
    [startsWith] throw. *)
Fixpoint mapNormalize (order : list (option string)) : M (list string) :=
  match order with
  | [] => ret []
  | Some t :: rest => us <- mapNormalize rest ;; ret (normalizeTrackUri t :: us)
  | None :: _ => throw "TypeError: undefined has no startsWith"
  end.

Definition generateTrackOrder : M unit :=
  filler <- randomChoice FILLER_POOL ;;
  let order := [Some ANCHOR_TRACK; Some YOUR_TRACK; filler] in
  rand <- Math_random ;;
  let order :=
    if Qltb ORDER_VARIANCE.defaultProb rand then
      if Qltb rand (ORDER_VARIANCE.defaultProb + ORDER_VARIANCE.swap12)
      then swap 0 1 order
      else swap 1 2 order
    else order in
  uris <- mapNormalize order ;;
  assign (set_trackOrder uris).

Definition generateSessionParameters : M unit :=
  d <- randomBetween REQUIRED_MS_VARIANT.baseMin REQUIRED_MS_VARIANT.baseMax ;;
  assign (set_sessionDuration d) ;;
  d <- read sessionDuration ;;
  f <- randomBetween EARLY_FINISH_WINDOW.min EARLY_FINISH_WINDOW.max ;;
  assign (set_earlyFinishThreshold (d * f)%Q) ;;
  rand <- Math_random ;;
  (if Qltb rand MIN_TRACK_RATIO_DIST.lowBandProb then
     m <- randomBetween 0.72 0.79 ;; assign (set_minTrackRatio m)
   else if Qltb rand (MIN_TRACK_RATIO_DIST.lowBandProb + MIN_TRACK_RATIO_DIST.midBandProb) then
     m <- randomBetween 0.80 0.94 ;; assign (set_minTrackRatio m)
   else
     m <- randomBetween 0.95 1.0 ;; assign (set_minTrackRatio m)) ;;
  r <- Math_random ;;
  assign (set_showSaveButton (Qltb r SHOW_SAVE_PROMPT_PROB)) ;;
  generateTrackOrder.

(** ** Completion *)

Fixpoint codeLoop (n : nat) (code : string) : M string :=
  match n with
  | O => ret code
  | S n' =>
      r <- Math_random ;;
      codeLoop n'
        (code ++ Str.charAt CODE_CHARS
                   (Math_floor (r * inject_Z (Z.of_nat (String.length CODE_CHARS)))))
  end.

Definition generateCompletionCode : M string := codeLoop 6 "PM-".

(** The part of [unlockCompletion] that runs once the awaited hash of the
    user id is there: it builds the rest of the payload and sends it. *)
Definition completionTelemetry (elapsed : Z) (userId : string) : M unit :=
  g <- gets gs ;;
  sendTelemetry
    (session_completed userId (fst <$> playlist g) (trackOrder g)
       (map extractTrackId (trackOrder g))
       (replicate (size (tracksCompleted g)) (minTrackRatio g))
       elapsed (countryHint g) (completionCode g) (size (tracksCompleted g)))
    (Some N8N_COMPLETED_URL) ;;
  showMessage "Congratulations! Session completed successfully!" "success".

(** [unlockCompletion] up to its first [await]. *)
Definition unlockCompletion (now : Z) : M unit :=
  g <- gets gs ;;
  if truthyStr (completionCode g) then ret tt
  else
    code <- generateCompletionCode ;;
    assign (set_completionCode (Some code)) ;;
    g <- gets gs ;;
    (match sessionTimer g with Some id => clearInterval id | None => ret tt end) ;;
    (match unlockTimer g with Some id => clearInterval id | None => ret tt end) ;;
    render (fun u => set_finishButtonDisplay "none"
                       (set_mainButtonDisplay "none"
                          (set_completionAreaDisplay "block"
                             (set_completionCodeText code u)))) ;;
    g <- gets gs ;;
    let elapsed := now - default 0 (startedAt g) in
    match user g with
    | None => throw "TypeError: gameState.user is null"
    | Some userId => suspend (TCompletionTelemetry elapsed userId)
    end.

Definition showEarlyFinishOption : M unit :=
  u <- gets ui ;;
  when (String.eqb (finishButtonDisplay u) "none")
    (render (fun u => set_finishButtonOnclick true (set_finishButtonDisplay "block" u)) ;;
     showMessage "All tracks completed! You can finish early if you want." "success").

(** [Date.now() - (gameState.startedAt || Date.now())] *)
Definition elapsedSince (now : Z) (g : GameState) : Z :=
  now - (if truthyNum (startedAt g) then default 0 (startedAt g) else now).

Definition allTracksCompleted (g : GameState) : bool :=
  Nat.eqb (size (tracksCompleted g)) (length (trackOrder g)).

Definition maybeUnlockCompletion (now : Z) : M unit :=
  g <- gets gs ;;
  if truthyStr (completionCode g) then ret tt
  else
    let elapsed := elapsedSince now g in
    if Qleb (sessionDuration g) (inject_Z elapsed) && allTracksCompleted g
    then async (unlockCompletion now)
    else when (Qleb (earlyFinishThreshold g) (inject_Z elapsed) && allTracksCompleted g)
           showEarlyFinishOption.

(** ** Playback *)

Definition scheduleNoiseInteraction : M unit :=
  delayMs <- randomBetween 30000 120000 ;;
  setTimeout TNoise delayMs.

(** The callback of [scheduleNoiseInteraction]; [originalVol] is what
    [getVolume] answers. *)
Definition noiseInteraction (originalVol : Q) : M unit :=
  g <- gets gs ;;
  if negb (isPlaying g) || noiseApplied g then ret tt
  else
    assign (set_noiseApplied true) ;;
    r <- Math_random ;;
    if Qltb r NOISE_OPTIONS.pauseProb then
      player pause ;;
      d <- randomBetween 2000 5000 ;;
      setTimeout TResume d
    else
      r <- Math_random ;;
      if Qltb r NOISE_OPTIONS.volDipProb then
        player getVolume ;;
        dipAmount <- randomBetween (fst NOISE_OPTIONS.volDipSize) (snd NOISE_OPTIONS.volDipSize) ;;
        player (setVolume (Qmax 0 (originalVol - dipAmount))) ;;
        d <- randomBetween 3000 8000 ;;
        setTimeout (TRestoreVolume originalVol) d
      else ret tt.

Definition playCurrentTrack (resp : ApiOutcome unit) : M unit :=
  g <- gets gs ;;
  if Z.of_nat (length (trackOrder g)) <? currentTrack g then ret tt
  else
    let trackUri := index (trackOrder g) (currentTrack g - 1) in
    try_catch
      (spotifyApi (PUT_play (deviceId g) trackUri) resp ;;
       track_id <- match trackUri with
                   | Some uri => ret (extractTrackId uri)
                   | None => throw "TypeError: undefined has no startsWith"
                   end ;;
       track_number <- read currentTrack ;;
       sendTelemetry (track_started track_id track_number) None ;;
       applied <- read noiseApplied ;;
       (if NOISE_OPTIONS.enable && negb applied then
          r <- Math_random ;;
          when (Qltb r 0.3) scheduleNoiseInteraction
        else ret tt) ;;
       save <- read showSaveButton ;;
       when (bool_decide (trackUri = Some YOUR_TRACK) && save)
         (render (set_saveButtonDisplay "block")))
      (fun _ => showMessage "Failed to play track" "error").

Definition playNextTrack : M unit :=
  g <- gets gs ;;
  if Z.of_nat (length (trackOrder g)) <=? currentTrack g then ret tt
  else
    track_id <- match index (trackOrder g) (currentTrack g - 1) with
                | Some currentTrackUri => ret (extractTrackId currentTrackUri)
                | None => throw "TypeError: undefined has no startsWith"
                end ;;
    sendTelemetry
      (track_ended track_id (currentTrack g) (currentPosition g) (currentDuration g))
      None ;;
    assign (fun g => set_currentTrack (currentTrack g + 1) g) ;;
    g <- gets gs ;;
    when (currentTrack g <=? Z.of_nat (length (trackOrder g)))
      (r <- Math_random ;;
       gapMs <- (if Qltb r INTER_TRACK_GAP.immediateProb then ret 0%Q
                 else randomBetween INTER_TRACK_GAP.min INTER_TRACK_GAP.max) ;;
       setTimeout TPlayCurrentTrack gapMs).

Definition handlePlayerStateChanged (now : Z) (state : option PlayerState) : M unit :=
  match state with
  | None => ret tt
  | Some st =>
      assign (set_currentPosition (position st)) ;;
      assign (set_currentDuration (duration st)) ;;
      assign (set_isPlaying (negb (paused st))) ;;
      match current_track st with
      | Some (name, artist) =>
          render (fun u =>
                    set_trackArtist
                      (if truthyStr artist then default EmptyString artist else "Unknown Artist")
                      (set_trackTitle name u))
      | None => ret tt
      end ;;
      updateTrackProgress ;;
      g <- gets gs ;;
      when ((0 <? currentTrack g) && (0 <? duration st))
        (let progressRatio := (inject_Z (position st) / inject_Z (duration st))%Q in
         when (Qleb (minTrackRatio g) progressRatio
               && negb (bool_decide (currentTrack g ∈ tracksCompleted g)))
           (assign (fun g => set_tracksCompleted ({[currentTrack g]} ∪ tracksCompleted g) g)) ;;
         playing <- read isPlaying ;;
         when ((duration st - 1000 <=? position st) && playing)
           (setTimeout TPlayNextTrack 100)) ;;
      maybeUnlockCompletion now
  end.

(** ** Starting a session *)

(** A template literal prints [undefined] for a missing value. *)
Definition interpolate (s : option string) : string := default "undefined" s.

Definition createPlaylist (create : ApiOutcome (string * string))
    (addTracks : ApiOutcome unit) : M (string * string) :=
  try_catch
    (adj <- randomChoice ADJECTIVES ;;
     noun <- randomChoice NOUNS ;;
     suffix <- randomChoice SUFFIXES ;;
     let playlistName :=
       interpolate adj ++ " " ++ interpolate noun ++ " " ++ interpolate suffix in
     r <- Math_random ;;
     playlistName <-
       (if Qltb r 0.3 then
          n <- Math_random ;;
          ret (playlistName ++ " " ++ padStart2 (toString (Math_floor (n * 99))))
        else ret playlistName) ;;
     r <- Math_random ;;
     playlistName <-
       (if Qltb r 0.2 then
          emoji <- randomChoice EMOJIS ;;
          ret (playlistName ++ " " ++ interpolate emoji)
        else ret playlistName) ;;
     g <- gets gs ;;
     playlistName <-
       (if TITLE_FLAVOR_GEO && truthyStr (countryHint g) then
          r <- Math_random ;;
          if Qltb r 0.6
          then ret (playlistName ++ " - " ++ Str.toUpperCase (default EmptyString (countryHint g)))
          else ret playlistName
        else ret playlistName) ;;
     r <- Math_random ;;
     let isPublic := Qltb r USE_PUBLIC_PLAYLIST_PROB in
     userId <- match user g with
               | Some id => ret id
               | None => throw "TypeError: gameState.user is null"
               end ;;
     playlist <- spotifyApi (POST_playlists userId playlistName isPublic) create ;;
     assign (set_playlist (Some playlist)) ;;
     trackUris <- read trackOrder ;;
     spotifyApi (POST_playlist_tracks (fst playlist) trackUris) addTracks ;;
     g <- gets gs ;;
     sendTelemetry
       (playlist_created userId (fst playlist) (countryHint g) trackUris playlistName isPublic)
       None ;;
     ret playlist)
    (fun error => throw error).

Definition transferPlayback (devices : ApiOutcome (list string))
    (transfer : ApiOutcome unit) : M unit :=
  try_catch
    (devices <- spotifyApi GET_devices devices ;;
     g <- gets gs ;;
     let ourDevice :=
       match deviceId g with
       | Some id => bool_decide (id ∈ devices)
       | None => false
       end in
     if negb ourDevice
     then throw "Player device not found. Click 'Start Session' again."
     else spotifyApi (PUT_player (deviceId g)) transfer)
    (fun _ => throw "Failed to connect to player. Make sure Spotify is open.").

Definition startSession (now : Z) (ans : Answers) : M unit :=
  try_catch
    (updateButton "Starting..." false ;;
     showMessage "Creating playlist and starting playback..." "info" ;;
     createPlaylist (createResp ans) (addTracksResp ans) ;;
     transferPlayback (devicesResp ans) (transferResp ans) ;;
     assign (set_currentTrack 1) ;;
     assign (set_startedAt (Some now)) ;;
     playCurrentTrack (playResp ans) ;;
     id <- setInterval IUpdateTimer ;;
     assign (set_sessionTimer (Some id)) ;;
     id <- setInterval IMaybeUnlockCompletion ;;
     assign (set_unlockTimer (Some id)) ;;
     render (set_trackProgressDisplay "block") ;;
     updateButton "Playing..." false ;;
     showMessage "Session started! Enjoy the music" "success")
    (fun message =>
       showMessage ("Failed to start: " ++ message) "error" ;;
       updateButton "Start Session" true).

(** The [try] block of [initializeGame] once the page has passed the
    bootstrap checks: [setupDeviceId] is the stored device id, [me] the
    answer to the profile request and [ready] the device id the playback
    SDK reports.  When this block completes the listeners of the player
    are in place. *)
Definition initializeGameBody (setupDeviceId country : option string)
    (me : ApiOutcome string) (ready : ApiOutcome string) : M unit :=
  (if truthyStr setupDeviceId
   then assign (set_deviceId setupDeviceId)
   else throw "Setup complete but no device ID found.") ;;
  assign (set_countryHint country) ;;
  profile <- spotifyApi GET_me me ;;
  assign (set_user (Some profile)) ;;
  generateSessionParameters ;;
  device_id <- match ready with
               | Resolved id => ret id
               | Rejected message => throw message
               end ;;
  assign (set_deviceId (Some device_id)) ;;
  showMessage "Device ready! Click 'Start Session' to begin." "success" ;;
  updateButton "Start Session" true.

Definition initializeGame (setupDeviceId country : option string)
    (me : ApiOutcome string) (ready : ApiOutcome string) : M unit :=
  try_catch (initializeGameBody setupDeviceId country me ready)
    (fun message => showMessage ("Failed to initialize: " ++ message) "error").

(** ** The event loop *)

Inductive Event :=
| PlayerStateChanged (state : option PlayerState)   (* player_state_changed *)
| IntervalFired (id : positive)                     (* a setInterval timer ticks *)
| TaskRun (i : nat)                                 (* the i-th waiting callback runs *)
| MainButtonClick
| FinishButtonClick.

Definition runTask (ans : Answers) (t : Task) : M unit :=
  match t with
  | TPlayNextTrack => async playNextTrack
  | TPlayCurrentTrack => async (playCurrentTrack (playResp ans))
  | TNoise => async (noiseInteraction (volume ans))
  | TResume => player resume
  | TRestoreVolume originalVol => player (setVolume originalVol)
  | TCompletionTelemetry elapsed userId => async (completionTelemetry elapsed userId)
  end.

Definition handle (now : Z) (ans : Answers) (ev : Event) : M unit :=
  match ev with
  | PlayerStateChanged state => handlePlayerStateChanged now state
  | IntervalFired id =>
      timers <- gets intervals ;;
      match timers !! id with
      | Some IUpdateTimer => updateTimer now
      | Some IMaybeUnlockCompletion => maybeUnlockCompletion now
      | None => ret tt
      end
  | TaskRun i =>
      waiting <- gets pending ;;
      match waiting !! i with
      | Some (_, t) =>
          modify (fun w => set_pending (delete i (pending w)) w) ;;
          runTask ans t
      | None => ret tt
      end
  | MainButtonClick =>
      u <- gets ui ;;
      when (mainButtonEnabled u && String.eqb (mainButtonText u) "Start Session")
        (async (startSession now ans))
  | FinishButtonClick =>
      u <- gets ui ;;
      when (finishButtonOnclick u) (async (unlockCompletion now))
  end.

(** One turn of the event loop: the clock reading, the answers of the
    outside, the event. *)
Definition Turn : Type := Z * Answers * Event.

Definition step (t : Turn) (w : World) : World :=
  let '(now, ans, ev) := t in snd (handle now ans ev w).

Fixpoint run (turns : list Turn) (w : World) : World :=
  match turns with
  | [] => w
  | t :: rest => run rest (step t w)
  end.

(** ** Reference points for the statements *)

(** A page as the session code expects it at load: nothing shown yet, the
    finish button hidden and without a handler, progress bars for the
    three tracks. *)
Definition blankPage : UI :=
  {| statusMessages := []; mainButtonText := "Loading..."; mainButtonEnabled := false;
     mainButtonDisplay := "block"; finishButtonDisplay := "none";
     finishButtonOnclick := false; saveButtonDisplay := "none";
     completionCodeText := EmptyString; completionAreaDisplay := "none";
     trackTitle := EmptyString; trackArtist := EmptyString; progressElements := [1; 2; 3];
     progressShown := []; trackProgressDisplay := "none";
     sessionTimerText := "00:00" |}.

(** The order the code builds before it normalises it, for the filler
    [filler] and the order draw [rand]. *)
Definition chosenOrder (filler : string) (rand : Q) : list string :=
  if Qltb ORDER_VARIANCE.defaultProb rand then
    if Qltb rand (ORDER_VARIANCE.defaultProb + ORDER_VARIANCE.swap12)
    then [YOUR_TRACK; ANCHOR_TRACK; filler]
    else [ANCHOR_TRACK; filler; YOUR_TRACK]
  else [ANCHOR_TRACK; YOUR_TRACK; filler].

(** The order as the specification words it: a draw in
    [[defaultProb, defaultProb + swap12)] swaps positions 0 and 1, a draw
    in the remaining tail swaps positions 1 and 2, any other draw keeps
    the base order. *)
Definition specifiedOrder (filler : string) (rand : Q) : list string :=
  if Qleb ORDER_VARIANCE.defaultProb rand
     && Qltb rand (ORDER_VARIANCE.defaultProb + ORDER_VARIANCE.swap12)
  then [YOUR_TRACK; ANCHOR_TRACK; filler]
  else if Qleb (ORDER_VARIANCE.defaultProb + ORDER_VARIANCE.swap12) rand && Qltb rand 1
  then [ANCHOR_TRACK; filler; YOUR_TRACK]
  else [ANCHOR_TRACK; YOUR_TRACK; filler].

(** A tape of draws given by its first cells, [0] afterwards. *)
Definition tapeOf (cells : list Q) : nat -> Q := fun n => nth n cells 0%Q.

(** The session is finished: [completionCode] holds a code. *)
Definition completed (w : World) : bool := truthyStr (completionCode (gs w)).

(** The filler [randomChoice(FILLER_POOL)] returns for the draw [r]. *)
Definition pickedFiller (r : Q) : option string :=
  index FILLER_POOL (Math_floor (r * inject_Z (Z.of_nat (length FILLER_POOL)))).

(** Counting what the completion transition leaves behind: the
    [session_completed] payloads handed to [sendTelemetry], and the
    continuations of [unlockCompletion] that still wait to send one. *)
Definition isCompletedEvent (d : TelemetryData) : bool :=
  match d with
  | session_completed _ _ _ _ _ _ _ _ _ => true
  | _ => false
  end.

Definition isCompletionTask (t : Q * Task) : bool :=
  match snd t with
  | TCompletionTelemetry _ _ => true
  | _ => false
  end.

Definition isAdvanceTask (t : Q * Task) : bool :=
  match snd t with
  | TPlayNextTrack => true
  | _ => false
  end.

Definition isPlayCall (c : ApiCall) : bool :=
  match c with
  | PUT_play _ _ => true
  | _ => false
  end.

Definition completedEvents (w : World) : nat :=
  length (List.filter isCompletedEvent (telemetry w)).
Definition completionsInFlight (w : World) : nat :=
  length (List.filter isCompletionTask (pending w)).
Definition scheduledAdvances (w : World) : nat :=
  length (List.filter isAdvanceTask (pending w)).
Definition playCommands (w : World) : nat :=
  length (List.filter isPlayCall (apiCalls w)).

(** A tick asks for an advance: a track is current, the duration is
    positive, the position is within the last second and the player is
    not paused. *)
Definition nearEnd (g : GameState) (st : PlayerState) : bool :=
  (0 <? currentTrack g) && (0 <? duration st)
  && (duration st - 1000 <=? position st) && negb (paused st).

(** A tick reaches the completion ratio of the current track. *)
Definition reachesRatio (g : GameState) (st : PlayerState) : bool :=
  (0 <? currentTrack g) && (0 <? duration st)
  && Qleb (minTrackRatio g) (inject_Z (position st) / inject_Z (duration st)).

(** The worlds in which the listeners of the player are in place: the
    [try] block of [initializeGame] has completed on a freshly loaded
    page whose finish button has no handler yet. *)
Definition Ready (w : World) : Prop :=
  exists page tape setupDeviceId country me ready,
    finishButtonOnclick page = false /\
    initializeGameBody setupDeviceId country me ready (world0 page tape) = (Ok tt, w).

(** Track [k] reaches the completion ratio at some tick of the run. *)
Fixpoint everReached (k : Z) (turns : list Turn) (w : World) : Prop :=
  match turns with
  | [] => False
  | t :: rest =>
      (match t with
       | (_, _, PlayerStateChanged (Some st)) =>
           currentTrack (gs w) = k /\ reachesRatio (gs w) st = true
       | _ => False
       end) \/ everReached k rest (step t w)
  end.

(** The part of the world the completion logic depends on. *)
Record View := mkView {
  vCode : option string;
  vOrder : list string;
  vTrack : Z;
  vDone : gset Z;
  vUser : option string;
  vSessionTimer : option positive;
  vUnlockTimer : option positive;
  vOnclick : bool;
  vButton : string;
  vIntervals : gmap positive Interval;
  vEmitted : nat;
  vInFlight : nat
}.

Definition view (w : World) : View :=
  {| vCode := completionCode (gs w); vOrder := trackOrder (gs w);
     vTrack := currentTrack (gs w); vDone := tracksCompleted (gs w);
     vUser := user (gs w); vSessionTimer := sessionTimer (gs w);
     vUnlockTimer := unlockTimer (gs w); vOnclick := finishButtonOnclick (ui w);
     vButton := mainButtonText (ui w); vIntervals := intervals w;
     vEmitted := completedEvents w; vInFlight := completionsInFlight w |}.

(** All three tracks have reached the ratio. *)
Definition allThree (done : gset Z) : Prop := forall k, 1 <= k <= 3 -> k ∈ done.

(** The invariant of the session. *)
Record InvV (v : View) : Prop := mkInv {
  inv_code : vCode v = None \/ truthyStr (vCode v) = true;
  inv_order : length (vOrder v) = 3%nat;
  inv_track : 0 <= vTrack v <= 3;
  inv_done : forall k, k ∈ vDone v -> 1 <= k <= vTrack v;
  inv_user : vUser v <> None;
  inv_onclick : vOnclick v = true -> allThree (vDone v);
  inv_completed : truthyStr (vCode v) = true -> allThree (vDone v);
  inv_once : (vEmitted v + vInFlight v)%nat = if truthyStr (vCode v) then 1%nat else 0%nat;
  inv_button : vButton v = "Start Session" -> vTrack v = 0;
  inv_timers : forall id, is_Some (vIntervals v !! id) ->
               (vSessionTimer v = Some id \/ vUnlockTimer v = Some id)
               /\ truthyStr (vCode v) = false /\ vTrack v <> 0
}.

Definition Inv (w : World) : Prop := InvV (view w).

(** Computations that leave an observation of the world alone. *)
Definition keeps {T A} (obs : World -> T) (m : M A) : Prop :=
  forall w, obs (snd (m w)) = obs w.

(** What [startSession] must not touch before playback starts: the game
    state apart from the playlist reference, and the timers. *)
Definition sessionCore (w : World) : GameState * gmap positive Interval * positive :=
  (set_playlist None (gs w), intervals w, nextTimer w).

(** [if (timer) clearInterval(timer)] on the table of live timers. *)
Definition clearTimer (t : option positive) (m : gmap positive Interval) :
    gmap positive Interval :=
  match t with Some id => delete id m | None => m end.

(** The completed tracks and the progress writes after a tick. *)
Definition doneAfter (g : GameState) (st : PlayerState) : gset Z :=
  if reachesRatio g st then {[currentTrack g]} ∪ tracksCompleted g else tracksCompleted g.

Definition shownAfter (w : World) (st : PlayerState) : list (Z * Z) :=
  let k := currentTrack (gs w) in
  if (0 <? k) && (k <=? 3) && bool_decide (k ∈ progressElements (ui w))
  then (k, Math_round ((if 0 <? duration st
                        then inject_Z (position st) / inject_Z (duration st)
                        else 0) * 100)) :: progressShown (ui w)
  else progressShown (ui w).

(** The error that aborts [startSession] before playback starts, if any:
    the user profile is missing, the playlist cannot be created, the
    tracks cannot be added, or the playback cannot be transferred to the
    device of the page. *)
Definition transferOk (ans : Answers) (g : GameState) : bool :=
  match devicesResp ans, deviceId g, transferResp ans with
  | Resolved devices, Some id, Resolved _ => bool_decide (id ∈ devices)
  | _, _, _ => false
  end.

Definition setupFailure (ans : Answers) (g : GameState) : option string :=
  match user g with
  | None => Some "TypeError: gameState.user is null"
  | Some _ =>
      match createResp ans with
      | Rejected message => Some message
      | Resolved _ =>
          match addTracksResp ans with
          | Rejected message => Some message
          | Resolved _ =>
              if transferOk ans g then None
              else Some "Failed to connect to player. Make sure Spotify is open."
          end
      end
  end.

(** The playlist reference after the playlist request. *)
Definition playlistAfter (ans : Answers) (g : GameState) : option (string * string) :=
  match user g, createResp ans with
  | Some _, Resolved created => Some created
  | _, _ => playlist g
  end.

(** The [catch] block of [startSession]. *)
Definition startFailed (message : string) : M unit :=
  showMessage ("Failed to start: " ++ message) "error" ;;
  updateButton "Start Session" true.

(** The requests of [createPlaylist] once the title is chosen. *)
Definition createRequests (playlistName : string) (isPublic : bool)
    (create : ApiOutcome (string * string)) (addTracks : ApiOutcome unit)
    : M (string * string) :=
  g <- gets gs ;;
  userId <- match user g with
            | Some id => ret id
            | None => throw "TypeError: gameState.user is null"
            end ;;
  playlist <- spotifyApi (POST_playlists userId playlistName isPublic) create ;;
  assign (set_playlist (Some playlist)) ;;
  trackUris <- read trackOrder ;;
  spotifyApi (POST_playlist_tracks (fst playlist) trackUris) addTracks ;;
  g <- gets gs ;;
  sendTelemetry
    (playlist_created userId (fst playlist) (countryHint g) trackUris playlistName isPublic)
    None ;;
  ret playlist.

(** ** Sample runs *)

Definition sampleAnswers : Answers :=
  {| createResp := Resolved ("pl1", "https://open.spotify.com/playlist/pl1");
     addTracksResp := Resolved tt; devicesResp := Resolved ["dev1"];
     transferResp := Resolved tt; playResp := Resolved tt; volume := 0.8 |}.

(** The page is loaded, the profile of user [u1] fetched, the parameters
    drawn (all draws one half) and the device [dev1] ready. *)
Definition sampleReady : World :=
  snd (initializeGameBody (Some "dev1") None (Resolved "u1") (Resolved "dev1")
         (world0 blankPage (fun _ => 1 # 2))).

Definition tick (pos dur : Z) : Event :=
  PlayerStateChanged
    (Some {| position := pos; duration := dur; paused := false; current_track := None |}).

(** The session is started when the clock reads 1000. *)
Definition sampleStarted : World := step (1000, sampleAnswers, MainButtonClick) sampleReady.

(** What the completion check leaves alone: the completed tracks, the
    current track, the advances waiting, the progress writes and the
    requests made. *)
Definition tickFrame (w : World) : gset Z * Z * nat * list (Z * Z) * list ApiCall :=
  (tracksCompleted (gs w), currentTrack (gs w), scheduledAdvances w,
   progressShown (ui w), apiCalls w).

(** A run that brings the sample session to its last track: each of the
    first two tracks plays to its last second, the advance runs, and the
    next track is started. *)
Definition sampleLastTrack : World :=
  run [ (200000, sampleAnswers, tick 199500 200000);
        (200100, sampleAnswers, TaskRun 0);
        (205000, sampleAnswers, TaskRun 0);
        (400000, sampleAnswers, tick 189500 190000);
        (400100, sampleAnswers, TaskRun 0);
        (405000, sampleAnswers, TaskRun 0) ] sampleStarted.

(** The part of the view that [startSession] leaves alone. *)
Definition sideView (w : World) : bool * nat * nat :=
  (vOnclick (view w), vEmitted (view w), vInFlight (view w)).

(** The sample session with all three tracks completed, ten minutes in. *)
Definition sampleAllDone : World :=
  step (600000, sampleAnswers, tick 180000 200000) sampleLastTrack.

(** ** Further reference points *)

(** Every character of [s] occurs in [alphabet]. *)
Fixpoint allIn (alphabet s : string) : bool :=
  match s with
  | EmptyString => true
  | String c s' => Str.contains c alphabet && allIn alphabet s'
  end.

(** The commands a noise interaction starts with. *)
Definition isNoiseCmd (c : PlayerCmd) : bool :=
  match c with
  | pause | getVolume => true
  | _ => false
  end.

Definition noiseCmds (w : World) : nat :=
  length (List.filter isNoiseCmd (playerCmds w)).

(** What the noise guard protects. *)
Definition noiseView (w : World) : bool * nat := (noiseApplied (gs w), noiseCmds w).

(** The session has been started. *)
Definition startView (w : World) : option Z * Z := (startedAt (gs w), currentTrack (gs w)).

(** A number below one hundred written with two decimal digits. *)
Definition digitChar (d : Z) : ascii := ascii_of_nat (48 + Z.to_nat d).

Definition twoDigits (n : Z) : string :=
  String (digitChar (n / 10)) (String (digitChar (n mod 10)) EmptyString).

(** The noise guard: noise interactions counted against [noiseApplied]. *)
Definition noiseGuard (w : World) : Prop :=
  (noiseCmds w <= if noiseApplied (gs w) then 1 else 0)%nat.

(** The session is started exactly when a track is current. *)
Definition startedWhenCurrent (w : World) : Prop :=
  currentTrack (gs w) = 0 <-> startedAt (gs w) = None.

(** The parameters drawn for the session. *)
Definition configView (w : World) : Q * Q * Q * list string * bool :=
  (sessionDuration (gs w), minTrackRatio (gs w), earlyFinishThreshold (gs w),
   trackOrder (gs w), showSaveButton (gs w)).

(* ================================================================== *)
(** * Properties *)

(** ** Track identifiers *)

Lemma startsWith_prefixed (s : string) :
  Str.startsWith (TRACK_PREFIX ++ s) TRACK_PREFIX = true.
Proof. destruct s; reflexivity. Qed.

Lemma split_no_separator (sep : ascii) (s : string) :
  Str.contains sep s = false -> Str.split sep s = [s].
Proof.
  induction s as [|c s IH]; simpl; [reflexivity|].
  rewrite Ascii.eqb_sym.
  destruct (Ascii.eqb sep c) eqn:E; simpl; [discriminate|].
  intros H. rewrite (IH H). reflexivity.
Qed.

Lemma split_field (sep : ascii) (a b : string) :
  Str.contains sep a = false ->
  Str.split sep (a ++ String sep b) = a :: Str.split sep b.
Proof.
  induction a as [|c a IH]; simpl.
  - now rewrite Ascii.eqb_refl.
  - rewrite Ascii.eqb_sym.
    destruct (Ascii.eqb sep c) eqn:E; simpl; [discriminate|].
    intros H. now rewrite (IH H).
Qed.

Lemma normalizeTrackUri_prefixed (s : string) :
  Str.startsWith (normalizeTrackUri s) TRACK_PREFIX = true.
Proof.
  unfold normalizeTrackUri.
  destruct (Str.startsWith s TRACK_PREFIX) eqn:E; [exact E|apply startsWith_prefixed].
Qed.

(** C10. [normalizeTrackUri] is idempotent, and for a bare id [t] (no
    [spotify:track:] prefix, no colon) [extractTrackId] recovers [t]
    from [normalizeTrackUri t]. *)
Theorem normalizeTrackUri_idempotent_roundtrip (s t : string) :
  normalizeTrackUri (normalizeTrackUri s) = normalizeTrackUri s /\
  (Str.startsWith t TRACK_PREFIX = false ->
   Str.contains ":" t = false ->
   extractTrackId (normalizeTrackUri t) = Some t).
Proof.
  split.
  - unfold normalizeTrackUri at 1.
    now rewrite normalizeTrackUri_prefixed.
  - intros Hp Hc. unfold extractTrackId.
    rewrite normalizeTrackUri_prefixed.
    unfold normalizeTrackUri. rewrite Hp.
    change (TRACK_PREFIX ++ t) with ("spotify" ++ String ":" ("track" ++ String ":" t)).
    rewrite !split_field by reflexivity.
    now rewrite (split_no_separator _ _ Hc).
Qed.

Lemma normalizeTrackUri_roundtrip_witness :
  extractTrackId (normalizeTrackUri "5FMyXeZ0reYloRTiCkPprT") = Some "5FMyXeZ0reYloRTiCkPprT".
Proof.
  apply (normalizeTrackUri_idempotent_roundtrip "a" "5FMyXeZ0reYloRTiCkPprT"); reflexivity.
Defined.

(** ** Session parameters *)

Lemma floor_range (r : Q) (n : Z) : (0 <= r < 1)%Q -> 0 < n -> 0 <= Qfloor (r * inject_Z n) < n.
Proof.
  intros [H0 H1] Hn.
  assert (Hn' : (0 < inject_Z n)%Q) by (change 0%Q with (inject_Z 0); rewrite <- Zlt_Qlt; lia).
  split.
  - assert (Hq : (inject_Z 0 <= r * inject_Z n)%Q) by (change (inject_Z 0) with 0%Q; nra).
    apply Qfloor_resp_le in Hq. now rewrite Qfloor_Z in Hq.
  - assert (Hlt : (r * inject_Z n < inject_Z n)%Q) by nra.
    pose proof (Qfloor_le (r * inject_Z n)) as Hf.
    rewrite Zlt_Qlt. eapply Qle_lt_trans; eauto.
Qed.

Lemma index_in_range {A} (a : list A) (i : Z) :
  0 <= i < Z.of_nat (length a) -> exists x, index a i = Some x /\ x ∈ a.
Proof.
  intros [H0 H1]. unfold index.
  destruct (Z.ltb_spec i 0) as [?|_]; [lia|].
  destruct (lookup_lt_is_Some_2 a (Z.to_nat i)) as [x Hx]; [lia|].
  exists x. split; [exact Hx|]. eapply list_elem_of_lookup_2; eauto.
Qed.

Lemma pickedFiller_defined (r : Q) :
  (0 <= r < 1)%Q -> exists filler, pickedFiller r = Some filler /\ filler ∈ FILLER_POOL.
Proof.
  intros Hr. apply index_in_range. apply floor_range; [exact Hr|]. reflexivity.
Qed.

Lemma generateTrackOrder_eq (w : World) (filler : string) :
  pickedFiller (rng w (rngPos w)) = Some filler ->
  generateTrackOrder w =
    (Ok tt, set_gs (set_trackOrder (map normalizeTrackUri (chosenOrder filler (rng w (S (rngPos w))))) (gs w))
              (set_rngPos (S (S (rngPos w))) w)).
Proof.
  intros Hf. unfold pickedFiller in Hf.
  unfold generateTrackOrder, randomChoice, bind, Math_random, ret, assign, modify.
  cbn [rng rngPos set_rngPos gs]. rewrite Hf. cbn [mapNormalize swap bind ret]. unfold chosenOrder.
  destruct (Qltb ORDER_VARIANCE.defaultProb _); [destruct (Qltb _ _)|]; reflexivity.
Qed.

Lemma chosenOrder_length filler rand : length (chosenOrder filler rand) = 3%nat.
Proof. unfold chosenOrder. destruct (Qltb _ _); [destruct (Qltb _ _)|]; reflexivity. Qed.

Lemma generateTrackOrder_ok (w : World) :
  (0 <= rng w (rngPos w) < 1)%Q ->
  exists order,
    generateTrackOrder w =
      (Ok tt, set_gs (set_trackOrder order (gs w)) (set_rngPos (S (S (rngPos w))) w)) /\
    length order = 3%nat.
Proof.
  intros Hr. destruct (pickedFiller_defined _ Hr) as (filler & Hf & _).
  eexists. split; [apply (generateTrackOrder_eq w filler Hf)|].
  now rewrite length_map, chosenOrder_length.
Qed.

Ltac run_monad :=
  cbv [bind ret assign read gets modify randomBetween Math_random when];
  cbn [gs ui rng rngPos set_rngPos set_gs sessionDuration earlyFinishThreshold minTrackRatio
       trackOrder set_sessionDuration set_earlyFinishThreshold set_minTrackRatio
       set_showSaveButton set_trackOrder fst snd].

(** C7. Whatever the draws in [0,1), the generated parameters satisfy
    0 < earlyFinishThreshold <= sessionDuration and 0 < minTrackRatio <= 1,
    and the track order has exactly three entries. *)
Theorem generateSessionParameters_bounds (w : World) :
  (forall n, 0 <= rng w n < 1)%Q ->
  let w' := snd (generateSessionParameters w) in
  fst (generateSessionParameters w) = Ok tt /\
  (0 < earlyFinishThreshold (gs w') <= sessionDuration (gs w'))%Q /\
  (0 < minTrackRatio (gs w') <= 1)%Q /\
  length (trackOrder (gs w')) = 3%nat.
Proof.
  intros Hr. cbv zeta.
  pose proof (Hr (rngPos w)) as H0.
  pose proof (Hr (S (rngPos w))) as H1.
  pose proof (Hr (S (S (S (rngPos w))))) as H3.
  unfold generateSessionParameters. run_monad.
  destruct (Qltb _ _); [|destruct (Qltb _ _)]; run_monad.
  all: match goal with |- context [generateTrackOrder ?W] =>
         destruct (generateTrackOrder_ok W) as (order & -> & Hlen); [apply Hr|] end.
  all: run_monad.
  all: unfold REQUIRED_MS_VARIANT.baseMin, REQUIRED_MS_VARIANT.baseMax,
         EARLY_FINISH_WINDOW.min, EARLY_FINISH_WINDOW.max.
  all: change (inject_Z (14 * 60 * 1000)) with (840000 # 1);
       change (inject_Z (11 * 60 * 1000)) with (660000 # 1).
  all: set (d := (rng w (rngPos w) * ((840000 # 1) - (660000 # 1)) + (660000 # 1))%Q).
  all: set (f := (rng w (S (rngPos w)) * (0.90 - 0.80) + 0.80)%Q).
  all: assert (Hd : (660000 # 1 <= d)%Q) by (unfold d; lra).
  all: assert (Hf : (0.80 <= f < 0.90)%Q) by (unfold f; lra).
  all: repeat split; try exact Hlen; try nra; try lra.
Qed.


Lemma generateSessionParameters_bounds_witness :
  let w' := snd (generateSessionParameters (world0 blankPage (fun _ => 1 # 2))) in
  fst (generateSessionParameters (world0 blankPage (fun _ => 1 # 2))) = Ok tt /\
  (0 < earlyFinishThreshold (gs w') <= sessionDuration (gs w'))%Q /\
  (0 < minTrackRatio (gs w') <= 1)%Q /\
  length (trackOrder (gs w')) = 3%nat.
Proof.
  apply (generateSessionParameters_bounds (world0 blankPage (fun _ => 1 # 2))).
  intros n. split; [discriminate | reflexivity].
Defined.

Lemma normalizeTrackUri_uri (s : string) :
  Str.startsWith s TRACK_PREFIX = true -> normalizeTrackUri s = s.
Proof. intros H. unfold normalizeTrackUri. now rewrite H. Qed.

Lemma Qltb_true (x y : Q) : Qltb x y = true <-> (x < y)%Q.
Proof.
  unfold Qltb. rewrite negb_true_iff, <- not_true_iff_false, Qle_bool_iff.
  split; [apply Qnot_le_lt | apply Qlt_not_le].
Qed.

Lemma Qltb_false (x y : Q) : Qltb x y = false <-> (y <= x)%Q.
Proof. unfold Qltb. now rewrite negb_false_iff, Qle_bool_iff. Qed.

Lemma Qleb_true (x y : Q) : Qleb x y = true <-> (x <= y)%Q.
Proof. apply Qle_bool_iff. Qed.

Lemma Qleb_false (x y : Q) : Qleb x y = false <-> (y < x)%Q.
Proof.
  unfold Qleb. rewrite <- not_true_iff_false, Qle_bool_iff.
  split; [apply Qnot_le_lt | apply Qlt_not_le].
Qed.

(** C8 (amended). [generateTrackOrder] draws the filler and then one
    number [rand]: for [rand <= defaultProb] it keeps the base order, for
    [defaultProb < rand < defaultProb + swap12] it swaps positions 0 and
    1, and for [rand >= defaultProb + swap12] it swaps positions 1 and 2. *)
Theorem generateTrackOrder_intervals (w : World) (filler : string) :
  pickedFiller (rng w (rngPos w)) = Some filler ->
  let rand := rng w (S (rngPos w)) in
  let w' := snd (generateTrackOrder w) in
  fst (generateTrackOrder w) = Ok tt /\
  rngPos w' = S (S (rngPos w)) /\
  ((rand <= ORDER_VARIANCE.defaultProb)%Q ->
   trackOrder (gs w') = map normalizeTrackUri [ANCHOR_TRACK; YOUR_TRACK; filler]) /\
  ((ORDER_VARIANCE.defaultProb < rand)%Q ->
   (rand < ORDER_VARIANCE.defaultProb + ORDER_VARIANCE.swap12)%Q ->
   trackOrder (gs w') = map normalizeTrackUri [YOUR_TRACK; ANCHOR_TRACK; filler]) /\
  ((ORDER_VARIANCE.defaultProb + ORDER_VARIANCE.swap12 <= rand)%Q ->
   trackOrder (gs w') = map normalizeTrackUri [ANCHOR_TRACK; filler; YOUR_TRACK]).
Proof.
  intros Hf rand w'. subst w'. rewrite (generateTrackOrder_eq w filler Hf).
  cbn [fst snd gs set_gs trackOrder set_trackOrder rngPos set_rngPos]. fold rand.
  unfold chosenOrder.
  split; [reflexivity|]. split; [reflexivity|].
  destruct (Qltb ORDER_VARIANCE.defaultProb rand) eqn:E1;
    [destruct (Qltb rand _) eqn:E2|].
  all: rewrite ?Qltb_true, ?Qltb_false in *.
  all: unfold ORDER_VARIANCE.defaultProb, ORDER_VARIANCE.swap12 in *.
  all: repeat split; intros; try reflexivity; lra.
Qed.

Lemma generateTrackOrder_intervals_witness :
  trackOrder (gs (snd (generateTrackOrder (world0 blankPage (tapeOf [0.5; 0.8]%Q)))))
  = map normalizeTrackUri [YOUR_TRACK; ANCHOR_TRACK; "spotify:track:7qiZfU4dY1lWllzX7mPBI3"].
Proof.
  apply (generateTrackOrder_intervals (world0 blankPage (tapeOf [0.5; 0.8]%Q))
           "spotify:track:7qiZfU4dY1lWllzX7mPBI3").
  - reflexivity.
  - reflexivity.
  - reflexivity.
Defined.

(** C8, as stated, fails at [rand = defaultProb]: the specification swaps
    positions 0 and 1 there, the code keeps the base order. *)
Lemma generateTrackOrder_at_defaultProb :
  let w := world0 blankPage (tapeOf [0; ORDER_VARIANCE.defaultProb]%Q) in
  let filler := "spotify:track:2FDTHlrBguDzQkp7PVj16Q" in
  pickedFiller (rng w 0) = Some filler /\
  rng w 1 = ORDER_VARIANCE.defaultProb /\
  trackOrder (gs (snd (generateTrackOrder w))) = [ANCHOR_TRACK; YOUR_TRACK; filler] /\
  specifiedOrder filler (rng w 1) = [YOUR_TRACK; ANCHOR_TRACK; filler] /\
  trackOrder (gs (snd (generateTrackOrder w)))
    <> map normalizeTrackUri (specifiedOrder filler (rng w 1)).
Proof. repeat split; try reflexivity. vm_compute. discriminate. Qed.

(** ** Running computations *)

Lemma run_bind {A B} (m : M A) (k : A -> M B) (w : World) :
  bind m k w = match m w with
               | (Ok a, w') => k a w'
               | (Throw e, w') => (Throw e, w')
               end.
Proof. reflexivity. Qed.

Lemma async_ok (m : M unit) (w w' : World) :
  m w = (Ok tt, w') -> async m w = (Ok tt, w').
Proof. intros H. unfold async, try_catch. now rewrite H. Qed.

Lemma async_never_throws (m : M unit) (w : World) : fst (async m w) = Ok tt.
Proof.
  unfold async, try_catch. destruct (m w) as [[[]|e] w']; reflexivity.
Qed.

(** ** Counting *)

Lemma filter_snoc {A} (p : A -> bool) (l : list A) (x : A) :
  length (List.filter p (l ++ [x])%list) = (length (List.filter p l) + if p x then 1 else 0)%nat.
Proof.
  rewrite List.filter_app, length_app. simpl. destruct (p x); reflexivity.
Qed.

(** ** The completion transition *)

Lemma append_empty (s : string) : (s ++ EmptyString)%string = s.
Proof.
  induction s as [|c s IH]; [reflexivity|].
  change (String c (s ++ EmptyString)%string = String c s). now rewrite IH.
Qed.

Lemma append_assoc (a b c : string) : ((a ++ b) ++ c)%string = (a ++ (b ++ c))%string.
Proof.
  induction a as [|x a IH]; [reflexivity|].
  change (String x ((a ++ b) ++ c)%string = String x (a ++ (b ++ c))%string). now rewrite IH.
Qed.

Lemma codeLoop_eq (n : nat) : forall (code : string) (w : World),
  exists tail, codeLoop n code w = (Ok (code ++ tail)%string, set_rngPos (n + rngPos w) w).
Proof.
  induction n as [|n IH]; intros code w.
  - exists EmptyString. rewrite append_empty. destruct w. reflexivity.
  - cbn [codeLoop]. unfold bind, Math_random.
    match goal with |- context [codeLoop n ?c ?W] => destruct (IH c W) as [tail ->] end.
    rewrite append_assoc. eexists.
    replace (n + rngPos (set_rngPos (S (rngPos w)) w))%nat with (S n + rngPos w)%nat
      by (cbn; lia).
    destruct w. reflexivity.
Qed.

Lemma generateCompletionCode_eq (w : World) :
  exists code,
    Str.truthy code = true /\ Str.startsWith code "PM-" = true /\
    generateCompletionCode w = (Ok code, set_rngPos (6 + rngPos w) w).
Proof.
  destruct (codeLoop_eq 6 "PM-" w) as [tail H].
  exists ("PM-" ++ tail)%string. repeat split; [| exact H].
  destruct tail; reflexivity.
Qed.

Lemma unlockCompletion_fresh (now : Z) (w : World) (userId : string) :
  completed w = false -> user (gs w) = Some userId ->
  exists code,
    Str.truthy code = true /\ Str.startsWith code "PM-" = true /\
    unlockCompletion now w =
      (Ok tt,
       {| gs := set_completionCode (Some code) (gs w);
          ui := set_finishButtonDisplay "none"
                  (set_mainButtonDisplay "none"
                     (set_completionAreaDisplay "block"
                        (set_completionCodeText code (ui w))));
          rng := rng w; rngPos := 6 + rngPos w;
          intervals := clearTimer (unlockTimer (gs w))
                         (clearTimer (sessionTimer (gs w)) (intervals w));
          nextTimer := nextTimer w;
          pending := (pending w ++
                      [(0%Q, TCompletionTelemetry (now - default 0 (startedAt (gs w))) userId)])%list;
          telemetry := telemetry w; posted := posted w; apiCalls := apiCalls w;
          playerCmds := playerCmds w; rejections := rejections w |}).
Proof.
  intros Hc Hu. unfold completed in Hc.
  destruct (generateCompletionCode_eq w) as (code & Ht & Hp & Hg).
  exists code. split; [exact Ht|]. split; [exact Hp|].
  unfold unlockCompletion, bind, gets. rewrite Hc, Hg.
  unfold assign, modify, clearInterval, render, suspend, clearTimer. cbn.
  destruct (sessionTimer (gs w)), (unlockTimer (gs w)); cbn; rewrite Hu; reflexivity.
Qed.

(** ** Ticks *)

Lemma union_known (k : Z) (s : gset Z) : k ∈ s -> {[k]} ∪ s = s.
Proof.
  intros Hk. apply set_eq. intros x. rewrite elem_of_union, elem_of_singleton.
  split; [intros [->|H]; assumption|now right].
Qed.

Ltac red_tick :=
  cbn -[maybeUnlockCompletion Qdiv Qmult inject_Z Math_round Qleb Z.ltb Z.leb Z.sub].

Lemma tick_decompose (now : Z) (st : PlayerState) (w : World) :
  exists w1,
    handlePlayerStateChanged now (Some st) w = maybeUnlockCompletion now w1 /\
    view w1 = view (set_gs (set_tracksCompleted (doneAfter (gs w) st) (gs w)) w) /\
    tracksCompleted (gs w1) = doneAfter (gs w) st /\
    pending w1 = (pending w ++ if nearEnd (gs w) st then [(100%Q, TPlayNextTrack)] else [])%list /\
    progressShown (ui w1) = shownAfter w st /\
    apiCalls w1 = apiCalls w /\ telemetry w1 = telemetry w.
Proof.
  unfold handlePlayerStateChanged, updateTrackProgress, doneAfter, shownAfter,
    reachesRatio, nearEnd.
  unfold bind, assign, read, gets, modify, render, when, ret, setTimeout.
  red_tick.
  destruct (current_track st) as [[name artist]|]; red_tick.
  all: destruct (0 <? currentTrack (gs w)) eqn:E1; red_tick.
  all: destruct (currentTrack (gs w) <=? 3) eqn:E2; red_tick.
  all: try destruct (bool_decide (currentTrack (gs w) ∈ progressElements (ui w))) eqn:E3; red_tick.
  all: rewrite ?E1; red_tick.
  all: destruct (0 <? duration st) eqn:E4; red_tick.
  all: try destruct (Qleb (minTrackRatio (gs w)) _) eqn:E5; red_tick.
  all: try destruct (bool_decide (currentTrack (gs w) ∈ tracksCompleted (gs w))) eqn:E6; red_tick.
  all: try destruct (duration st - 1000 <=? position st) eqn:E7; red_tick.
  all: try destruct (paused st) eqn:E8; red_tick.
  all: eexists; split; [reflexivity|].
  all: red_tick; rewrite ?app_nil_r.
  all: try (apply bool_decide_eq_true in E6; rewrite (union_known _ _ E6)).
  all: repeat split; try reflexivity.
  all: unfold view, completionsInFlight, completedEvents; red_tick.
  all: rewrite filter_snoc; cbn [isCompletionTask snd]; rewrite Nat.add_0_r; reflexivity.
Qed.


(** ** Computations that leave an observation alone *)

Section Keeps.
Context {T : Type} (obs : World -> T).

Lemma keeps_ret {A} (a : A) : keeps obs (ret a).
Proof. intros w. reflexivity. Qed.

Lemma keeps_throw {A} (e : string) : keeps obs (@throw A e).
Proof. intros w. reflexivity. Qed.

Lemma keeps_gets {A} (f : World -> A) : keeps obs (gets f).
Proof. intros w. reflexivity. Qed.

Lemma keeps_read {A} (f : GameState -> A) : keeps obs (read f).
Proof. intros w. reflexivity. Qed.

Lemma keeps_bind {A B} (m : M A) (k : A -> M B) :
  keeps obs m -> (forall a, keeps obs (k a)) -> keeps obs (bind m k).
Proof.
  intros Hm Hk w. unfold bind. specialize (Hm w).
  destruct (m w) as [[a|e] w']; cbn [snd] in *; [|exact Hm].
  now rewrite Hk.
Qed.

Lemma keeps_try_catch {A} (m : M A) (h : string -> M A) :
  keeps obs m -> (forall e, keeps obs (h e)) -> keeps obs (try_catch m h).
Proof.
  intros Hm Hh w. unfold try_catch. specialize (Hm w).
  destruct (m w) as [[a|e] w']; cbn [snd] in *; [exact Hm|].
  now rewrite Hh.
Qed.

Lemma keeps_when (b : bool) (m : M unit) : keeps obs m -> keeps obs (when b m).
Proof. intros Hm. destruct b; [exact Hm|apply keeps_ret]. Qed.

Lemma keeps_modify (f : World -> World) :
  (forall w, obs (f w) = obs w) -> keeps obs (modify f).
Proof. intros H w. apply H. Qed.

Lemma keeps_async (m : M unit) :
  (forall e w, obs (set_rejections (e :: rejections w) w) = obs w) ->
  keeps obs m -> keeps obs (async m).
Proof.
  intros Hr Hm. apply keeps_try_catch; [exact Hm|].
  intros e. apply keeps_modify. intros w. apply Hr.
Qed.
End Keeps.

Lemma keeps_view_setTimeout (t : Task) (d : Q) :
  isCompletionTask (d, t) = false -> keeps view (setTimeout t d).
Proof.
  intros H w. unfold view, setTimeout, modify, completionsInFlight. cbn.
  rewrite filter_snoc, H, Nat.add_0_r. reflexivity.
Qed.

Lemma keeps_view_sendTelemetry (d : TelemetryData) (url : option string) :
  isCompletedEvent d = false -> keeps view (sendTelemetry d url).
Proof.
  intros H w. unfold sendTelemetry, bind, modify, when, ret.
  destruct (Str.truthy _); unfold view, completedEvents; cbn; now rewrite H.
Qed.

Ltac keeps_leaf :=
  let w := fresh "w" in
  intros w;
  cbv [Math_random randomBetween randomChoice showMessage updateButton player spotifyApi
       sendTelemetry setTimeout read gets assign render modify bind ret throw when];
  repeat match goal with
         | |- context [match ?o with Resolved _ => _ | Rejected _ => _ end] => destruct o
         | |- context [if ?b then _ else _] => destruct b
         end;
  reflexivity.

Ltac keeps_step :=
  match goal with
  | |- keeps _ (bind _ _) => apply keeps_bind; [|intros ?]
  | |- keeps _ (try_catch _ _) => apply keeps_try_catch; [|intros ?]
  | |- keeps _ (when _ _) => apply keeps_when
  | |- keeps _ (async _) => apply keeps_async; [intros ? ?; reflexivity|]
  | |- keeps _ (ret _) => apply keeps_ret
  | |- keeps _ (throw _) => apply keeps_throw
  | |- keeps view (setTimeout _ _) => apply keeps_view_setTimeout; reflexivity
  | |- keeps view (sendTelemetry _ _) => apply keeps_view_sendTelemetry; reflexivity
  | |- keeps _ (if ?b then _ else _) => destruct b
  | |- keeps _ (match ?x with _ => _ end) => destruct x
  | |- keeps _ _ => assumption
  | |- keeps _ _ => keeps_leaf
  end.

Ltac keeps_auto := repeat keeps_step.

Lemma keeps_view_updateTimer now : keeps view (updateTimer now).
Proof. unfold updateTimer. keeps_auto. Qed.

Lemma keeps_view_scheduleNoiseInteraction : keeps view scheduleNoiseInteraction.
Proof. unfold scheduleNoiseInteraction. keeps_auto. Qed.

Lemma keeps_view_noiseInteraction v : keeps view (noiseInteraction v).
Proof. unfold noiseInteraction. keeps_auto. Qed.

Lemma keeps_view_playCurrentTrack r : keeps view (playCurrentTrack r).
Proof.
  pose proof keeps_view_scheduleNoiseInteraction.
  unfold playCurrentTrack. keeps_auto.
Qed.

Lemma keeps_view_createPlaylist c a : keeps view (createPlaylist c a).
Proof. unfold createPlaylist. keeps_auto. Qed.

Lemma keeps_view_transferPlayback d t : keeps view (transferPlayback d t).
Proof. unfold transferPlayback. keeps_auto. Qed.

Lemma keeps_core_createPlaylist c a : keeps sessionCore (createPlaylist c a).
Proof. unfold createPlaylist. keeps_auto. Qed.

Lemma keeps_core_transferPlayback d t : keeps sessionCore (transferPlayback d t).
Proof. unfold transferPlayback. keeps_auto. Qed.

Lemma keeps_gs_playCurrentTrack r :
  keeps (fun w => (gs w, intervals w, nextTimer w)) (playCurrentTrack r).
Proof.
  assert (keeps (fun w => (gs w, intervals w, nextTimer w)) scheduleNoiseInteraction)
    by (unfold scheduleNoiseInteraction; keeps_auto).
  unfold playCurrentTrack. keeps_auto.
Qed.

(** ** Starting a session *)

Lemma try_catch_total (m : M unit) (h : string -> M unit) (w : World) :
  (forall e w', fst (h e w') = Ok tt) -> fst (try_catch m h w) = Ok tt.
Proof.
  intros H. unfold try_catch. destruct (m w) as [[[]|e] w']; [reflexivity|apply H].
Qed.

Lemma playCurrentTrack_ok (r : ApiOutcome unit) (w : World) :
  fst (playCurrentTrack r w) = Ok tt.
Proof.
  unfold playCurrentTrack, bind, gets.
  destruct (_ <? _); [reflexivity|].
  apply try_catch_total. reflexivity.
Qed.

Lemma playCurrentTrack_rejected (message : string) (w : World) :
  currentTrack (gs w) <= Z.of_nat (length (trackOrder (gs w))) ->
  statusMessages (ui (snd (playCurrentTrack (Rejected message) w)))
  = ("Failed to play track", "error") :: statusMessages (ui w).
Proof.
  intros H. unfold playCurrentTrack, bind, gets.
  destruct (Z.ltb_spec (Z.of_nat (length (trackOrder (gs w)))) (currentTrack (gs w))); [lia|].
  reflexivity.
Qed.


Lemma try_catch_rethrow {A} (m : M A) (w : World) : try_catch m (fun e => throw e) w = m w.
Proof. unfold try_catch, throw. destruct (m w) as [[a|e] w']; reflexivity. Qed.

Lemma bind_Math_random {B} (k : Q -> M B) (w : World) :
  bind Math_random k w = k (rng w (rngPos w)) (set_rngPos (S (rngPos w)) w).
Proof. reflexivity. Qed.

Lemma bind_randomChoice {A B} (l : list A) (k : option A -> M B) (w : World) :
  bind (randomChoice l) k w
  = k (index l (Math_floor (rng w (rngPos w) * inject_Z (Z.of_nat (length l)))))
      (set_rngPos (S (rngPos w)) w).
Proof. reflexivity. Qed.

Lemma bind_ret {A B} (a : A) (k : A -> M B) (w : World) : bind (ret a) k w = k a w.
Proof. reflexivity. Qed.

Lemma bind_gets {A B} (f : World -> A) (k : A -> M B) (w : World) :
  bind (gets f) k w = k (f w) w.
Proof. reflexivity. Qed.

Lemma bind_assoc {A B C} (m : M A) (f : A -> M B) (k : B -> M C) (w : World) :
  bind (bind m f) k w = bind m (fun a => bind (f a) k) w.
Proof. unfold bind. destruct (m w) as [[a|e] w']; reflexivity. Qed.

Lemma bind_randomBetween {B} (a b : Q) (k : Q -> M B) (w : World) :
  bind (randomBetween a b) k w
  = k (rng w (rngPos w) * (b - a) + a)%Q (set_rngPos (S (rngPos w)) w).
Proof. reflexivity. Qed.

Lemma bind_assign {B} (f : GameState -> GameState) (k : unit -> M B) (w : World) :
  bind (assign f) k w = k tt (set_gs (f (gs w)) w).
Proof. reflexivity. Qed.

Lemma bind_read {A B} (f : GameState -> A) (k : A -> M B) (w : World) :
  bind (read f) k w = k (f (gs w)) w.
Proof. reflexivity. Qed.

Lemma bind_modify {B} (f : World -> World) (k : unit -> M B) (w : World) :
  bind (modify f) k w = k tt (f w).
Proof. reflexivity. Qed.

Ltac exec :=
  repeat (cbv beta zeta; cbn [rng rngPos set_rngPos set_gs gs];
          first [ rewrite bind_randomChoice | rewrite bind_Math_random
                | rewrite bind_randomBetween | rewrite bind_assign | rewrite bind_read
                | rewrite bind_modify
                | rewrite bind_ret | rewrite bind_gets | rewrite bind_assoc ]).

Ltac branch :=
  match goal with |- context [bind (if ?c then _ else _)] => destruct c end.

Lemma createPlaylist_requests (create : ApiOutcome (string * string))
    (addTracks : ApiOutcome unit) (w : World) :
  exists playlistName isPublic n,
    createPlaylist create addTracks w
    = createRequests playlistName isPublic create addTracks (set_rngPos n w).
Proof.
  unfold createPlaylist. rewrite try_catch_rethrow.
  exec. branch; exec.
  all: branch; exec.
  all: branch; exec.
  all: try (branch; exec).
  all: do 3 eexists.
  all: unfold createRequests; rewrite bind_gets; cbn [gs set_rngPos rngPos rng]; reflexivity.
Qed.

Lemma createPlaylist_result (ans : Answers) (w : World) :
  let r := createPlaylist (createResp ans) (addTracksResp ans) w in
  sessionCore (snd r) = sessionCore w /\
  playlist (gs (snd r)) = playlistAfter ans (gs w) /\
  match fst r with
  | Ok created =>
      user (gs w) <> None /\ createResp ans = Resolved created
      /\ (exists u, addTracksResp ans = Resolved u)
  | Throw message =>
      match user (gs w) with
      | None => message = "TypeError: gameState.user is null"
      | Some _ =>
          createResp ans = Rejected message \/
          (exists created, createResp ans = Resolved created)
          /\ addTracksResp ans = Rejected message
      end
  end.
Proof.
  cbv zeta. split; [apply keeps_core_createPlaylist|].
  destruct (createPlaylist_requests (createResp ans) (addTracksResp ans) w)
    as (name & pub & n & ->).
  unfold createRequests, playlistAfter.
  unfold bind, gets, read, assign, modify, spotifyApi, sendTelemetry, throw, when, ret.
  cbn [gs set_rngPos fst snd].
  destruct (user (gs w)) as [uid|]; [|split; reflexivity].
  destruct (createResp ans) as [created|m1]; [|split; [reflexivity|now left]].
  destruct (addTracksResp ans) as [u|m2]; cbn.
  - split; [reflexivity|]. repeat split; [discriminate|eauto].
  - split; [reflexivity|]. right. eauto.
Qed.

Lemma transferPlayback_result (ans : Answers) (w : World) :
  let r := transferPlayback (devicesResp ans) (transferResp ans) w in
  sessionCore (snd r) = sessionCore w /\
  playlist (gs (snd r)) = playlist (gs w) /\
  fst r = if transferOk ans (gs w) then Ok tt
          else Throw "Failed to connect to player. Make sure Spotify is open.".
Proof.
  cbv zeta. split; [apply keeps_core_transferPlayback|].
  unfold transferPlayback, transferOk, try_catch, bind, spotifyApi, gets, modify, throw, ret.
  destruct (devicesResp ans) as [devices|m1]; cbn; [|split; reflexivity].
  destruct (deviceId (gs w)) as [id|]; cbn; [|split; reflexivity].
  destruct (bool_decide (id ∈ devices)); cbn;
    destruct (transferResp ans) as [[]|m2]; cbn; split; reflexivity.
Qed.

Lemma core_split (w w' : World) :
  sessionCore w' = sessionCore w ->
  gs w' = set_playlist (playlist (gs w')) (gs w)
  /\ intervals w' = intervals w /\ nextTimer w' = nextTimer w.
Proof.
  unfold sessionCore. intros H.
  pose proof (f_equal (fun p => fst (fst p)) H) as Hg.
  pose proof (f_equal (fun p => snd (fst p)) H) as Hi.
  pose proof (f_equal snd H) as Hn. cbn in Hg, Hi, Hn.
  repeat split; [|assumption|assumption].
  destruct (gs w'), (gs w). cbn in Hg |- *. injection Hg. intros. subst. reflexivity.
Qed.

Lemma startFailed_eq (message : string) (w : World) :
  (showMessage ("Failed to start: " ++ message) "error" ;;
   updateButton "Start Session" true) w =
    (Ok tt,
     set_ui (set_mainButtonEnabled true
               (set_mainButtonText "Start Session"
                  (set_statusMessages
                     (("Failed to start: " ++ message, "error") :: statusMessages (ui w))
                     (ui w)))) w).
Proof. destruct w. reflexivity. Qed.

(** What [startSession] does, by the answers it gets. *)
Lemma startSession_cases (now : Z) (ans : Answers) (w : World) :
  let w' := snd (startSession now ans w) in
  fst (startSession now ans w) = Ok tt /\
  match setupFailure ans (gs w) with
  | Some message =>
      head (statusMessages (ui w')) = Some ("Failed to start: " ++ message, "error")
      /\ mainButtonText (ui w') = "Start Session"
      /\ mainButtonEnabled (ui w') = true
      /\ gs w' = set_playlist (playlistAfter ans (gs w)) (gs w)
      /\ intervals w' = intervals w
  | None =>
      gs w' = set_unlockTimer (Some (Pos.succ (nextTimer w)))
                (set_sessionTimer (Some (nextTimer w))
                   (set_startedAt (Some now)
                      (set_currentTrack 1
                         (set_playlist (playlistAfter ans (gs w)) (gs w)))))
      /\ intervals w' = <[Pos.succ (nextTimer w) := IMaybeUnlockCompletion]>
                          (<[nextTimer w := IUpdateTimer]> (intervals w))
      /\ mainButtonText (ui w') = "Playing..."
      /\ mainButtonEnabled (ui w') = false
      /\ (forall message,
            playResp ans = Rejected message ->
            (1 <= length (trackOrder (gs w)))%nat ->
            In ("Failed to play track", "error") (statusMessages (ui w')))
  end.
Proof.
  cbv zeta. unfold startSession, try_catch.
  change (updateButton "Starting..." false)
    with (modify (fun w => set_ui (set_mainButtonEnabled false
                                     (set_mainButtonText "Starting..." (ui w))) w)).
  change (showMessage "Creating playlist and starting playback..." "info")
    with (modify (fun w => set_ui (set_statusMessages
                                     (("Creating playlist and starting playback...", "info")
                                      :: statusMessages (ui w)) (ui w)) w)).
  rewrite !bind_modify.
  match goal with |- context [bind (createPlaylist _ _) _ ?W] => set (w1 := W) end.
  assert (Hg1 : gs w1 = gs w) by reflexivity.
  assert (Hi1 : intervals w1 = intervals w) by reflexivity.
  assert (Hn1 : nextTimer w1 = nextTimer w) by reflexivity.
  clearbody w1. rewrite run_bind.
  destruct (createPlaylist_result ans w1) as (Hc1 & Hp1 & Hr1).
  destruct (createPlaylist (createResp ans) (addTracksResp ans) w1) as [r1 w2].
  cbn [fst snd] in *. rewrite Hg1 in Hp1, Hr1.
  apply core_split in Hc1 as (Hg2 & Hi2 & Hn2).
  rewrite Hp1, Hg1 in Hg2. rewrite Hi1 in Hi2. rewrite Hn1 in Hn2. clear Hg1 Hi1 Hn1 Hp1.
  unfold setupFailure.
  destruct r1 as [created|e].
  2:{ rewrite startFailed_eq. cbn [fst snd ui gs intervals set_ui].
      split; [reflexivity|].
      assert (He : match user (gs w) with
                   | Some _ =>
                       match createResp ans with
                       | Resolved _ =>
                           match addTracksResp ans with
                           | Resolved _ =>
                               if transferOk ans (gs w) then None
                               else Some "Failed to connect to player. Make sure Spotify is open."
                           | Rejected message => Some message
                           end
                       | Rejected message => Some message
                       end
                   | None => Some "TypeError: gameState.user is null"
                   end = Some e).
      { destruct (user (gs w)); [|now subst].
        destruct Hr1 as [->|[[c ->] ->]]; reflexivity. }
      rewrite He. repeat split; assumption. }
  destruct Hr1 as (Hu & Hcr & [u Had]).
  destruct (user (gs w)) as [uid|] eqn:Euser; [clear Hu|congruence].
  rewrite Hcr, Had.
  destruct (transferPlayback_result ans w2) as (Hc2 & Hp2 & Hr2).
  rewrite run_bind.
  destruct (transferPlayback (devicesResp ans) (transferResp ans) w2) as [r2 w3].
  cbn [fst snd] in *.
  apply core_split in Hc2 as (Hg3 & Hi3 & Hn3).
  rewrite Hp2, Hg2 in Hg3. rewrite Hi2 in Hi3. rewrite Hn2 in Hn3.
  replace (transferOk ans (gs w2)) with (transferOk ans (gs w)) in Hr2
    by (rewrite Hg2; reflexivity).
  replace (set_playlist (playlist (set_playlist (playlistAfter ans (gs w)) (gs w)))
             (set_playlist (playlistAfter ans (gs w)) (gs w)))
    with (set_playlist (playlistAfter ans (gs w)) (gs w)) in Hg3 by reflexivity.
  clear Hg2 Hi2 Hn2 Hp2.
  destruct (transferOk ans (gs w)); subst r2.
  2:{ rewrite startFailed_eq. cbn [fst snd ui gs intervals set_ui].
      repeat split; assumption. }
  unfold assign. rewrite !bind_modify, run_bind.
  match goal with |- context [playCurrentTrack _ ?W] => set (w4 := W) end.
  assert (Hg4 : gs w4 = set_startedAt (Some now)
                          (set_currentTrack 1 (set_playlist (playlistAfter ans (gs w)) (gs w))))
    by (subst w4; cbn; now rewrite Hg3).
  assert (Hi4 : intervals w4 = intervals w) by (subst w4; exact Hi3).
  assert (Hn4 : nextTimer w4 = nextTimer w) by (subst w4; exact Hn3).
  assert (Hm4 : statusMessages (ui w4) = statusMessages (ui w3)) by reflexivity.
  clearbody w4.
  pose proof (playCurrentTrack_ok (playResp ans) w4) as Hok.
  pose proof (keeps_gs_playCurrentTrack (playResp ans) w4) as Hk.
  assert (Hrej : forall m, playResp ans = Rejected m ->
            (1 <= length (trackOrder (gs w)))%nat ->
            statusMessages (ui (snd (playCurrentTrack (playResp ans) w4)))
            = ("Failed to play track", "error") :: statusMessages (ui w4)).
  { intros m -> Hlen. apply playCurrentTrack_rejected. rewrite Hg4. cbn. lia. }
  destruct (playCurrentTrack (playResp ans) w4) as [r5 w5].
  cbn [fst snd] in *. subst r5.
  pose proof (f_equal (fun p => fst (fst p)) Hk) as Hg5.
  pose proof (f_equal (fun p => snd (fst p)) Hk) as Hi5.
  pose proof (f_equal snd Hk) as Hn5. cbn in Hg5, Hi5, Hn5.
  unfold setInterval, modify, bind. cbn.
  rewrite Hg5, Hg4, Hi5, Hi4, Hn5, Hn4.
  repeat split.
  intros message Hp Hlen. right.
  rewrite (Hrej message Hp Hlen). now left.
Qed.

(** C6 (amended). [startSession] never throws.  When the profile is
    missing or the playlist, add-tracks, device or transfer request fails,
    the error is shown, the button offers the start again, and the game
    state is the one before the call except for the playlist reference,
    which is kept once the playlist request has succeeded; no timer is
    armed.  Otherwise the session is running whatever the play request
    answers: the first track is current, the start time is set and both
    timers are armed; a rejected play request only adds the message
    'Failed to play track'. *)
Theorem startSession_outcome (now : Z) (ans : Answers) (w : World) :
  let w' := snd (startSession now ans w) in
  fst (startSession now ans w) = Ok tt /\
  match setupFailure ans (gs w) with
  | Some message =>
      head (statusMessages (ui w')) = Some ("Failed to start: " ++ message, "error")
      /\ mainButtonText (ui w') = "Start Session"
      /\ mainButtonEnabled (ui w') = true
      /\ gs w' = set_playlist (playlistAfter ans (gs w)) (gs w)
      /\ intervals w' = intervals w
  | None =>
      gs w' = set_unlockTimer (Some (Pos.succ (nextTimer w)))
                (set_sessionTimer (Some (nextTimer w))
                   (set_startedAt (Some now)
                      (set_currentTrack 1
                         (set_playlist (playlistAfter ans (gs w)) (gs w)))))
      /\ intervals w' = <[Pos.succ (nextTimer w) := IMaybeUnlockCompletion]>
                          (<[nextTimer w := IUpdateTimer]> (intervals w))
      /\ mainButtonText (ui w') = "Playing..."
      /\ mainButtonEnabled (ui w') = false
      /\ (forall message,
            playResp ans = Rejected message ->
            (1 <= length (trackOrder (gs w)))%nat ->
            In ("Failed to play track", "error") (statusMessages (ui w')))
  end.
Proof. exact (startSession_cases now ans w). Qed.

Lemma startSession_outcome_witness :
  In ("Failed to play track", "error")
     (statusMessages
        (ui (snd (startSession 1000
                    {| createResp := createResp sampleAnswers;
                       addTracksResp := Resolved tt;
                       devicesResp := devicesResp sampleAnswers;
                       transferResp := Resolved tt;
                       playResp := Rejected "HTTP 404"; volume := 0.8 |}
                    sampleReady)))).
Proof.
  refine (proj2 (proj2 (proj2 (proj2 (proj2
            (startSession_outcome 1000
               {| createResp := createResp sampleAnswers;
                  addTracksResp := Resolved tt;
                  devicesResp := devicesResp sampleAnswers;
                  transferResp := Resolved tt;
                  playResp := Rejected "HTTP 404"; volume := 0.8 |}
               sampleReady)))))
          "HTTP 404" _ _).
  - reflexivity.
  - vm_compute. lia.
Defined.

(** C6, as stated, fails: a rejected add-tracks request leaves the
    playlist reference behind although the start is aborted, and a
    rejected play request leaves the session started. *)
Lemma startSession_keeps_partial_state :
  let afterAdd :=
    snd (startSession 1000
           {| createResp := createResp sampleAnswers;
              addTracksResp := Rejected "HTTP 403";
              devicesResp := devicesResp sampleAnswers;
              transferResp := Resolved tt; playResp := Resolved tt; volume := 0.8 |}
           sampleReady) in
  let afterPlay :=
    snd (startSession 1000
           {| createResp := createResp sampleAnswers;
              addTracksResp := Resolved tt;
              devicesResp := devicesResp sampleAnswers;
              transferResp := Resolved tt; playResp := Rejected "HTTP 404"; volume := 0.8 |}
           sampleReady) in
  (playlist (gs sampleReady) = None /\ startedAt (gs sampleReady) = None
   /\ currentTrack (gs sampleReady) = 0)
  /\ (startedAt (gs afterAdd) = None /\ playlist (gs afterAdd) <> None)
  /\ (startedAt (gs afterPlay) = Some 1000 /\ currentTrack (gs afterPlay) = 1
      /\ is_Some (intervals afterPlay !! 1%positive)).
Proof. vm_compute. repeat split; try discriminate. eexists. reflexivity. Qed.

(** ** The completion check *)

Lemma unlockCompletion_done (now : Z) (w : World) :
  completed w = true -> unlockCompletion now w = (Ok tt, w).
Proof. intros H. unfold unlockCompletion, bind, gets. unfold completed in H. now rewrite H. Qed.

Lemma maybeUnlockCompletion_done (now : Z) (w : World) :
  completed w = true -> maybeUnlockCompletion now w = (Ok tt, w).
Proof. intros H. unfold maybeUnlockCompletion, bind, gets. unfold completed in H. now rewrite H. Qed.

Lemma maybeUnlockCompletion_cases (now : Z) (w : World) :
  maybeUnlockCompletion now w =
    if completed w then (Ok tt, w)
    else if Qleb (sessionDuration (gs w)) (inject_Z (elapsedSince now (gs w)))
            && allTracksCompleted (gs w)
    then async (unlockCompletion now) w
    else if Qleb (earlyFinishThreshold (gs w)) (inject_Z (elapsedSince now (gs w)))
            && allTracksCompleted (gs w)
    then showEarlyFinishOption w
    else (Ok tt, w).
Proof.
  unfold maybeUnlockCompletion, bind, gets, completed, when.
  destruct (truthyStr _); [reflexivity|].
  destruct (_ && _); [reflexivity|]. destruct (_ && _); reflexivity.
Qed.

Lemma showEarlyFinishOption_eq (w : World) :
  showEarlyFinishOption w =
    (Ok tt,
     if String.eqb (finishButtonDisplay (ui w)) "none"
     then set_ui (set_statusMessages
                    (("All tracks completed! You can finish early if you want.", "success")
                     :: statusMessages (ui w))
                    (set_finishButtonOnclick true (set_finishButtonDisplay "block" (ui w)))) w
     else w).
Proof.
  unfold showEarlyFinishOption, bind, gets, when, render, showMessage, modify.
  destruct (String.eqb _ _); [|reflexivity]. destruct w. reflexivity.
Qed.

Ltac inv_open H :=
  destruct H as [Hcode Horder Htrack Hdone Huser Hclick Hcomp Honce Hbutton Htimers].

Lemma Inv_view (w w' : World) : view w' = view w -> Inv w -> Inv w'.
Proof. unfold Inv. now intros ->. Qed.

Lemma clearTimer_lookup (t : option positive) (m : gmap positive Interval) (id : positive) :
  is_Some (clearTimer t m !! id) -> is_Some (m !! id) /\ t <> Some id.
Proof.
  destruct t as [i|]; cbn; [|now split].
  destruct (decide (i = id)) as [->|Hne].
  - rewrite lookup_delete_eq. intros [x Hx]. discriminate.
  - rewrite lookup_delete_ne by exact Hne. intros H. split; [exact H|congruence].
Qed.

(** Three tracks, each of them between one and three: all of them. *)
Lemma all_of_three (done : gset Z) :
  (forall k, k ∈ done -> 1 <= k <= 3) -> size done = 3%nat -> allThree done.
Proof.
  intros Hb Hs.
  assert (Hsub : done ⊆ ({[1; 2; 3]} : gset Z)).
  { intros k Hk. specialize (Hb k Hk). 
    assert (k = 1 \/ k = 2 \/ k = 3) as [-> | [-> | ->]] by lia; set_solver. }
  assert (Heq : done ≡ ({[1; 2; 3]} : gset Z)).
  { apply set_subseteq_size_equiv; [exact Hsub|]. rewrite Hs. reflexivity. }
  intros k Hk. rewrite Heq.
  assert (k = 1 \/ k = 2 \/ k = 3) as [-> | [-> | ->]] by lia; set_solver.
Qed.

Lemma Inv_allTracksCompleted (w : World) :
  Inv w -> allTracksCompleted (gs w) = true -> allThree (tracksCompleted (gs w)).
Proof.
  intros HI Hall. inv_open HI. cbn in *. apply all_of_three.
  - intros k Hk. specialize (Hdone k Hk). lia.
  - unfold allTracksCompleted in Hall. apply Nat.eqb_eq in Hall. congruence.
Qed.

Lemma Inv_unlock (now : Z) (w : World) :
  Inv w -> completed w = false -> allThree (tracksCompleted (gs w)) ->
  Inv (snd (async (unlockCompletion now) w)).
Proof.
  intros HI Hc Hall. inv_open HI.
  cbn in *. destruct (user (gs w)) as [uid|] eqn:Hu; [|congruence].
  destruct (unlockCompletion_fresh now w uid Hc Hu) as (code & Ht & _ & Heq).
  rewrite (async_ok _ _ _ Heq). cbn [snd].
  unfold completed in Hc. rewrite Hc in *.
  constructor; cbn -[clearTimer]; try assumption.
  - now right.
  - rewrite Hu. discriminate.
  - intros _. exact Hall.
  - rewrite Ht. unfold completionsInFlight, completedEvents in *. cbn.
    rewrite filter_snoc. cbn. lia.
  - intros id Hid.
    apply clearTimer_lookup in Hid as [Hid Hu2].
    apply clearTimer_lookup in Hid as [Hid Hs2].
    destruct (Htimers id Hid) as [[?|?] _]; congruence.
Qed.

(** ** The completion check leaves the playback state alone *)

Lemma keeps_tickFrame_codeLoop (n : nat) : forall code, keeps tickFrame (codeLoop n code).
Proof.
  induction n as [|n IH]; intros code; cbn [codeLoop]; [apply keeps_ret|].
  apply keeps_bind; [intros w; reflexivity|]. intros r. apply IH.
Qed.

Lemma keeps_tickFrame_suspend (t : Task) :
  isAdvanceTask (0%Q, t) = false -> keeps tickFrame (suspend t).
Proof.
  intros H w. unfold tickFrame, suspend, modify, scheduledAdvances. cbn.
  rewrite filter_snoc, H, Nat.add_0_r. reflexivity.
Qed.

Lemma keeps_tickFrame_unlockCompletion (now : Z) : keeps tickFrame (unlockCompletion now).
Proof.
  pose proof (keeps_tickFrame_codeLoop 6 "PM-") as Hcode.
  unfold unlockCompletion. fold generateCompletionCode in Hcode.
  keeps_auto.
  all: try (intros w; reflexivity).
  apply keeps_tickFrame_suspend. reflexivity.
Qed.

Lemma keeps_tickFrame_maybeUnlockCompletion (now : Z) :
  keeps tickFrame (maybeUnlockCompletion now).
Proof.
  pose proof (keeps_tickFrame_unlockCompletion now).
  unfold maybeUnlockCompletion, showEarlyFinishOption. keeps_auto.
Qed.

Lemma maybeUnlockCompletion_ok (now : Z) (w : World) :
  fst (maybeUnlockCompletion now w) = Ok tt.
Proof.
  rewrite maybeUnlockCompletion_cases.
  destruct (completed w); [reflexivity|].
  destruct (_ && _); [apply async_never_throws|].
  destruct (_ && _); [|reflexivity]. now rewrite showEarlyFinishOption_eq.
Qed.

Lemma tick_frame (now : Z) (st : PlayerState) (w : World) :
  let r := handlePlayerStateChanged now (Some st) w in
  fst r = Ok tt
  /\ tracksCompleted (gs (snd r)) = doneAfter (gs w) st
  /\ currentTrack (gs (snd r)) = currentTrack (gs w)
  /\ scheduledAdvances (snd r)
     = (scheduledAdvances w + if nearEnd (gs w) st then 1 else 0)%nat
  /\ progressShown (ui (snd r)) = shownAfter w st
  /\ apiCalls (snd r) = apiCalls w.
Proof.
  cbv zeta.
  destruct (tick_decompose now st w) as (w1 & -> & Hv & Hd & Hp & Hs & Ha & _).
  pose proof (keeps_tickFrame_maybeUnlockCompletion now w1) as Hk.
  unfold tickFrame in Hk.
  split; [apply maybeUnlockCompletion_ok|].
  injection Hk as -> -> -> -> ->.
  assert (Ht : currentTrack (gs w1) = currentTrack (gs w))
    by (apply (f_equal vTrack) in Hv; exact Hv).
  repeat split; try assumption.
  unfold scheduledAdvances. rewrite Hp.
  destruct (nearEnd (gs w) st); [apply filter_snoc|].
  now rewrite app_nil_r, Nat.add_0_r.
Qed.

(** C9. A tick whose duration is zero or negative is processed without
    an exception; it marks no track as completed, schedules no advance,
    and the progress written for the current track is 0 percent. *)
Theorem tick_without_duration (now : Z) (st : PlayerState) (w : World) :
  duration st <= 0 ->
  let r := handlePlayerStateChanged now (Some st) w in
  let k := currentTrack (gs w) in
  fst r = Ok tt
  /\ tracksCompleted (gs (snd r)) = tracksCompleted (gs w)
  /\ scheduledAdvances (snd r) = scheduledAdvances w
  /\ progressShown (ui (snd r))
     = if (0 <? k) && (k <=? 3) && bool_decide (k ∈ progressElements (ui w))
       then (k, 0) :: progressShown (ui w)
       else progressShown (ui w).
Proof.
  intros Hd. cbv zeta.
  destruct (tick_frame now st w) as (Hok & Hdone & _ & Hadv & Hshown & _).
  assert (E : (0 <? duration st) = false) by (apply Z.ltb_ge; exact Hd).
  split; [exact Hok|].
  split; [rewrite Hdone; unfold doneAfter, reachesRatio; rewrite E, andb_false_r; reflexivity|].
  split; [rewrite Hadv; unfold nearEnd; rewrite E, andb_false_r; apply Nat.add_0_r|].
  rewrite Hshown. unfold shownAfter. now rewrite E.
Qed.

Lemma tick_without_duration_witness :
  tracksCompleted (gs (snd (handlePlayerStateChanged 1000
                              (Some {| position := 5000; duration := 0; paused := false;
                                       current_track := None |}) sampleStarted)))
  = tracksCompleted (gs sampleStarted)
  /\ progressShown (ui (snd (handlePlayerStateChanged 1000
                              (Some {| position := 5000; duration := 0; paused := false;
                                       current_track := None |}) sampleStarted)))
     = [(1, 0)].
Proof.
  pose proof (tick_without_duration 1000
                {| position := 5000; duration := 0; paused := false; current_track := None |}
                sampleStarted) as H.
  cbv zeta in H. destruct H as (_ & H1 & _ & H2); [cbn; lia|].
  split; [exact H1|exact H2].
Defined.

(** C4 (amended). Every tick that is within the last second of a playing
    track schedules one more advance, whatever is already scheduled; any
    other tick schedules none. *)
Theorem tick_schedules_advance (now : Z) (st : PlayerState) (w : World) :
  scheduledAdvances (snd (handlePlayerStateChanged now (Some st) w))
  = (scheduledAdvances w + if nearEnd (gs w) st then 1 else 0)%nat.
Proof. apply tick_frame. Qed.

(** C4, as stated, fails: two ticks in the last second of the first track
    leave two advances scheduled for it. *)
Lemma tick_schedules_twice :
  let w1 := step (199000, sampleAnswers, tick 199500 200000) sampleStarted in
  let w2 := step (199400, sampleAnswers, tick 199900 200000) w1 in
  currentTrack (gs sampleStarted) = 1 /\ scheduledAdvances sampleStarted = 0%nat
  /\ currentTrack (gs w1) = 1 /\ scheduledAdvances w1 = 1%nat
  /\ currentTrack (gs w2) = 1 /\ scheduledAdvances w2 = 2%nat.
Proof. vm_compute. repeat split. Qed.

(** C3 (amended). When the current track is the last one (or beyond),
    [playNextTrack] returns at once: no exception, no request, no
    telemetry, and the index is not incremented. *)
Theorem playNextTrack_at_last_track (ans : Answers) (w : World) :
  Z.of_nat (length (trackOrder (gs w))) <= currentTrack (gs w) ->
  playNextTrack w = (Ok tt, w) /\ runTask ans TPlayNextTrack w = (Ok tt, w).
Proof.
  intros H.
  assert (E : playNextTrack w = (Ok tt, w)).
  { unfold playNextTrack, bind, gets.
    destruct (Z.leb_spec (Z.of_nat (length (trackOrder (gs w)))) (currentTrack (gs w)));
      [reflexivity|lia]. }
  split; [exact E|]. cbn [runTask]. apply async_ok, E.
Qed.

Lemma playNextTrack_at_last_track_witness :
  playNextTrack sampleLastTrack = (Ok tt, sampleLastTrack).
Proof.
  apply (playNextTrack_at_last_track sampleAnswers sampleLastTrack).
  vm_compute. discriminate.
Defined.

(** C3, as stated, fails: on the last track the index is not incremented. *)
Lemma playNextTrack_does_not_increment :
  currentTrack (gs sampleLastTrack) = Z.of_nat (length (trackOrder (gs sampleLastTrack)))
  /\ currentTrack (gs (snd (playNextTrack sampleLastTrack))) = 3
  /\ currentTrack (gs (snd (playNextTrack sampleLastTrack)))
     <> currentTrack (gs sampleLastTrack) + 1.
Proof. vm_compute. repeat split. discriminate. Qed.

Lemma unlockCompletion_completes (now : Z) (w : World) :
  completed (snd (async (unlockCompletion now) w)) = true.
Proof.
  destruct (completed w) eqn:Hc.
  - now rewrite (async_ok _ _ _ (unlockCompletion_done now w Hc)).
  - destruct (generateCompletionCode_eq w) as (code & Ht & _ & Hg).
    unfold async, try_catch, unlockCompletion, bind, gets. unfold completed in Hc.
    rewrite Hc, Hg. unfold assign, modify, clearInterval, render, suspend, throw. cbn.
    destruct (sessionTimer (gs w)), (unlockTimer (gs w)); cbn;
      destruct (user (gs w)); cbn; unfold completed; cbn; exact Ht.
Qed.

(** C5. With all tracks completed and the elapsed time between the early
    threshold and the session duration, the completion check touches
    nothing but the page: it shows the finish button and installs its
    handler (when the button was hidden), and the session is completed
    only by the click. *)
Theorem early_finish_is_a_signal (now : Z) (w : World) :
  allTracksCompleted (gs w) = true ->
  (earlyFinishThreshold (gs w) <= inject_Z (elapsedSince now (gs w)))%Q ->
  (inject_Z (elapsedSince now (gs w)) < sessionDuration (gs w))%Q ->
  let w' := snd (maybeUnlockCompletion now w) in
  fst (maybeUnlockCompletion now w) = Ok tt
  /\ w' = set_ui (ui w') w
  /\ completed w' = completed w
  /\ (completed w = false -> finishButtonDisplay (ui w) = "none" ->
      finishButtonDisplay (ui w') = "block" /\ finishButtonOnclick (ui w') = true)
  /\ (finishButtonOnclick (ui w') = true ->
      forall now' ans, completed (step (now', ans, FinishButtonClick) w') = true).
Proof.
  intros Hall Hearly Hlate. cbv zeta.
  split; [apply maybeUnlockCompletion_ok|].
  assert (Hmain : snd (maybeUnlockCompletion now w) = set_ui (ui (snd (maybeUnlockCompletion now w))) w
                  /\ completed (snd (maybeUnlockCompletion now w)) = completed w
                  /\ (completed w = false -> finishButtonDisplay (ui w) = "none" ->
                      finishButtonDisplay (ui (snd (maybeUnlockCompletion now w))) = "block"
                      /\ finishButtonOnclick (ui (snd (maybeUnlockCompletion now w))) = true)).
  { rewrite maybeUnlockCompletion_cases.
    destruct (completed w) eqn:Hc.
    { cbn. split; [destruct w; reflexivity|]. split; [exact Hc|discriminate]. }
    apply Qleb_false in Hlate. apply Qleb_true in Hearly.
    rewrite Hlate, Hearly, Hall. cbn [andb]. rewrite showEarlyFinishOption_eq. cbn [snd].
    destruct (String.eqb (finishButtonDisplay (ui w)) "none") eqn:Ed.
    - split; [destruct w; reflexivity|]. split; [exact Hc|]. intros _ _. split; reflexivity.
    - split; [destruct w; reflexivity|]. split; [exact Hc|].
      intros _ Hd. apply String.eqb_neq in Ed. contradiction. }
  destruct Hmain as (H1 & H2 & H3).
  repeat split; try assumption; try (apply H3; assumption).
  intros Hclick now' ans. unfold step, handle, bind, gets. rewrite Hclick. cbn [when].
  apply unlockCompletion_completes.
Qed.

Lemma early_finish_is_a_signal_witness :
  finishButtonOnclick (ui (snd (maybeUnlockCompletion 650000 sampleAllDone))) = true
  /\ completed (snd (maybeUnlockCompletion 650000 sampleAllDone)) = false
  /\ completed (step (651000, sampleAnswers, FinishButtonClick)
                  (snd (maybeUnlockCompletion 650000 sampleAllDone))) = true.
Proof.
  pose proof (early_finish_is_a_signal 650000 sampleAllDone) as H.
  cbv zeta in H.
  destruct H as (_ & _ & Hc & Hshow & Hclick).
  - vm_compute. reflexivity.
  - apply Qleb_true. vm_compute. reflexivity.
  - apply Qltb_true. vm_compute. reflexivity.
  - destruct Hshow as [_ Hon]; [vm_compute; reflexivity|vm_compute; reflexivity|].
    split; [exact Hon|]. split; [rewrite Hc; vm_compute; reflexivity|].
    apply Hclick. exact Hon.
Defined.

(** ** The invariant is kept by every turn *)

Lemma allThree_mono (a b : gset Z) : (forall k, k ∈ a -> k ∈ b) -> allThree a -> allThree b.
Proof. intros H Ha k Hk. apply H, Ha, Hk. Qed.

Lemma Inv_maybeUnlockCompletion (now : Z) (w : World) :
  Inv w -> Inv (snd (maybeUnlockCompletion now w)).
Proof.
  intros HI. rewrite maybeUnlockCompletion_cases.
  destruct (completed w) eqn:Hc; [exact HI|].
  destruct (Qleb (sessionDuration (gs w)) _ && allTracksCompleted (gs w)) eqn:Efull.
  { apply andb_true_iff in Efull as [_ Hall].
    apply Inv_unlock; [exact HI|exact Hc|]. now apply Inv_allTracksCompleted. }
  destruct (Qleb (earlyFinishThreshold (gs w)) _ && allTracksCompleted (gs w)) eqn:Eearly;
    [|exact HI].
  apply andb_true_iff in Eearly as [_ Hall].
  rewrite showEarlyFinishOption_eq. cbn [snd].
  destruct (String.eqb _ _); [|exact HI].
  pose proof (Inv_allTracksCompleted w HI Hall) as H3.
  inv_open HI. constructor; cbn in *; try assumption.
  intros _. exact H3.
Qed.

Lemma Inv_tick (now : Z) (st : PlayerState) (w : World) :
  Inv w -> Inv (snd (handlePlayerStateChanged now (Some st) w)).
Proof.
  intros HI.
  destruct (tick_decompose now st w) as (w1 & -> & Hv & _).
  apply Inv_maybeUnlockCompletion. apply (Inv_view _ _ Hv).
  assert (Hsub : forall k, k ∈ tracksCompleted (gs w) -> k ∈ doneAfter (gs w) st).
  { intros k Hk. unfold doneAfter. destruct (reachesRatio _ _); [|exact Hk].
    apply elem_of_union. now right. }
  inv_open HI. constructor; cbn in *; try assumption.
  - intros k Hk. unfold doneAfter, reachesRatio in Hk.
    destruct (0 <? currentTrack (gs w)) eqn:E; cbn in Hk; [|now apply Hdone].
    destruct (_ && _); [|now apply Hdone].
    apply elem_of_union in Hk as [Hk|Hk]; [|now apply Hdone].
    apply elem_of_singleton in Hk. subst k. apply Z.ltb_lt in E. lia.
  - intros H. eapply allThree_mono; [exact Hsub|]. now apply Hclick.
  - intros H. eapply allThree_mono; [exact Hsub|]. now apply Hcomp.
Qed.

Lemma playNextTrack_view (w : World) :
  view (snd (playNextTrack w)) = view w
  \/ (1 <= currentTrack (gs w) < Z.of_nat (length (trackOrder (gs w)))
      /\ view (snd (playNextTrack w))
         = view (set_gs (set_currentTrack (currentTrack (gs w) + 1) (gs w)) w)).
Proof.
  unfold playNextTrack, bind, gets.
  destruct (Z.leb_spec (Z.of_nat (length (trackOrder (gs w)))) (currentTrack (gs w)));
    [now left|].
  unfold index.
  destruct (Z.ltb_spec (currentTrack (gs w) - 1) 0); [now left|].
  destruct (trackOrder (gs w) !! Z.to_nat (currentTrack (gs w) - 1)); [|now left].
  right. split; [lia|].
  unfold sendTelemetry, assign, modify, when, bind, ret, Math_random, randomBetween, setTimeout.
  cbn -[Z.leb Qltb]. 
  destruct (_ <=? _); [|reflexivity].
  destruct (Qltb _ _); unfold view, completionsInFlight; cbn;
    rewrite filter_snoc; cbn; rewrite Nat.add_0_r; reflexivity.
Qed.

Lemma Inv_playNextTrack (w : World) : Inv w -> Inv (snd (playNextTrack w)).
Proof.
  intros HI. destruct (playNextTrack_view w) as [Hv|[Hk Hv]]; [exact (Inv_view _ _ Hv HI)|].
  apply (Inv_view _ _ Hv). inv_open HI. cbn in *.
  rewrite Horder in Hk.
  constructor; cbn; try assumption.
  - lia.
  - intros k Hk'. specialize (Hdone k Hk'). lia.
  - intros H. specialize (Hbutton H). lia.
  - intros id Hid. destruct (Htimers id Hid) as (H1 & H2 & H3). repeat split; [exact H1|exact H2|lia].
Qed.

Lemma snd_async (m : M unit) (w : World) :
  view (snd (async m w)) = view (snd (m w)).
Proof. unfold async, try_catch. destruct (m w) as [[[]|e] w']; reflexivity. Qed.

Lemma Inv_async (m : M unit) (w : World) : Inv (snd (m w)) -> Inv (snd (async m w)).
Proof. apply Inv_view, snd_async. Qed.

Lemma filter_delete {A} (p : A -> bool) (l : list A) (i : nat) (x : A) :
  l !! i = Some x ->
  length (List.filter p l)
  = (length (List.filter p (delete i l)) + if p x then 1 else 0)%nat.
Proof.
  revert i. induction l as [|y l IH]; intros [|i] H; try discriminate.
  - injection H as ->. cbn. destruct (p x); cbn; lia.
  - cbn in H. specialize (IH i H).
    change (delete (S i) (y :: l)) with (y :: delete i l).
    cbn [List.filter]. destruct (p y); cbn [length]; lia.
Qed.

Lemma Inv_taskRun (now : Z) (ans : Answers) (i : nat) (w : World) :
  Inv w -> Inv (step (now, ans, TaskRun i) w).
Proof.
  intros HI. unfold step, handle, bind, gets.
  destruct (pending w !! i) as [[d t]|] eqn:Ei; [|exact HI].
  unfold modify. cbn [snd].
  set (w1 := set_pending (delete i (pending w)) w).
  pose proof (filter_delete isCompletionTask _ _ _ Ei) as Hcount.
  destruct t; cbn [runTask].
  - apply Inv_async, Inv_playNextTrack.
    apply (Inv_view w w1); [|exact HI].
    unfold view, completionsInFlight. subst w1. cbn in *. rewrite Hcount. f_equal. lia.
  - apply Inv_async. apply (Inv_view w); [|exact HI].
    rewrite keeps_view_playCurrentTrack.
    unfold view, completionsInFlight. subst w1. cbn in *. rewrite Hcount. f_equal. lia.
  - apply Inv_async. apply (Inv_view w); [|exact HI].
    rewrite keeps_view_noiseInteraction.
    unfold view, completionsInFlight. subst w1. cbn in *. rewrite Hcount. f_equal. lia.
  - apply (Inv_view w); [|exact HI].
    unfold view, completionsInFlight. subst w1. cbn in *. rewrite Hcount. f_equal. lia.
  - apply (Inv_view w); [|exact HI].
    unfold view, completionsInFlight. subst w1. cbn in *. rewrite Hcount. f_equal. lia.
  - apply Inv_async. inv_open HI.
    unfold completionTelemetry, bind, gets, sendTelemetry, modify, when, showMessage, render, ret.
    subst w1. unfold completionsInFlight, completedEvents in *.
    constructor; cbn in *; try assumption.
    rewrite <- Honce. unfold completedEvents, completionsInFlight. lia.
Qed.

Lemma keeps_of_view {T A} (f : View -> T) (m : M A) :
  keeps view m -> keeps (fun w => f (view w)) m.
Proof. intros H w. now rewrite H. Qed.

Lemma keeps_sideView_startSession (now : Z) (ans : Answers) :
  keeps sideView (startSession now ans).
Proof.
  pose proof (keeps_of_view (fun v => (vOnclick v, vEmitted v, vInFlight v)) _
                (keeps_view_createPlaylist (createResp ans) (addTracksResp ans))).
  pose proof (keeps_of_view (fun v => (vOnclick v, vEmitted v, vInFlight v)) _
                (keeps_view_transferPlayback (devicesResp ans) (transferResp ans))).
  pose proof (keeps_of_view (fun v => (vOnclick v, vEmitted v, vInFlight v)) _
                (keeps_view_playCurrentTrack (playResp ans))).
  unfold startSession. keeps_auto.
  all: intros w; reflexivity.
Qed.

Lemma Inv_idle (w : World) :
  Inv w -> mainButtonText (ui w) = "Start Session" ->
  currentTrack (gs w) = 0 /\ completed w = false
  /\ (forall k, k ∉ tracksCompleted (gs w)) /\ (forall id, intervals w !! id = None).
Proof.
  intros HI Hb. inv_open HI. cbn in *. specialize (Hbutton Hb).
  assert (Hno : forall k, k ∉ tracksCompleted (gs w)).
  { intros k Hk. specialize (Hdone k Hk). lia. }
  repeat split; [exact Hbutton| |exact Hno|].
  - unfold completed. destruct (truthyStr _) eqn:E; [|reflexivity].
    exfalso. apply (Hno 1), Hcomp; [reflexivity|lia].
  - intros id. destruct (intervals w !! id) eqn:E; [|reflexivity].
    destruct (Htimers id) as (_ & _ & H0); [eauto|contradiction].
Qed.

Lemma Inv_startSession (now : Z) (ans : Answers) (w : World) :
  Inv w -> mainButtonText (ui w) = "Start Session" ->
  Inv (snd (startSession now ans w)).
Proof.
  intros HI Hb.
  destruct (Inv_idle w HI Hb) as (Ht & Hc & Hno & Hni).
  destruct (startSession_cases now ans w) as [_ Hout].
  pose proof (keeps_sideView_startSession now ans w) as Hside.
  unfold sideView in Hside. cbn in Hside.
  pose proof (f_equal (fun p => fst (fst p)) Hside) as Hs1.
  pose proof (f_equal (fun p => snd (fst p)) Hside) as Hs2.
  pose proof (f_equal snd Hside) as Hs3. cbn in Hs1, Hs2, Hs3. clear Hside.
  set (w' := snd (startSession now ans w)) in *.
  inv_open HI. cbn in *. unfold Inv.
  destruct (setupFailure ans (gs w)).
  - destruct Hout as (_ & Hbt & _ & Hg & Hi).
    constructor; cbn; rewrite ?Hg, ?Hi, ?Hs1, ?Hs2, ?Hs3; cbn; try assumption.
    intros _. exact Ht.
  - destruct Hout as (Hg & Hi & Hbt & _).
    constructor; cbn; rewrite ?Hg, ?Hi, ?Hs1, ?Hs2, ?Hs3, ?Hbt; cbn; try assumption.
    + lia.
    + intros k Hk. exfalso. exact (Hno k Hk).
    + discriminate.
    + intros id [x Hx].
      destruct (decide (id = Pos.succ (nextTimer w))) as [->|Hne]; [repeat split; auto; lia|].
      rewrite lookup_insert_ne in Hx by congruence.
      destruct (decide (id = nextTimer w)) as [->|Hne2]; [repeat split; auto; lia|].
      rewrite lookup_insert_ne in Hx by congruence.
      rewrite Hni in Hx. discriminate.
Qed.

Lemma Inv_step (t : Turn) (w : World) : Inv w -> Inv (step t w).
Proof.
  intros HI. destruct t as [[now ans] ev]. destruct ev as [[st|]|id|i| |].
  - apply Inv_tick, HI.
  - exact HI.
  - unfold step, handle, bind, gets.
    destruct (intervals w !! id) as [[]|]; [| |exact HI].
    + apply (Inv_view w); [apply keeps_view_updateTimer|exact HI].
    + apply Inv_maybeUnlockCompletion, HI.
  - apply Inv_taskRun, HI.
  - unfold step, handle, bind, gets.
    destruct (mainButtonEnabled (ui w)); [|exact HI]. cbn [andb when].
    destruct (String.eqb_spec (mainButtonText (ui w)) "Start Session") as [Hb|_]; [|exact HI].
    apply Inv_async, Inv_startSession; assumption.
  - unfold step, handle, bind, gets.
    destruct (finishButtonOnclick (ui w)) eqn:Hon; [|exact HI]. cbn [when].
    destruct (completed w) eqn:Hc.
    + rewrite (async_ok _ _ _ (unlockCompletion_done now w Hc)). exact HI.
    + apply Inv_unlock; [exact HI|exact Hc|]. inv_open HI. now apply Hclick.
Qed.

Lemma Inv_run (turns : list Turn) : forall w, Inv w -> Inv (run turns w).
Proof.
  induction turns as [|t turns IH]; intros w HI; [exact HI|].
  cbn [run]. apply IH, Inv_step, HI.
Qed.

(** ** The invariant holds when the page is ready *)

Lemma generateSessionParameters_tail (w : World) :
  exists w1, generateSessionParameters w = generateTrackOrder w1 /\ view w1 = view w.
Proof.
  unfold generateSessionParameters. exec. branch; exec; [|branch; exec].
  all: eexists; split; [reflexivity|reflexivity].
Qed.

Lemma generateTrackOrder_view (w : World) :
  fst (generateTrackOrder w) = Ok tt ->
  exists order,
    length order = 3%nat
    /\ view (snd (generateTrackOrder w)) = view (set_gs (set_trackOrder order (gs w)) w).
Proof.
  unfold generateTrackOrder. rewrite bind_randomChoice, bind_Math_random.
  cbn [rng rngPos set_rngPos]. cbv zeta.
  destruct (index FILLER_POOL _) as [filler|].
  - destruct (Qltb _ _); [destruct (Qltb _ _)|]; intros _; eexists; split;
      [| reflexivity | | reflexivity | | reflexivity]; reflexivity.
  - destruct (Qltb _ _); [destruct (Qltb _ _)|]; discriminate.
Qed.

Lemma view_order_congr (w w' : World) (order : list string) :
  view w = view w' ->
  view (set_gs (set_trackOrder order (gs w)) w)
  = view (set_gs (set_trackOrder order (gs w')) w').
Proof.
  intros H.
  change (view (set_gs (set_trackOrder order (gs w)) w))
    with {| vCode := vCode (view w); vOrder := order; vTrack := vTrack (view w);
            vDone := vDone (view w); vUser := vUser (view w);
            vSessionTimer := vSessionTimer (view w);
            vUnlockTimer := vUnlockTimer (view w); vOnclick := vOnclick (view w);
            vButton := vButton (view w); vIntervals := vIntervals (view w);
            vEmitted := vEmitted (view w); vInFlight := vInFlight (view w) |}.
  now rewrite H.
Qed.

Lemma Inv_ready (w : World) : Ready w -> Inv w /\ mainButtonText (ui w) = "Start Session".
Proof.
  intros (page & tape & dev & country & me & ready & Hpage & Heq).
  unfold initializeGameBody in Heq. rewrite run_bind in Heq.
  destruct (truthyStr dev); [|discriminate].
  unfold assign at 1 in Heq. unfold modify at 1 in Heq.
  rewrite bind_assign in Heq. unfold spotifyApi in Heq.
  rewrite bind_assoc, bind_modify in Heq.
  destruct me as [profile|m]; [|discriminate].
  rewrite bind_ret, bind_assign, run_bind in Heq.
  match type of Heq with context [generateSessionParameters ?W] => set (w0 := W) in * end.
  destruct (generateSessionParameters_tail w0) as (w1 & Hgsp & Hv1).
  rewrite Hgsp in Heq.
  pose proof (generateTrackOrder_view w1) as Hgto.
  destruct (generateTrackOrder w1) as [[[]|e] w2]; [|discriminate].
  destruct Hgto as (order & Hlen & Hv2); [reflexivity|]. cbn [snd] in Hv2.
  destruct ready as [device|m]; [|discriminate].
  rewrite bind_ret, bind_assign in Heq.
  unfold showMessage, updateButton, render in Heq. rewrite bind_modify in Heq.
  unfold modify in Heq. injection Heq as <-.
  split; [|reflexivity].
  assert (Hv : view w2 = view (set_gs (set_trackOrder order (gs w0)) w0)).
  { rewrite Hv2. apply view_order_congr, Hv1. }
  unfold Inv.
  match goal with |- InvV (view ?W) =>
    assert (Hfinal : view W
            = {| vCode := vCode (view w2); vOrder := vOrder (view w2);
                 vTrack := vTrack (view w2); vDone := vDone (view w2);
                 vUser := vUser (view w2); vSessionTimer := vSessionTimer (view w2);
                 vUnlockTimer := vUnlockTimer (view w2);
                 vOnclick := vOnclick (view w2); vButton := "Start Session";
                 vIntervals := vIntervals (view w2); vEmitted := vEmitted (view w2);
                 vInFlight := vInFlight (view w2) |}) by reflexivity
  end.
  rewrite Hfinal, Hv. subst w0. cbn.
  constructor; cbn; try (now left); try assumption; try discriminate; try lia.
  all: try (rewrite Hpage; discriminate).
  all: try (intros k Hk; exfalso; exact (not_elem_of_empty k Hk)).
  intros id [x Hx]. rewrite lookup_empty in Hx. discriminate.
Qed.

(** ** Which tracks are completed *)

Lemma done_of_view (w w' : World) :
  view w' = view w -> tracksCompleted (gs w') = tracksCompleted (gs w).
Proof. intros H. exact (f_equal vDone H). Qed.

Lemma done_async (m : M unit) (w : World) :
  tracksCompleted (gs (snd (async m w))) = tracksCompleted (gs (snd (m w))).
Proof. apply done_of_view, snd_async. Qed.

Lemma done_unlockCompletion (now : Z) (w : World) :
  tracksCompleted (gs (snd (unlockCompletion now w))) = tracksCompleted (gs w).
Proof.
  pose proof (keeps_tickFrame_unlockCompletion now w) as H.
  exact (f_equal (fun p => fst (fst (fst (fst p)))) H).
Qed.

Lemma done_maybeUnlockCompletion (now : Z) (w : World) :
  tracksCompleted (gs (snd (maybeUnlockCompletion now w))) = tracksCompleted (gs w).
Proof.
  pose proof (keeps_tickFrame_maybeUnlockCompletion now w) as H.
  exact (f_equal (fun p => fst (fst (fst (fst p)))) H).
Qed.

Lemma done_step (t : Turn) (w : World) :
  tracksCompleted (gs (step t w))
  = match t with
    | (_, _, PlayerStateChanged (Some st)) => doneAfter (gs w) st
    | _ => tracksCompleted (gs w)
    end.
Proof.
  destruct t as [[now ans] ev]. destruct ev as [[st|]|id|i| |].
  - apply tick_frame.
  - reflexivity.
  - unfold step, handle, bind, gets.
    destruct (intervals w !! id) as [[]|]; [| |reflexivity].
    + apply done_of_view, keeps_view_updateTimer.
    + apply done_maybeUnlockCompletion.
  - unfold step, handle, bind, gets.
    destruct (pending w !! i) as [[d t]|]; [|reflexivity].
    unfold modify. cbn [snd].
    set (w1 := set_pending (delete i (pending w)) w).
    change (tracksCompleted (gs w)) with (tracksCompleted (gs w1)).
    destruct t; cbn [runTask]; rewrite ?done_async.
    + destruct (playNextTrack_view w1) as [H|[_ H]]; exact (f_equal vDone H).
    + apply done_of_view, keeps_view_playCurrentTrack.
    + apply done_of_view, keeps_view_noiseInteraction.
    + reflexivity.
    + reflexivity.
    + reflexivity.
  - unfold step, handle, bind, gets.
    destruct (_ && _); [|reflexivity]. cbn [when]. rewrite done_async.
    destruct (startSession_cases now ans w) as [_ H].
    destruct (setupFailure ans (gs w)).
    + destruct H as (_ & _ & _ & -> & _). reflexivity.
    + destruct H as (-> & _). reflexivity.
  - unfold step, handle, bind, gets.
    destruct (finishButtonOnclick (ui w)); [|reflexivity]. cbn [when].
    rewrite done_async. apply done_unlockCompletion.
Qed.

Lemma done_run (k : Z) (turns : list Turn) : forall w,
  k ∈ tracksCompleted (gs (run turns w)) ->
  k ∈ tracksCompleted (gs w) \/ everReached k turns w.
Proof.
  induction turns as [|t turns IH]; intros w Hk; [now left|].
  cbn [run] in Hk. destruct (IH _ Hk) as [H|H]; [|right; cbn; now right].
  rewrite done_step in H.
  destruct t as [[now ans] ev]. destruct ev as [[st|]|id|i| |]; try (now left).
  unfold doneAfter in H. destruct (reachesRatio (gs w) st) eqn:E; [|now left].
  apply elem_of_union in H as [H|H]; [|now left].
  apply elem_of_singleton in H. right. cbn. left. split; [congruence|exact E].
Qed.

Lemma Inv_reachable (w0 : World) (turns : list Turn) : Ready w0 -> Inv (run turns w0).
Proof. intros H. apply Inv_run, Inv_ready, H. Qed.

Lemma sampleReady_ready : Ready sampleReady.
Proof.
  exists blankPage, (fun _ => 1 # 2)%Q, (Some "dev1"), None, (Resolved "u1"), (Resolved "dev1").
  split; [reflexivity|]. vm_compute. reflexivity.
Defined.

(** C2. In every world of a run the completion check completes the
    session exactly when no code is set, the elapsed time has reached the
    session duration and as many tracks are completed as the order has;
    and when some track never reaches the ratio during the run, the
    session is not completed and the check does not complete it. *)
Theorem checkCompletion_transition (w0 : World) (turns : list Turn) (now : Z) :
  Ready w0 ->
  let w := run turns w0 in
  ((completed w = false /\ completed (snd (maybeUnlockCompletion now w)) = true)
   <-> (completionCode (gs w) = None
        /\ (sessionDuration (gs w) <= inject_Z (elapsedSince now (gs w)))%Q
        /\ size (tracksCompleted (gs w)) = length (trackOrder (gs w))))
  /\ (forall k, 1 <= k <= 3 -> ~ everReached k turns w0 ->
      completed w = false /\ completed (snd (maybeUnlockCompletion now w)) = false).
Proof.
  intros Hready. cbv zeta.
  pose proof (Inv_reachable w0 turns Hready) as HI.
  set (w := run turns w0) in *.
  assert (Hcases := maybeUnlockCompletion_cases now w).
  split.
  - split.
    + intros [Hc Hafter]. rewrite Hcases, Hc in Hafter.
      destruct (Qleb (sessionDuration (gs w)) _ && allTracksCompleted (gs w)) eqn:Efull.
      * apply andb_true_iff in Efull as [Hq Hall].
        inv_open HI. cbn in *. unfold completed in Hc.
        destruct Hcode as [Hcode|Hcode]; [|congruence].
        repeat split; [exact Hcode|now apply Qleb_true|].
        unfold allTracksCompleted in Hall. now apply Nat.eqb_eq in Hall.
      * exfalso.
        destruct (Qleb (earlyFinishThreshold (gs w)) _ && allTracksCompleted (gs w)).
        -- rewrite showEarlyFinishOption_eq in Hafter. cbn [snd] in Hafter.
           destruct (String.eqb _ _); unfold completed in *; cbn in Hafter; congruence.
        -- cbn in Hafter. congruence.
    + intros (Hcode & Hq & Hsize).
      assert (Hc : completed w = false) by (unfold completed; now rewrite Hcode).
      split; [exact Hc|]. rewrite Hcases, Hc.
      apply Qleb_true in Hq. rewrite Hq.
      unfold allTracksCompleted. rewrite Hsize, Nat.eqb_refl. cbn [andb].
      apply unlockCompletion_completes.
  - intros k Hk Hnever.
    assert (Hnot : k ∉ tracksCompleted (gs w)).
    { intros Hin. apply done_run in Hin as [Hin|Hin]; [|contradiction].
      destruct (Inv_ready w0 Hready) as [HI0 Hb].
      destruct (Inv_idle w0 HI0 Hb) as (_ & _ & Hno & _). exact (Hno k Hin). }
    assert (Hall : allTracksCompleted (gs w) = false).
    { destruct (allTracksCompleted (gs w)) eqn:E; [|reflexivity].
      exfalso. apply Hnot. exact (Inv_allTracksCompleted w HI E k Hk). }
    assert (Hc : completed w = false).
    { destruct (completed w) eqn:E; [|reflexivity].
      exfalso. apply Hnot. inv_open HI. cbn in *. exact (Hcomp E k Hk). }
    split; [exact Hc|].
    rewrite Hcases, Hc, Hall, !andb_false_r. exact Hc.
Qed.

(** C1. In every world of a run the completion transition has happened
    at most once: the [session_completed] payloads sent and the
    completions still waiting to send theirs add up to one when a code
    is set and to none otherwise, and no timer is live once a code is
    set.  With a code set every trigger is a no-op.  Without one, the
    transition sets a code, leaves no timer live and one payload to
    send, and a second trigger changes nothing. *)
Theorem completion_happens_once (w0 : World) (turns : list Turn) (now1 now2 : Z) :
  Ready w0 ->
  let w := run turns w0 in
  (completedEvents w + completionsInFlight w)%nat = (if completed w then 1%nat else 0%nat)
  /\ (completed w = true -> forall id, intervals w !! id = None)
  /\ (completionCode (gs w) <> None ->
      unlockCompletion now1 w = (Ok tt, w)
      /\ maybeUnlockCompletion now1 w = (Ok tt, w)
      /\ forall ans, step (now1, ans, FinishButtonClick) w = w)
  /\ (completionCode (gs w) = None ->
      let w1 := snd (async (unlockCompletion now1) w) in
      (exists code, completionCode (gs w1) = Some code
                    /\ Str.startsWith code "PM-" = true)
      /\ (forall id, intervals w1 !! id = None)
      /\ (completedEvents w1 + completionsInFlight w1)%nat = 1%nat
      /\ async (unlockCompletion now2) w1 = (Ok tt, w1)
      /\ maybeUnlockCompletion now2 w1 = (Ok tt, w1)).
Proof.
  intros Hready. cbv zeta.
  pose proof (Inv_reachable w0 turns Hready) as HI.
  set (w := run turns w0) in *.
  assert (Hlive : forall w', Inv w' -> completed w' = true ->
                             forall id, intervals w' !! id = None).
  { intros w' HI' Hc id. destruct (intervals w' !! id) eqn:E; [|reflexivity].
    inv_open HI'. cbn in *. destruct (Htimers id) as (_ & H & _); [eauto|].
    unfold completed in Hc. congruence. }
  split; [inv_open HI; exact Honce|].
  split; [apply Hlive, HI|].
  split.
  - intros Hset.
    assert (Hc : completed w = true).
    { inv_open HI. cbn in *. destruct Hcode as [H|H]; [contradiction|exact H]. }
    split; [apply unlockCompletion_done, Hc|].
    split; [apply maybeUnlockCompletion_done, Hc|].
    intros ans. unfold step, handle, bind, gets.
    destruct (finishButtonOnclick (ui w)); [|reflexivity]. cbn [when].
    now rewrite (async_ok _ _ _ (unlockCompletion_done now1 w Hc)).
  - intros Hnone.
    assert (Hc : completed w = false) by (unfold completed; now rewrite Hnone).
    pose proof (unlockCompletion_completes now1 w) as Hc1.
    inv_open HI. cbn in *.
    destruct (user (gs w)) as [uid|] eqn:Hu; [|congruence].
    destruct (unlockCompletion_fresh now1 w uid Hc Hu) as (code & Ht & Hp & Heq).
    rewrite (async_ok _ _ _ Heq) in *. cbn [snd] in *.
    split; [exists code; split; [reflexivity|exact Hp]|].
    split.
    { intros id. cbn [intervals].
      destruct (clearTimer _ _ !! id) eqn:E; [|reflexivity]. exfalso.
      assert (Hs : is_Some (clearTimer (unlockTimer (gs w))
                              (clearTimer (sessionTimer (gs w)) (intervals w)) !! id))
        by eauto.
      apply clearTimer_lookup in Hs as [Hs Hu2].
      apply clearTimer_lookup in Hs as [Hs Hs2].
      destruct (Htimers id Hs) as [[?|?] _]; congruence. }
    split.
    { unfold completed in Hc. rewrite Hc in Honce.
      unfold completedEvents, completionsInFlight in *. cbn.
      rewrite filter_snoc. cbn. lia. }
    split; [apply async_ok|]; [apply unlockCompletion_done|apply maybeUnlockCompletion_done];
      exact Hc1.
Qed.


Lemma completion_happens_once_witness :
  let w := run [(1000, sampleAnswers, MainButtonClick)] sampleReady in
  let w1 := snd (async (unlockCompletion 650000) w) in
  (exists code, completionCode (gs w1) = Some code /\ Str.startsWith code "PM-" = true)
  /\ (forall id, intervals w1 !! id = None)
  /\ (completedEvents w1 + completionsInFlight w1)%nat = 1%nat
  /\ async (unlockCompletion 651000) w1 = (Ok tt, w1)
  /\ maybeUnlockCompletion 651000 w1 = (Ok tt, w1).
Proof.
  refine (proj2 (proj2 (proj2
            (completion_happens_once sampleReady [(1000, sampleAnswers, MainButtonClick)]
               650000 651000 sampleReady_ready))) _).
  vm_compute. reflexivity.
Defined.

Lemma checkCompletion_transition_witness :
  let w := run [ (1000, sampleAnswers, MainButtonClick);
                 (200000, sampleAnswers, tick 199500 200000);
                 (200100, sampleAnswers, TaskRun 0);
                 (205000, sampleAnswers, TaskRun 0);
                 (400000, sampleAnswers, tick 189500 190000);
                 (400100, sampleAnswers, TaskRun 0);
                 (405000, sampleAnswers, TaskRun 0);
                 (600000, sampleAnswers, tick 180000 200000) ] sampleReady in
  completed w = false /\ completed (snd (maybeUnlockCompletion 760000 w)) = true.
Proof.
  refine (proj2 (proj1
            (checkCompletion_transition sampleReady
               [ (1000, sampleAnswers, MainButtonClick);
                 (200000, sampleAnswers, tick 199500 200000);
                 (200100, sampleAnswers, TaskRun 0);
                 (205000, sampleAnswers, TaskRun 0);
                 (400000, sampleAnswers, tick 189500 190000);
                 (400100, sampleAnswers, TaskRun 0);
                 (405000, sampleAnswers, TaskRun 0);
                 (600000, sampleAnswers, tick 180000 200000) ]
               760000 sampleReady_ready)) _).
  split; [vm_compute; reflexivity|].
  split; [apply Qleb_true; vm_compute; reflexivity|vm_compute; reflexivity].
Defined.


(* ================================================================== *)
(** * Further properties of the session code *)

(** ** Random helpers *)

Lemma get_contains (s : string) : forall (n : nat) (c : ascii),
  String.get n s = Some c -> Str.contains c s = true.
Proof.
  induction s as [|d s IH]; intros [|n] c H; cbn in H; try discriminate.
  - injection H as ->. cbn. now rewrite Ascii.eqb_refl.
  - cbn. rewrite (IH n c H). apply orb_true_r.
Qed.

Lemma get_in_range (s : string) : forall (n : nat),
  (n < String.length s)%nat -> exists c, String.get n s = Some c.
Proof.
  induction s as [|d s IH]; intros [|n] H; cbn in *; try lia; eauto.
  apply IH. lia.
Qed.

Lemma charAt_in_range (s : string) (i : Z) :
  0 <= i < Z.of_nat (String.length s) ->
  exists c, Str.charAt s i = String c EmptyString /\ Str.contains c s = true.
Proof.
  intros [H0 H1]. unfold Str.charAt.
  destruct (Z.ltb_spec i 0); [lia|].
  destruct (get_in_range s (Z.to_nat i)) as [c Hc]; [lia|].
  rewrite Hc. exists c. split; [reflexivity|]. eapply get_contains, Hc.
Qed.

Lemma length_append (a b : string) :
  String.length (a ++ b) = (String.length a + String.length b)%nat.
Proof.
  induction a as [|c a IH]; [reflexivity|].
  change (S (String.length (a ++ b)) = S (String.length a + String.length b)).
  now rewrite IH.
Qed.

Lemma allIn_append (alphabet a b : string) :
  allIn alphabet (a ++ b) = allIn alphabet a && allIn alphabet b.
Proof.
  induction a as [|c a IH]; [reflexivity|].
  change (Str.contains c alphabet && allIn alphabet (a ++ b)
          = Str.contains c alphabet && allIn alphabet a && allIn alphabet b).
  rewrite IH. now rewrite andb_assoc.
Qed.

Lemma codeLoop_format (n : nat) : forall (code : string) (w : World),
  (forall k, 0 <= rng w k < 1)%Q ->
  exists tail,
    codeLoop n code w = (Ok (code ++ tail), set_rngPos (n + rngPos w) w)
    /\ String.length tail = n /\ allIn CODE_CHARS tail = true.
Proof.
  induction n as [|n IH]; intros code w Hr.
  - exists EmptyString. rewrite append_empty. destruct w. repeat split.
  - cbn [codeLoop]. unfold bind, Math_random.
    destruct (charAt_in_range CODE_CHARS
                (Math_floor (rng w (rngPos w) * inject_Z (Z.of_nat (String.length CODE_CHARS)))))
      as (c & Hc & Hin).
    { apply floor_range; [apply Hr|reflexivity]. }
    rewrite Hc.
    match goal with |- context [codeLoop n ?c ?W] =>
      destruct (IH c W) as (tail & -> & Hlen & Hall) end; [exact Hr|].
    exists (String c tail). rewrite append_assoc.
    replace (n + rngPos (set_rngPos (S (rngPos w)) w))%nat with (S n + rngPos w)%nat
      by (cbn; lia).
    split; [destruct w; reflexivity|].
    split; [cbn; now rewrite Hlen|]. cbn [allIn]. now rewrite Hin, Hall.
Qed.

(** X1. For draws in [0,1) the completion code is the prefix PM-
    followed by exactly six characters of the alphabet 0-9A-Z, and six
    draws are consumed. *)
Theorem generateCompletionCode_format (w : World) :
  (forall k, 0 <= rng w k < 1)%Q ->
  exists tail,
    generateCompletionCode w = (Ok ("PM-" ++ tail), set_rngPos (6 + rngPos w) w)
    /\ String.length tail = 6%nat
    /\ allIn CODE_CHARS tail = true.
Proof. intros Hr. exact (codeLoop_format 6 "PM-" w Hr). Qed.

Lemma generateCompletionCode_format_witness :
  exists tail,
    generateCompletionCode (world0 blankPage (fun _ => 1 # 2))
    = (Ok ("PM-" ++ tail), set_rngPos 6 (world0 blankPage (fun _ => 1 # 2)))
    /\ String.length tail = 6%nat
    /\ allIn CODE_CHARS tail = true.
Proof.
  apply (generateCompletionCode_format (world0 blankPage (fun _ => 1 # 2))).
  intros k. split; [discriminate|reflexivity].
Defined.



(** X3. For a draw in [0,1) [randomChoice] returns an element of a
    non-empty array, never [undefined]; on the empty array it returns
    [undefined]. *)
Theorem randomChoice_member {A} (array : list A) (w : World) :
  (0 <= rng w (rngPos w) < 1)%Q ->
  match fst (randomChoice array w) with
  | Ok (Some x) => x ∈ array
  | Ok None => array = []
  | Throw _ => False
  end.
Proof.
  intros Hr. unfold randomChoice, bind, Math_random, ret. cbn [fst].
  destruct array as [|a array].
  - unfold index. destruct (_ <? _); reflexivity.
  - destruct (index_in_range (a :: array)
                (Math_floor (rng w (rngPos w) * inject_Z (Z.of_nat (length (a :: array))))))
      as (x & -> & Hx); [|exact Hx].
    apply floor_range; [exact Hr|]. cbn [length]. lia.
Qed.

Lemma randomChoice_member_witness :
  match fst (randomChoice FILLER_POOL (world0 blankPage (fun _ => 1 # 2))) with
  | Ok (Some x) => x ∈ FILLER_POOL
  | Ok None => FILLER_POOL = []
  | Throw _ => False
  end.
Proof.
  apply (randomChoice_member FILLER_POOL (world0 blankPage (fun _ => 1 # 2))).
  split; [discriminate|reflexivity].
Defined.

(** ** Session parameters *)



Lemma normalizeTrackUri_fixed (s : string) :
  Str.startsWith s TRACK_PREFIX = true -> normalizeTrackUri s = s.
Proof. intros H. unfold normalizeTrackUri. now rewrite H. Qed.

(** X5. For draws in [0,1) the track order is a rearrangement of the
    anchor track, the primary track and one filler of the pool; the
    filler is never first and the anchor never last. *)
Theorem generateTrackOrder_shape (w : World) :
  (0 <= rng w (rngPos w) < 1)%Q ->
  exists filler,
    filler ∈ FILLER_POOL
    /\ Permutation (trackOrder (gs (snd (generateTrackOrder w))))
                   [ANCHOR_TRACK; YOUR_TRACK; filler]
    /\ head (trackOrder (gs (snd (generateTrackOrder w)))) <> Some filler
    /\ last (trackOrder (gs (snd (generateTrackOrder w)))) <> Some ANCHOR_TRACK.
Proof.
  intros Hr. destruct (pickedFiller_defined _ Hr) as (filler & Hf & Hin).
  exists filler. split; [exact Hin|].
  rewrite (generateTrackOrder_eq w filler Hf).
  cbn [snd gs set_gs trackOrder set_trackOrder].
  assert (Hn : normalizeTrackUri filler = filler).
  { unfold FILLER_POOL in Hin.
    repeat (apply elem_of_cons in Hin as [->|Hin]; [reflexivity|]).
    now apply elem_of_nil in Hin. }
  assert (Hne : filler <> ANCHOR_TRACK /\ filler <> YOUR_TRACK).
  { unfold FILLER_POOL in Hin.
    repeat (apply elem_of_cons in Hin as [->|Hin]; [split; discriminate|]).
    now apply elem_of_nil in Hin. }
  destruct Hne as [Hne1 Hne2].
  unfold chosenOrder.
  destruct (Qltb _ _); [destruct (Qltb _ _)|]; cbn [map]; rewrite Hn;
    change (normalizeTrackUri ANCHOR_TRACK) with ANCHOR_TRACK;
    change (normalizeTrackUri YOUR_TRACK) with YOUR_TRACK.
  - split; [apply perm_swap|]. split; cbn; congruence.
  - split; [apply perm_skip, perm_swap|]. split; cbn; [congruence|discriminate].
  - split; [reflexivity|]. split; cbn; congruence.
Qed.

Lemma generateTrackOrder_shape_witness :
  exists filler,
    filler ∈ FILLER_POOL
    /\ Permutation (trackOrder (gs (snd (generateTrackOrder
                                           (world0 blankPage (fun _ => 1 # 2))))))
                   [ANCHOR_TRACK; YOUR_TRACK; filler]
    /\ head (trackOrder (gs (snd (generateTrackOrder
                                    (world0 blankPage (fun _ => 1 # 2)))))) <> Some filler
    /\ last (trackOrder (gs (snd (generateTrackOrder
                                    (world0 blankPage (fun _ => 1 # 2)))))) <> Some ANCHOR_TRACK.
Proof.
  apply (generateTrackOrder_shape (world0 blankPage (fun _ => 1 # 2))).
  split; [discriminate|reflexivity].
Defined.

(** ** Track identifiers *)





(** ** Progress display *)

Lemma Math_round_percent (pos dur : Z) :
  0 <= pos <= dur -> 0 < dur ->
  0 <= Math_round (inject_Z pos / inject_Z dur * 100) <= 100.
Proof.
  intros Hp Hd. unfold Math_round.
  assert (Hd' : (0 < inject_Z dur)%Q)
    by (change 0%Q with (inject_Z 0); rewrite <- Zlt_Qlt; lia).
  assert (H0 : (0 <= inject_Z pos / inject_Z dur)%Q).
  { apply Qle_shift_div_l; [exact Hd'|]. rewrite Qmult_0_l.
    change 0%Q with (inject_Z 0). rewrite <- Zle_Qle. lia. }
  assert (H1 : (inject_Z pos / inject_Z dur <= 1)%Q).
  { apply Qle_shift_div_r; [exact Hd'|]. rewrite Qmult_1_l. rewrite <- Zle_Qle. lia. }
  set (q := (inject_Z pos / inject_Z dur)%Q) in *.
  split.
  - assert (H : (inject_Z 0 <= q * 100 + (1 # 2))%Q)
      by (change (inject_Z 0) with 0%Q; lra).
    apply Qfloor_resp_le in H. now rewrite Qfloor_Z in H.
  - assert (H : (q * 100 + (1 # 2) <= inject_Z 100 + (1 # 2))%Q)
      by (change (inject_Z 100) with 100%Q; lra).
    apply Qfloor_resp_le in H.
    replace (Qfloor (inject_Z 100 + (1 # 2))) with 100 in H by reflexivity.
    exact H.
Qed.

(** X7. A tick whose position lies between 0 and its duration writes a
    progress percentage between 0 and 100 for the current track, or
    writes nothing. *)
Theorem tick_progress_percentage (now : Z) (st : PlayerState) (w : World) :
  0 <= position st <= duration st ->
  let shown := progressShown (ui (snd (handlePlayerStateChanged now (Some st) w))) in
  shown = progressShown (ui w)
  \/ exists p, shown = (currentTrack (gs w), p) :: progressShown (ui w) /\ 0 <= p <= 100.
Proof.
  intros Hp. cbv zeta.
  destruct (tick_frame now st w) as (_ & _ & _ & _ & -> & _).
  unfold shownAfter. destruct (_ && _); [|now left].
  right. eexists. split; [reflexivity|].
  destruct (Z.ltb_spec 0 (duration st)).
  - apply Math_round_percent; assumption.
  - vm_compute. split; discriminate.
Qed.

Lemma tick_progress_percentage_witness :
  let shown := progressShown (ui (snd (handlePlayerStateChanged 2000
                 (Some {| position := 50000; duration := 200000; paused := false;
                          current_track := None |}) sampleStarted))) in
  shown = progressShown (ui sampleStarted)
  \/ exists p, shown = (currentTrack (gs sampleStarted), p) :: progressShown (ui sampleStarted)
               /\ 0 <= p <= 100.
Proof.
  apply (tick_progress_percentage 2000
           {| position := 50000; duration := 200000; paused := false; current_track := None |}
           sampleStarted).
  cbn. lia.
Defined.

(** ** The session clock *)

Lemma padStart2_twoDigits (n : Z) :
  0 <= n < 100 -> padStart2 (toString n) = twoDigits n.
Proof.
  intros Hn.
  assert (Hall : forallb (fun k => String.eqb (padStart2 (toString (Z.of_nat k)))
                                     (twoDigits (Z.of_nat k)))
                   (seq 0 100) = true) by (vm_compute; reflexivity).
  rewrite forallb_forall in Hall.
  specialize (Hall (Z.to_nat n)).
  rewrite Z2Nat.id in Hall by lia.
  apply String.eqb_eq, Hall, in_seq. lia.
Qed.

(** X8. For an elapsed time below one hundred minutes [formatTime]
    prints the whole minutes and the remaining whole seconds, each with
    two digits, separated by a colon; the seconds are below sixty. *)
Theorem formatTime_two_fields (ms : Z) :
  0 <= ms < 6000000 ->
  formatTime ms = twoDigits (ms / 60000) ++ ":" ++ twoDigits (ms mod 60000 / 1000)
  /\ 0 <= ms mod 60000 / 1000 < 60.
Proof.
  intros Hms. unfold formatTime. cbv zeta.
  assert (Hm : 0 <= ms / 60000 < 100).
  { split; [apply Z.div_pos; lia|apply Z.div_lt_upper_bound; lia]. }
  assert (Hrem : Z.rem ms 60000 = ms mod 60000) by (apply Z.rem_mod_nonneg; lia).
  assert (Hmod : 0 <= ms mod 60000 < 60000) by (apply Z.mod_pos_bound; lia).
  assert (Hs : 0 <= ms mod 60000 / 1000 < 60).
  { split; [apply Z.div_pos; lia|apply Z.div_lt_upper_bound; lia]. }
  rewrite Hrem, !padStart2_twoDigits by lia. split; [reflexivity|exact Hs].
Qed.

Lemma formatTime_two_fields_witness :
  formatTime 754321 = "12:34" /\ 0 <= 754321 mod 60000 / 1000 < 60.
Proof.
  destruct (formatTime_two_fields 754321) as [H1 H2]; [lia|].
  split; [rewrite H1; reflexivity|exact H2].
Defined.

(** ** Runs of the session *)

Lemma tracksCompleted_step_grows (t : Turn) (w : World) :
  tracksCompleted (gs w) ⊆ tracksCompleted (gs (step t w)).
Proof.
  rewrite done_step. destruct t as [[now ans] ev].
  destruct ev as [[st|]|id|i| |]; try reflexivity.
  unfold doneAfter. destruct (reachesRatio _ _); [|reflexivity].
  intros k Hk. apply elem_of_union. now right.
Qed.

(** X9. The set of completed tracks never shrinks, whatever happens. *)
Theorem tracksCompleted_never_shrinks (turns : list Turn) (w : World) :
  tracksCompleted (gs w) ⊆ tracksCompleted (gs (run turns w)).
Proof.
  revert w. induction turns as [|t turns IH]; intros w; [reflexivity|].
  cbn [run]. etransitivity; [apply tracksCompleted_step_grows|apply IH].
Qed.

(** X10. In every world of a run the track order has three entries, the
    current track index stays between 0 and 3, and a track is marked as
    completed only if it is or has been the current one. *)
Theorem currentTrack_stays_in_range (w0 : World) (turns : list Turn) :
  Ready w0 ->
  let w := run turns w0 in
  length (trackOrder (gs w)) = 3%nat
  /\ 0 <= currentTrack (gs w) <= 3
  /\ forall k, k ∈ tracksCompleted (gs w) -> 1 <= k <= currentTrack (gs w).
Proof.
  intros Hready. cbv zeta.
  pose proof (Inv_reachable w0 turns Hready) as HI. inv_open HI. cbn in *.
  split; [exact Horder|]. split; [exact Htrack|exact Hdone].
Qed.

Lemma currentTrack_stays_in_range_witness :
  let w := run [ (1000, sampleAnswers, MainButtonClick);
                 (200000, sampleAnswers, tick 199500 200000);
                 (200100, sampleAnswers, TaskRun 0) ] sampleReady in
  length (trackOrder (gs w)) = 3%nat
  /\ 0 <= currentTrack (gs w) <= 3
  /\ forall k, k ∈ tracksCompleted (gs w) -> 1 <= k <= currentTrack (gs w).
Proof.
  exact (currentTrack_stays_in_range sampleReady
           [ (1000, sampleAnswers, MainButtonClick);
             (200000, sampleAnswers, tick 199500 200000);
             (200100, sampleAnswers, TaskRun 0) ] sampleReady_ready).
Defined.

(** X11. In every world of a run, a completion code is set, or the
    finish button carries its handler, only when all three tracks are
    completed and the third track is the current one: neither trigger
    can complete a session with a track left. *)
Theorem completion_needs_all_tracks (w0 : World) (turns : list Turn) :
  Ready w0 ->
  let w := run turns w0 in
  completed w = true \/ finishButtonOnclick (ui w) = true ->
  (forall k, 1 <= k <= 3 -> k ∈ tracksCompleted (gs w)) /\ currentTrack (gs w) = 3.
Proof.
  intros Hready. cbv zeta. intros Hor.
  pose proof (Inv_reachable w0 turns Hready) as HI. inv_open HI. cbn in *.
  assert (Hall : allThree (tracksCompleted (gs (run turns w0)))).
  { destruct Hor as [H|H]; [apply Hcomp|apply Hclick]; exact H. }
  split; [exact Hall|].
  specialize (Hdone 3 (Hall 3 ltac:(lia))). lia.
Qed.

Lemma completion_needs_all_tracks_witness :
  let w := run [ (1000, sampleAnswers, MainButtonClick);
                 (200000, sampleAnswers, tick 199500 200000);
                 (200100, sampleAnswers, TaskRun 0);
                 (205000, sampleAnswers, TaskRun 0);
                 (400000, sampleAnswers, tick 189500 190000);
                 (400100, sampleAnswers, TaskRun 0);
                 (405000, sampleAnswers, TaskRun 0);
                 (600000, sampleAnswers, tick 180000 200000);
                 (760000, sampleAnswers, IntervalFired 2%positive) ] sampleReady in
  (forall k, 1 <= k <= 3 -> k ∈ tracksCompleted (gs w)) /\ currentTrack (gs w) = 3.
Proof.
  refine (completion_needs_all_tracks sampleReady
            [ (1000, sampleAnswers, MainButtonClick);
              (200000, sampleAnswers, tick 199500 200000);
              (200100, sampleAnswers, TaskRun 0);
              (205000, sampleAnswers, TaskRun 0);
              (400000, sampleAnswers, tick 189500 190000);
              (400100, sampleAnswers, TaskRun 0);
              (405000, sampleAnswers, TaskRun 0);
              (600000, sampleAnswers, tick 180000 200000);
              (760000, sampleAnswers, IntervalFired 2%positive) ] sampleReady_ready _).
  left. vm_compute. reflexivity.
Defined.

(** X12. Once a session has been started, a click on the main button
    does nothing: the button no longer reads 'Start Session', so the
    session cannot be started a second time. *)
Theorem started_session_is_not_restarted (w0 : World) (turns : list Turn)
    (now : Z) (ans : Answers) :
  Ready w0 ->
  let w := run turns w0 in
  currentTrack (gs w) <> 0 ->
  step (now, ans, MainButtonClick) w = w.
Proof.
  intros Hready. cbv zeta. intros Hstarted.
  pose proof (Inv_reachable w0 turns Hready) as HI. inv_open HI. cbn in *.
  unfold step, handle, bind, gets.
  destruct (String.eqb_spec (mainButtonText (ui (run turns w0))) "Start Session") as [Hb|_].
  - exfalso. exact (Hstarted (Hbutton Hb)).
  - rewrite andb_false_r. reflexivity.
Qed.

Lemma started_session_is_not_restarted_witness :
  let w := run [(1000, sampleAnswers, MainButtonClick)] sampleReady in
  step (5000, sampleAnswers, MainButtonClick) w = w.
Proof.
  refine (started_session_is_not_restarted sampleReady
            [(1000, sampleAnswers, MainButtonClick)] 5000 sampleAnswers
            sampleReady_ready _).
  vm_compute. discriminate.
Defined.

(** X13. In every world of a run each live interval timer is the one
    stored in [gameState.sessionTimer] or in [gameState.unlockTimer]
    (so at most two are live), and timers are live only between the
    start of the session and its completion. *)
Theorem live_timers_are_the_stored_ones (w0 : World) (turns : list Turn)
    (id : positive) (callback : Interval) :
  Ready w0 ->
  let w := run turns w0 in
  intervals w !! id = Some callback ->
  (sessionTimer (gs w) = Some id \/ unlockTimer (gs w) = Some id)
  /\ completed w = false /\ 1 <= currentTrack (gs w).
Proof.
  intros Hready. cbv zeta. intros Hlive.
  pose proof (Inv_reachable w0 turns Hready) as HI. inv_open HI. cbn in *.
  destruct (Htimers id) as (H1 & H2 & H3); [eauto|].
  repeat split; [exact H1|exact H2|lia].
Qed.

Lemma live_timers_are_the_stored_ones_witness :
  let w := run [(1000, sampleAnswers, MainButtonClick)] sampleReady in
  (sessionTimer (gs w) = Some 2%positive \/ unlockTimer (gs w) = Some 2%positive)
  /\ completed w = false /\ 1 <= currentTrack (gs w).
Proof.
  refine (live_timers_are_the_stored_ones sampleReady
            [(1000, sampleAnswers, MainButtonClick)] 2%positive IMaybeUnlockCompletion
            sampleReady_ready _).
  vm_compute. reflexivity.
Defined.


(** ** Observations that no handler touches *)

Section Untouched.
Context {T : Type} (obs : World -> T).
Hypothesis obs_rng : forall w n, obs (set_rngPos n w) = obs w.

Lemma keeps_codeLoop (n : nat) : forall code, keeps obs (codeLoop n code).
Proof.
  induction n as [|n IH]; intros code; cbn [codeLoop]; [apply keeps_ret|].
  apply keeps_bind; [intros w; apply obs_rng|]. intros r. apply IH.
Qed.

Lemma keeps_mapNormalize (order : list (option string)) : keeps obs (mapNormalize order).
Proof.
  induction order as [|[t|] order IH]; cbn [mapNormalize].
  - apply keeps_ret.
  - apply keeps_bind; [exact IH|]. intros us. apply keeps_ret.
  - apply keeps_throw.
Qed.
End Untouched.

Ltac keeps_more :=
  repeat first
    [ match goal with
      | |- keeps _ (codeLoop _ _) => apply keeps_codeLoop; intros ? ?; reflexivity
      | |- keeps _ (mapNormalize _) => apply keeps_mapNormalize
      | |- keeps _ (bind _ _) => apply keeps_bind; [|intros ?]
      | |- keeps _ (try_catch _ _) => apply keeps_try_catch; [|intros ?]
      | |- keeps _ (when _ _) => apply keeps_when
      | |- keeps _ (async _) => apply keeps_async; [intros ? ?; reflexivity|]
      | |- keeps _ (ret _) => apply keeps_ret
      | |- keeps _ (throw _) => apply keeps_throw
      | |- keeps _ (if ?b then _ else _) => destruct b
      | |- keeps _ (match ?x with _ => _ end) => destruct x
      | |- keeps _ _ => assumption
      | |- keeps _ _ => solve [intros ?; reflexivity]
      | |- keeps _ _ => keeps_leaf
      end ].

Ltac unfold_session :=
  unfold startSession, handlePlayerStateChanged, createPlaylist, transferPlayback,
    playNextTrack, playCurrentTrack, scheduleNoiseInteraction, maybeUnlockCompletion,
    showEarlyFinishOption, unlockCompletion, generateCompletionCode, updateTimer,
    updateTrackProgress, completionTelemetry.

Lemma keeps_noiseView_tick now state : keeps noiseView (handlePlayerStateChanged now state).
Proof. unfold_session. keeps_more. Qed.

Lemma keeps_noiseView_maybeUnlock now : keeps noiseView (maybeUnlockCompletion now).
Proof. unfold_session. keeps_more. Qed.

Lemma keeps_noiseView_unlock now : keeps noiseView (unlockCompletion now).
Proof. unfold_session. keeps_more. Qed.

Lemma keeps_noiseView_startSession now ans : keeps noiseView (startSession now ans).
Proof. unfold_session. keeps_more. Qed.

Lemma keeps_noiseView_playNextTrack : keeps noiseView playNextTrack.
Proof. unfold_session. keeps_more. Qed.

Lemma keeps_noiseView_playCurrentTrack r : keeps noiseView (playCurrentTrack r).
Proof. unfold_session. keeps_more. Qed.

Lemma keeps_noiseView_completionTelemetry e u : keeps noiseView (completionTelemetry e u).
Proof. unfold_session. keeps_more. Qed.

Lemma keeps_noiseView_updateTimer now : keeps noiseView (updateTimer now).
Proof. unfold_session. keeps_more. Qed.

Lemma keeps_noiseView_init dev country me ready :
  keeps noiseView (initializeGameBody dev country me ready).
Proof.
  unfold initializeGameBody, generateSessionParameters, generateTrackOrder. keeps_more.
Qed.

Lemma noiseGuard_view (w w' : World) : noiseView w' = noiseView w -> noiseGuard w -> noiseGuard w'.
Proof.
  unfold noiseView, noiseGuard. intros H.
  pose proof (f_equal fst H) as H1. pose proof (f_equal snd H) as H2. cbn in H1, H2.
  now rewrite H1, H2.
Qed.

Lemma noiseGuard_async (m : M unit) (w : World) :
  noiseGuard (snd (m w)) -> noiseGuard (snd (async m w)).
Proof.
  unfold async, try_catch. destruct (m w) as [[[]|e] w']; cbn; [trivial|].
  apply noiseGuard_view. reflexivity.
Qed.

Lemma noiseGuard_noiseInteraction (v : Q) (w : World) :
  noiseGuard w -> noiseGuard (snd (noiseInteraction v w)).
Proof.
  intros HG. unfold noiseInteraction, bind, gets.
  destruct (negb (isPlaying (gs w)) || noiseApplied (gs w)) eqn:E; [exact HG|].
  apply orb_false_iff in E as [_ Ha].
  unfold noiseGuard in *. rewrite Ha in HG.
  assert (H0 : noiseCmds w = 0%nat) by lia.
  unfold assign, modify, Math_random, randomBetween, player, setTimeout, bind, ret.
  cbn -[Qltb Qmax]. destruct (Qltb _ _); [|destruct (Qltb _ _)];
    unfold noiseCmds in *; cbn; lia.
Qed.

Lemma noiseGuard_step (t : Turn) (w : World) : noiseGuard w -> noiseGuard (step t w).
Proof.
  intros HG. destruct t as [[now ans] ev]. destruct ev as [state|id|i| |].
  - apply (noiseGuard_view w); [apply keeps_noiseView_tick|exact HG].
  - unfold step, handle, bind, gets.
    destruct (intervals w !! id) as [[]|]; [| |exact HG].
    + apply (noiseGuard_view w); [apply keeps_noiseView_updateTimer|exact HG].
    + apply (noiseGuard_view w); [apply keeps_noiseView_maybeUnlock|exact HG].
  - unfold step, handle, bind, gets.
    destruct (pending w !! i) as [[d t]|]; [|exact HG].
    unfold modify. cbn [snd].
    set (w1 := set_pending (delete i (pending w)) w).
    assert (HG1 : noiseGuard w1) by exact HG.
    destruct t; cbn [runTask]; try apply noiseGuard_async.
    + apply (noiseGuard_view w1); [apply keeps_noiseView_playNextTrack|exact HG1].
    + apply (noiseGuard_view w1); [apply keeps_noiseView_playCurrentTrack|exact HG1].
    + apply noiseGuard_noiseInteraction, HG1.
    + apply (noiseGuard_view w1); [reflexivity|exact HG1].
    + apply (noiseGuard_view w1); [reflexivity|exact HG1].
    + apply (noiseGuard_view w1); [apply keeps_noiseView_completionTelemetry|exact HG1].
  - unfold step, handle, bind, gets. destruct (_ && _); [|exact HG]. cbn [when].
    apply noiseGuard_async.
    apply (noiseGuard_view w); [apply keeps_noiseView_startSession|exact HG].
  - unfold step, handle, bind, gets. destruct (finishButtonOnclick _); [|exact HG].
    cbn [when]. apply noiseGuard_async.
    apply (noiseGuard_view w); [apply keeps_noiseView_unlock|exact HG].
Qed.

Lemma noiseGuard_run (turns : list Turn) : forall w, noiseGuard w -> noiseGuard (run turns w).
Proof.
  induction turns as [|t turns IH]; intros w HG; [exact HG|].
  cbn [run]. apply IH, noiseGuard_step, HG.
Qed.

Lemma noiseGuard_ready (w : World) : Ready w -> noiseGuard w.
Proof.
  intros (page & tape & dev & country & me & ready & _ & Heq).
  pose proof (keeps_noiseView_init dev country me ready (world0 page tape)) as H.
  rewrite Heq in H. cbn [snd] in H.
  apply (noiseGuard_view _ _ H). unfold noiseGuard. cbn. lia.
Qed.

(** X14. Noise is injected at most once per session: in every world of a
    run at most one noise interaction (a pause or a volume dip) has been
    started, none while [noiseApplied] is false, and once [noiseApplied]
    is set the noise callback does nothing. *)
Theorem noise_at_most_once (w0 : World) (turns : list Turn) (originalVol : Q) :
  Ready w0 ->
  let w := run turns w0 in
  (noiseCmds w <= 1)%nat
  /\ (noiseApplied (gs w) = false -> noiseCmds w = 0%nat)
  /\ (noiseApplied (gs w) = true -> noiseInteraction originalVol w = (Ok tt, w)).
Proof.
  intros Hready. cbv zeta.
  pose proof (noiseGuard_run turns w0 (noiseGuard_ready w0 Hready)) as HG.
  unfold noiseGuard in HG.
  split; [destruct (noiseApplied _); lia|].
  split; [intros H; rewrite H in HG; lia|].
  intros H. unfold noiseInteraction, bind, gets. rewrite H, orb_true_r. reflexivity.
Qed.

Lemma noise_at_most_once_witness :
  let w := run [ (1000, sampleAnswers, MainButtonClick);
                 (200000, sampleAnswers, tick 199500 200000);
                 (200100, sampleAnswers, TaskRun 0) ] sampleReady in
  (noiseCmds w <= 1)%nat
  /\ (noiseApplied (gs w) = false -> noiseCmds w = 0%nat)
  /\ (noiseApplied (gs w) = true -> noiseInteraction 0.8 w = (Ok tt, w)).
Proof.
  exact (noise_at_most_once sampleReady
           [ (1000, sampleAnswers, MainButtonClick);
             (200000, sampleAnswers, tick 199500 200000);
             (200100, sampleAnswers, TaskRun 0) ] 0.8 sampleReady_ready).
Defined.

(** ** Advancing and playing *)



Lemma apiCalls_after_request {A} (call : ApiCall) (resp : ApiOutcome A)
    (k : A -> M unit) (h : string -> M unit) (w : World) :
  (forall a, keeps apiCalls (k a)) -> (forall e, keeps apiCalls (h e)) ->
  apiCalls (snd (try_catch (bind (spotifyApi call resp) k) h w)) = call :: apiCalls w.
Proof.
  intros Hk Hh. unfold try_catch, bind, spotifyApi, modify.
  destruct resp as [a|message]; cbn.
  - specialize (Hk a (set_apiCalls (call :: apiCalls w) w)).
    destruct (k a _) as [[[]|e] w2]; cbn in *; [exact Hk|].
    now rewrite Hh.
  - now rewrite Hh.
Qed.

Lemma keeps_of_scheduleNoise : keeps apiCalls scheduleNoiseInteraction.
Proof. unfold scheduleNoiseInteraction. keeps_more. Qed.

(** X16. [playCurrentTrack] never throws and never changes the game
    state or the timers; it sends one play request for the track at the
    current index, and none when the index is beyond the order. *)
Theorem playCurrentTrack_requests_current (resp : ApiOutcome unit) (w : World) :
  let w' := snd (playCurrentTrack resp w) in
  fst (playCurrentTrack resp w) = Ok tt
  /\ gs w' = gs w /\ intervals w' = intervals w
  /\ apiCalls w'
     = if Z.of_nat (length (trackOrder (gs w))) <? currentTrack (gs w) then apiCalls w
       else PUT_play (deviceId (gs w))
              (index (trackOrder (gs w)) (currentTrack (gs w) - 1)) :: apiCalls w.
Proof.
  cbv zeta. split; [apply playCurrentTrack_ok|].
  pose proof (keeps_gs_playCurrentTrack resp w) as Hk.
  pose proof (f_equal (fun p => fst (fst p)) Hk) as Hg.
  pose proof (f_equal (fun p => snd (fst p)) Hk) as Hi. cbn in Hg, Hi.
  split; [exact Hg|]. split; [exact Hi|].
  unfold playCurrentTrack. rewrite bind_gets. cbv beta.
  destruct (_ <? _); [reflexivity|].
  pose proof (keeps_of_scheduleNoise) as Hs.
  apply apiCalls_after_request; intros; keeps_more.
Qed.

(** X17. Whatever goes wrong in [transferPlayback] - the device list
    cannot be fetched, the device of the page is not in it, or the
    transfer is refused - the caller sees the same error message, the
    game state is untouched, and the transfer request is sent only when
    the device is listed. *)
Theorem transferPlayback_failures (ans : Answers) (w : World) :
  let r := transferPlayback (devicesResp ans) (transferResp ans) w in
  let listed := match devicesResp ans, deviceId (gs w) with
                | Resolved devices, Some id => bool_decide (id ∈ devices)
                | _, _ => false
                end in
  fst r = (if transferOk ans (gs w) then Ok tt
           else Throw "Failed to connect to player. Make sure Spotify is open.")
  /\ gs (snd r) = gs w
  /\ apiCalls (snd r) = if listed then PUT_player (deviceId (gs w)) :: GET_devices :: apiCalls w
                        else GET_devices :: apiCalls w.
Proof.
  cbv zeta.
  unfold transferPlayback, transferOk, try_catch, bind, spotifyApi, gets, modify, throw, ret.
  destruct (devicesResp ans) as [devices|m1]; cbn; [|repeat split].
  destruct (deviceId (gs w)) as [id|]; cbn; [|repeat split].
  destruct (bool_decide (id ∈ devices)); cbn;
    destruct (transferResp ans) as [[]|m2]; cbn; repeat split.
Qed.

(** ** Telemetry *)

Lemma keeps_posted_handle (now : Z) (ans : Answers) (ev : Event) :
  keeps posted (handle now ans ev).
Proof.
  unfold handle, runTask. unfold_session. unfold noiseInteraction. keeps_more.
Qed.

Lemma keeps_posted_init dev country me ready :
  keeps posted (initializeGameBody dev country me ready).
Proof.
  unfold initializeGameBody, generateSessionParameters, generateTrackOrder. keeps_more.
Qed.

(** X18. With the webhook addresses as shipped (both empty) no telemetry
    request is ever made: in every world of a run the list of posted
    requests is empty, although [sendTelemetry] is called. *)
Theorem telemetry_is_never_posted (w0 : World) (turns : list Turn) :
  Ready w0 -> posted (run turns w0) = [].
Proof.
  intros (page & tape & dev & country & me & ready & _ & Heq).
  assert (H0 : posted w0 = []).
  { pose proof (keeps_posted_init dev country me ready (world0 page tape)) as H.
    rewrite Heq in H. exact H. }
  clear Heq. revert w0 H0.
  induction turns as [|t turns IH]; intros w0 H0; [exact H0|].
  cbn [run]. apply IH. destruct t as [[now ans] ev]. unfold step.
  rewrite keeps_posted_handle. exact H0.
Qed.

Lemma telemetry_is_never_posted_witness :
  posted (run [ (1000, sampleAnswers, MainButtonClick);
                (200000, sampleAnswers, tick 199500 200000);
                (200100, sampleAnswers, TaskRun 0) ] sampleReady) = [].
Proof.
  exact (telemetry_is_never_posted sampleReady
           [ (1000, sampleAnswers, MainButtonClick);
             (200000, sampleAnswers, tick 199500 200000);
             (200100, sampleAnswers, TaskRun 0) ] sampleReady_ready).
Defined.

Lemma size_all_three (done : gset Z) :
  (forall k, k ∈ done -> 1 <= k <= 3) -> allThree done -> size done = 3%nat.
Proof.
  intros Hb Hall.
  assert (Heq : done = {[1; 2; 3]}).
  { apply set_eq. intros k. split.
    - intros Hk. specialize (Hb k Hk).
      assert (k = 1 \/ k = 2 \/ k = 3) as [-> | [-> | ->]] by lia; set_solver.
    - intros Hk. apply Hall.
      rewrite !elem_of_union, !elem_of_singleton in Hk. lia. }
  rewrite Heq. reflexivity.
Qed.

(** X19. In every completed session of a run the completion payload
    reports three completed tracks and, for each of them, the required
    minimum ratio (not the ratio that was reached), together with the
    code that is set. *)
Theorem completion_payload (w0 : World) (turns : list Turn) (elapsed : Z) (userId : string) :
  Ready w0 ->
  let w := run turns w0 in
  completed w = true ->
  exists code,
    completionCode (gs w) = Some code
    /\ telemetry (snd (completionTelemetry elapsed userId w))
       = session_completed userId (fst <$> playlist (gs w)) (trackOrder (gs w))
           (map extractTrackId (trackOrder (gs w)))
           [minTrackRatio (gs w); minTrackRatio (gs w); minTrackRatio (gs w)]
           elapsed (countryHint (gs w)) (Some code) 3
         :: telemetry w.
Proof.
  intros Hready. cbv zeta. intros Hc.
  pose proof (Inv_reachable w0 turns Hready) as HI. inv_open HI. cbn in *.
  set (w := run turns w0) in *.
  assert (Hsize : size (tracksCompleted (gs w)) = 3%nat).
  { apply size_all_three; [|apply Hcomp, Hc].
    intros k Hk. specialize (Hdone k Hk). lia. }
  unfold completed in Hc.
  destruct (completionCode (gs w)) as [code|] eqn:Ecode; [|discriminate].
  exists code. split; [reflexivity|].
  unfold completionTelemetry, bind, gets, sendTelemetry, modify, when, showMessage,
    render, ret.
  cbn [snd telemetry set_telemetry set_ui]. fold w. rewrite Hsize. reflexivity.
Qed.

Lemma completion_payload_witness :
  let w := run [ (1000, sampleAnswers, MainButtonClick);
                 (200000, sampleAnswers, tick 199500 200000);
                 (200100, sampleAnswers, TaskRun 0);
                 (205000, sampleAnswers, TaskRun 0);
                 (400000, sampleAnswers, tick 189500 190000);
                 (400100, sampleAnswers, TaskRun 0);
                 (405000, sampleAnswers, TaskRun 0);
                 (600000, sampleAnswers, tick 180000 200000);
                 (760000, sampleAnswers, IntervalFired 2%positive) ] sampleReady in
  exists code,
    completionCode (gs w) = Some code
    /\ telemetry (snd (completionTelemetry 759000 "u1" w))
       = session_completed "u1" (fst <$> playlist (gs w)) (trackOrder (gs w))
           (map extractTrackId (trackOrder (gs w)))
           [minTrackRatio (gs w); minTrackRatio (gs w); minTrackRatio (gs w)]
           759000 (countryHint (gs w)) (Some code) 3
         :: telemetry w.
Proof.
  refine (completion_payload sampleReady
            [ (1000, sampleAnswers, MainButtonClick);
              (200000, sampleAnswers, tick 199500 200000);
              (200100, sampleAnswers, TaskRun 0);
              (205000, sampleAnswers, TaskRun 0);
              (400000, sampleAnswers, tick 189500 190000);
              (400100, sampleAnswers, TaskRun 0);
              (405000, sampleAnswers, TaskRun 0);
              (600000, sampleAnswers, tick 180000 200000);
              (760000, sampleAnswers, IntervalFired 2%positive) ]
            759000 "u1" sampleReady_ready _).
  vm_compute. reflexivity.
Defined.

(** ** The start of the session *)

Lemma keeps_startView_tick now state : keeps startView (handlePlayerStateChanged now state).
Proof. unfold_session. keeps_more. Qed.

Lemma keeps_startView_handle_other (now : Z) (ans : Answers) (ev : Event) :
  match ev with
  | MainButtonClick | TaskRun _ => True
  | _ => keeps startView (handle now ans ev)
  end.
Proof.
  destruct ev; try exact I; unfold handle; unfold_session; keeps_more.
Qed.

Lemma playNextTrack_startView (w : World) :
  startView (snd (playNextTrack w)) = startView w
  \/ (1 <= currentTrack (gs w)
      /\ startView (snd (playNextTrack w)) = (startedAt (gs w), currentTrack (gs w) + 1)).
Proof.
  unfold playNextTrack. rewrite bind_gets. cbv beta.
  destruct (_ <=? _); [now left|].
  unfold index.
  destruct (Z.ltb_spec (currentTrack (gs w) - 1) 0); [now left|].
  destruct (trackOrder (gs w) !! Z.to_nat (currentTrack (gs w) - 1)); [|now left].
  right. split; [lia|].
  rewrite bind_ret. cbv beta.
  unfold sendTelemetry. rewrite bind_assoc, bind_modify. cbv beta.
  cbn [when Str.truthy N8N_TELEMETRY_URL truthyStr]. rewrite bind_ret, bind_assign, bind_gets.
  cbv beta.
  match goal with |- startView (snd (when ?b ?m ?W)) = _ =>
    assert (Hk : keeps startView (when b m)) by keeps_more;
    rewrite (Hk W) end.
  reflexivity.
Qed.

Lemma startedWhenCurrent_view (w w' : World) :
  startView w' = startView w -> startedWhenCurrent w -> startedWhenCurrent w'.
Proof.
  unfold startView, startedWhenCurrent. intros H.
  pose proof (f_equal fst H) as H1. pose proof (f_equal snd H) as H2. cbn in H1, H2.
  now rewrite H1, H2.
Qed.

Lemma startedWhenCurrent_async (m : M unit) (w : World) :
  startedWhenCurrent (snd (m w)) -> startedWhenCurrent (snd (async m w)).
Proof.
  unfold async, try_catch. destruct (m w) as [[[]|e] w']; cbn; [trivial|].
  apply startedWhenCurrent_view. reflexivity.
Qed.

Lemma startedWhenCurrent_step (t : Turn) (w : World) :
  0 <= currentTrack (gs w) -> startedWhenCurrent w -> startedWhenCurrent (step t w).
Proof.
  intros Hnn HS. destruct t as [[now ans] ev].
  pose proof (keeps_startView_handle_other now ans ev) as Hother.
  destruct ev as [state|id|i| |].
  - apply (startedWhenCurrent_view w); [apply Hother|exact HS].
  - apply (startedWhenCurrent_view w); [apply Hother|exact HS].
  - unfold step, handle, bind, gets.
    destruct (pending w !! i) as [[d t]|]; [|exact HS].
    unfold modify. cbn [snd].
    set (w1 := set_pending (delete i (pending w)) w).
    assert (HS1 : startedWhenCurrent w1) by exact HS.
    assert (Hnn1 : 0 <= currentTrack (gs w1)) by exact Hnn.
    destruct t; cbn [runTask]; try apply startedWhenCurrent_async.
    + destruct (playNextTrack_startView w1) as [H|[Hk H]];
        [exact (startedWhenCurrent_view _ _ H HS1)|].
      unfold startedWhenCurrent, startView in *.
      pose proof (f_equal fst H) as H1. pose proof (f_equal snd H) as H2.
      cbn [fst snd] in H1, H2.
      rewrite H1, H2. split; [lia|]. intros Hn. apply HS1 in Hn. lia.
    + apply (startedWhenCurrent_view w1); [|exact HS1].
      assert (Hk : keeps startView (playCurrentTrack (playResp ans)))
        by (unfold_session; keeps_more).
      apply Hk.
    + apply (startedWhenCurrent_view w1); [|exact HS1].
      assert (Hk : keeps startView (noiseInteraction (volume ans)))
        by (unfold noiseInteraction; keeps_more).
      apply Hk.
    + apply (startedWhenCurrent_view w1); [reflexivity|exact HS1].
    + apply (startedWhenCurrent_view w1); [reflexivity|exact HS1].
    + apply (startedWhenCurrent_view w1); [|exact HS1].
      assert (Hk : keeps startView (completionTelemetry elapsed userId))
        by (unfold_session; keeps_more).
      apply Hk.
  - unfold step, handle, bind, gets. destruct (_ && _); [|exact HS]. cbn [when].
    apply startedWhenCurrent_async.
    destruct (startSession_cases now ans w) as [_ H].
    unfold startedWhenCurrent in *.
    destruct (setupFailure ans (gs w)).
    + destruct H as (_ & _ & _ & -> & _). exact HS.
    + destruct H as (-> & _). cbn. split; discriminate.
  - apply (startedWhenCurrent_view w); [apply Hother|exact HS].
Qed.

(** X20. In every world of a run the start time is set exactly when a
    track is current: no track plays before the session is started, and
    a started session always has its start time. *)
Theorem started_exactly_when_current (w0 : World) (turns : list Turn) :
  Ready w0 ->
  let w := run turns w0 in
  currentTrack (gs w) = 0 <-> startedAt (gs w) = None.
Proof.
  intros Hready. cbv zeta.
  assert (H0 : startedWhenCurrent w0).
  { destruct (Inv_ready w0 Hready) as [HI Hb].
    destruct (Inv_idle w0 HI Hb) as (Ht & _).
    destruct Hready as (page & tape & dev & country & me & ready & _ & Heq).
    assert (Hk : keeps startView (initializeGameBody dev country me ready))
      by (unfold initializeGameBody, generateSessionParameters, generateTrackOrder;
          keeps_more).
    specialize (Hk (world0 page tape)). rewrite Heq in Hk. cbn [snd] in Hk.
    apply (startedWhenCurrent_view _ _ Hk). unfold startedWhenCurrent. cbn. tauto. }
  assert (Hgen : forall ts w, Inv w -> startedWhenCurrent w -> startedWhenCurrent (run ts w)).
  { induction ts as [|t ts IH]; intros w HI HS; [exact HS|].
    cbn [run]. apply IH; [apply Inv_step, HI|].
    apply startedWhenCurrent_step; [|exact HS]. inv_open HI. cbn in *. lia. }
  apply Hgen; [apply Inv_ready, Hready|exact H0].
Qed.

Lemma started_exactly_when_current_witness :
  let w := run [(1000, sampleAnswers, MainButtonClick)] sampleReady in
  currentTrack (gs w) = 0 <-> startedAt (gs w) = None.
Proof.
  exact (started_exactly_when_current sampleReady
           [(1000, sampleAnswers, MainButtonClick)] sampleReady_ready).
Defined.

(** ** The early-finish button *)

(** X21. The early-finish button is shown once: when its inline display
    is 'none' it is shown, gets its handler and one message is added;
    after that, or when the display was not 'none' to begin with, the
    call changes nothing. *)
Theorem showEarlyFinishOption_once (w : World) :
  let w1 := snd (showEarlyFinishOption w) in
  showEarlyFinishOption w1 = (Ok tt, w1)
  /\ (finishButtonDisplay (ui w) <> "none" -> w1 = w)
  /\ (finishButtonDisplay (ui w) = "none" ->
      finishButtonOnclick (ui w1) = true
      /\ finishButtonDisplay (ui w1) = "block"
      /\ length (statusMessages (ui w1)) = S (length (statusMessages (ui w)))).
Proof.
  cbv zeta. rewrite !showEarlyFinishOption_eq. cbn [snd].
  destruct (String.eqb_spec (finishButtonDisplay (ui w)) "none") as [Hd|Hd].
  - cbn. split; [reflexivity|]. split; [contradiction|]. intros _. repeat split.
  - apply String.eqb_neq in Hd. rewrite Hd.
    split; [reflexivity|]. split; [reflexivity|].
    intros H. apply String.eqb_neq in Hd. contradiction.
Qed.

(** ** The session parameters *)

Lemma keeps_configView_handle (now : Z) (ans : Answers) (ev : Event) :
  keeps configView (handle now ans ev).
Proof.
  unfold handle, runTask. unfold_session. unfold noiseInteraction. keeps_more.
Qed.

(** X22. The parameters of the session - duration, minimum track ratio,
    early-finish threshold, track order and the save-button draw - are
    fixed once the page is set up: no turn of the event loop changes
    them, not even a failed start followed by a retry. *)
Theorem session_parameters_are_fixed (turns : list Turn) (w : World) :
  configView (run turns w) = configView w.
Proof.
  revert w. induction turns as [|t turns IH]; intros w; [reflexivity|].
  cbn [run]. rewrite IH. destruct t as [[now ans] ev]. unfold step.
  apply keeps_configView_handle.
Qed.


Lemma showEarlyFinishOption_once_witness :
  finishButtonOnclick (ui (snd (showEarlyFinishOption sampleAllDone))) = true.
Proof.
  refine (proj1 (proj2 (proj2 (showEarlyFinishOption_once sampleAllDone)) _)).
  vm_compute. reflexivity.
Defined.
